(** * Striped ring attention: forward and backward drivers

    A shallow embedding of [yunchang/ring/stripe_flash_attn.py].

    Tensors are nested lists tagged with their dtype; the scalar type, its
    rounding and its addition are section variables (floating point is not
    interpreted).  The drivers run in a small state-and-error monad whose
    state holds the trace of ring and kernel events and the autograd
    context.

    Tensors are values: an update in place yields the new value of the
    variable, and where the source leaves two variables on one object
    ([dk] and [next_dk] after [dk[:, :-1] += ...]) both get the new value.
    The accumulators [dq], [dk], [dv] come from [.to(torch.float32)] of
    the per-step buffers, which is a copy for the float16 and bfloat16
    blocks the kernels take; for a float32 block it returns the buffer
    itself.  Which tensor each gradient variable names is followed apart,
    in [Sharing]: the results on the values of the gradients are stated
    for float16 and bfloat16 blocks, where no two variables share.

    [RingComm] and [update_out_and_lse] live in [yunchang/ring/utils.py],
    [select_flash_attn_impl] and [FlashAttentionImpl] in
    [yunchang/kernels]; the first two are modelled from the specification,
    the last two are parameters. *)

From Stdlib Require Import String List Arith Bool Lia ZArith Permutation.
Import ListNotations.

Local Open Scope nat_scope.

(** ** Element types and Python slices *)

Inductive dtype : Type := float16 | bfloat16 | float32.

(** [torch.promote_types] on the floating dtypes. *)
Definition promote (a b : dtype) : dtype :=
  match a, b with
  | float16, float16 => float16
  | bfloat16, bfloat16 => bfloat16
  | _, _ => float32
  end.

(** A Python [slice(start, stop)] with step 1. *)
Record slice : Type := Slice { sl_start : option Z; sl_stop : option Z }.

Definition slice_all : slice := Slice None None.          (* [:]   *)
Definition slice_from1 : slice := Slice (Some 1%Z) None.  (* [1:]  *)
Definition slice_to_m1 : slice := Slice None (Some (-1)%Z). (* [:-1] *)

(** Python's clamping of a slice bound against a length. *)
Definition norm_index (len : nat) (i : Z) : nat :=
  if (i <? 0)%Z then Z.to_nat (Z.max 0 (Z.of_nat len + i))
  else Nat.min len (Z.to_nat i).

Definition slice_lo (s : slice) (len : nat) : nat :=
  match sl_start s with None => 0 | Some i => norm_index len i end.

Definition slice_hi (s : slice) (len : nat) : nat :=
  match sl_stop s with None => len | Some i => norm_index len i end.

(** [l[s]] *)
Definition getslice {A : Type} (s : slice) (l : list A) : list A :=
  let n := length l in
  firstn (slice_hi s n - slice_lo s n) (skipn (slice_lo s n) l).

(** An update in place: [l] keeps its length, its elements are combined with
    those of [m] as far as [m] goes. *)
Fixpoint zip_into {A B : Type} (f : A -> B -> A) (l : list A) (m : list B) : list A :=
  match l, m with
  | a :: l', b :: m' => f a b :: zip_into f l' m'
  | _, _ => l
  end.

(** [l[s] = f(l[s], new)] in place. *)
Definition updslice {A B : Type} (f : A -> B -> A) (s : slice) (l : list A)
           (new : list B) : list A :=
  let n := length l in
  firstn (slice_lo s n) l
  ++ zip_into f (getslice s l) new
  ++ skipn (Nat.max (slice_lo s n) (slice_hi s n)) l.

(** [l[s] = new] *)
Definition setslice {A : Type} (s : slice) (l new : list A) : list A :=
  updslice (fun _ b => b) s l new.

Fixpoint zipWith {A B C : Type} (f : A -> B -> C) (l : list A) (m : list B) : list C :=
  match l, m with
  | a :: l', b :: m' => f a b :: zipWith f l' m'
  | _, _ => []
  end.

(** Swapping the two axes of a (non-degenerate) matrix. *)
Fixpoint transpose {A : Type} (m : list (list A)) : list (list A) :=
  match m with
  | [] => []
  | r :: rs =>
      match rs with
      | [] => map (fun x => [x]) r
      | _ :: _ => zipWith cons r (transpose rs)
      end
  end.

Inductive exn : Type :=
| AssertionError (msg : option string)
| AttributeError
| TypeError
| ZeroDivisionError.

(** The two messages of the causal assertions. *)
Definition causal_msg_fwd : string :=
  "stripe flash attn only supports causal attention, if not causal, use ring flash attn instead"%string.
Definition causal_msg_bwd : string :=
  "stripe flash attn only supports causal attention, if not causal, ring flash attn instead"%string.

Inductive stage : Type := fwd_only | bwd_only.

Section Model.

(** Scalars held by tensors, with rounding to a dtype and addition. *)
Variable E : Type.
Variable cast : dtype -> E -> E.
Variable add : E -> E -> E.

(** Python floats (dropout_p, softmax_scale, softcap) and the two
    operations the file applies to them: [dropout_p > 0] and
    [n ** (-0.5)]; [pow_neg_half n] is the value of the latter for a
    positive [n] (at 0 Python raises ZeroDivisionError, see
    [py_pow_neg_half]). *)
Variable PyFloat : Type.
Variable gt_zero : PyFloat -> bool.
Variable pow_neg_half : nat -> PyFloat.
Variable float_zero : PyFloat.

(** [FlashAttentionImpl], declared in [yunchang.kernels]. *)
Variable FlashAttentionImpl : Type.
Variable FA : FlashAttentionImpl.

(** ** Tensors *)

Definition T1 : Type := list E.
Definition T2 : Type := list T1.
Definition T3 : Type := list T2.
Definition T4 : Type := list T3.

(** A block (batch, seq, heads, head_dim). *)
Record Tensor : Type := mkTensor { t_dtype : dtype; t_data : T4 }.
(** A log-sum-exp in the kernel's layout (batch, heads, seq). *)
Record Tensor3 : Type := mkTensor3 { t3_dtype : dtype; t3_data : T3 }.

Definition map4 (f : E -> E) (d : T4) : T4 := map (map (map (map f))) d.
Definition zip4 (f : E -> E -> E) (x y : T4) : T4 :=
  zipWith (zipWith (zipWith (zipWith f))) x y.

(** [t.to(d)], as a value; when [d] is the dtype of [t] the source gets
    [t] itself and no copy, which [Sharing] follows. *)
Definition to (d : dtype) (t : Tensor) : Tensor :=
  mkTensor d (map4 (cast d) (t_data t)).

(** [t[:, s]] *)
Definition rows (s : slice) (t : Tensor) : Tensor :=
  mkTensor (t_dtype t) (map (getslice s) (t_data t)).

(** [t[:, :, s]] on the kernel layout. *)
Definition rows3 (s : slice) (t : Tensor3) : Tensor3 :=
  mkTensor3 (t3_dtype t) (map (map (getslice s)) (t3_data t)).

(** [t[:, s] = new] *)
Definition set_rows (s : slice) (t new : Tensor) : Tensor :=
  mkTensor (t_dtype t) (zip_into (setslice s) (t_data t) (t_data new)).

(** [x + y], a new tensor of the promoted dtype. *)
Definition tadd (x y : Tensor) : Tensor :=
  let d := promote (t_dtype x) (t_dtype y) in
  mkTensor d (zip4 (fun a b => cast d (add a b)) (t_data x) (t_data y)).

(** [x += y], in place: [x] keeps its dtype and its shape. *)
Definition iadd (x y : Tensor) : Tensor :=
  mkTensor (t_dtype x)
           (zip_into (zip_into (zip_into (zip_into
              (fun a b => cast (t_dtype x) (add a b))))) (t_data x) (t_data y)).

(** [x[:, s] += y[:, s]] *)
Definition iadd_rows (s : slice) (x y : Tensor) : Tensor :=
  set_rows s x (iadd (rows s x) (rows s y)).

(** [t.squeeze(dim=-1)]: the last axis goes when it has size one. *)
Definition squeeze1 (r : T1) : option E :=
  match r with [x] => Some x | _ => None end.

Fixpoint sequence {A : Type} (l : list (option A)) : option (list A) :=
  match l with
  | [] => Some []
  | Some a :: l' => match sequence l' with Some r => Some (a :: r) | None => None end
  | None :: _ => None
  end.

Definition squeeze_last (d : T4) : option T3 :=
  sequence (map (fun b => sequence (map (fun s => sequence (map squeeze1 s)) b)) d).

(** The value of [lse.squeeze(dim=-1).transpose(1, 2)]: rank 3 when the
    squeeze applies, rank 4 otherwise. *)
Inductive AnyTensor : Type :=
| Rank3 (t : Tensor3)
| Rank4 (t : Tensor).

Definition squeeze_transpose (t : Tensor) : AnyTensor :=
  match squeeze_last (t_data t) with
  | Some d3 => Rank3 (mkTensor3 (t_dtype t) (map transpose d3))
  | None => Rank4 (mkTensor (t_dtype t) (map transpose (t_data t)))
  end.

(** [t[:, :, s]] on either rank. *)
Definition rows_axis2 (s : slice) (t : AnyTensor) : AnyTensor :=
  match t with
  | Rank3 t => Rank3 (rows3 s t)
  | Rank4 t => Rank4 (mkTensor (t_dtype t) (map (map (getslice s)) (t_data t)))
  end.

(** [q.shape[-1]] *)
Definition shape_last (t : Tensor) : nat :=
  length (hd [] (hd [] (hd [] (t_data t)))).

(** ** The attention kernels *)

Record fwd_args : Type := mkFwdArgs {
  fa_q : Tensor; fa_k : Tensor; fa_v : Tensor;
  fa_dropout_p : PyFloat; fa_softmax_scale : PyFloat;
  fa_causal : bool; fa_window_size : Z * Z; fa_softcap : PyFloat;
  fa_alibi_slopes : option Tensor; fa_return_softmax : bool }.

Record bwd_args : Type := mkBwdArgs {
  ba_dout : Tensor; ba_q : Tensor; ba_k : Tensor; ba_v : Tensor;
  ba_out : Tensor; ba_softmax_lse : AnyTensor;
  ba_dq : Tensor; ba_dk : Tensor; ba_dv : Tensor;
  ba_dropout_p : PyFloat; ba_softmax_scale : PyFloat;
  ba_causal : bool; ba_window_size : Z * Z; ba_softcap : PyFloat;
  ba_alibi_slopes : option Tensor; ba_deterministic : bool;
  ba_rng_state : option Tensor }.

(** What [select_flash_attn_impl] returns: the forward form yields
    (block_out, block_lse); the backward form yields the three blocks it
    writes into the dq, dk and dv arguments it was given. *)
Record kernel : Type := mkKernel {
  k_fwd : fwd_args -> Tensor * Tensor3;
  k_bwd : bwd_args -> T4 * T4 * T4 }.

Variable select_flash_attn_impl : FlashAttentionImpl -> stage -> kernel.

(** ** Events, autograd context and the monad *)

Inductive event : Type :=
| EvSendRecv (comm : nat) (to_send : Tensor) (recv_tensor : option Tensor)
| EvCommit (comm : nat)
| EvWait (comm : nat)
| EvFwdKernel (impl : FlashAttentionImpl) (st : stage) (a : fwd_args)
| EvBwdKernel (impl : FlashAttentionImpl) (st : stage) (a : bwd_args)
| EvContiguous (t : Tensor)
| EvContiguousLse (t : AnyTensor).

(** The ring topology and the peer: [pg_deliver c n] is the block the
    previous rank puts into the [n]-th receive buffer of channel [c]. *)
Record ProcessGroup : Type := mkGroup {
  pg_rank : nat;
  pg_world_size : nat;
  pg_deliver : nat -> nat -> T4 }.

(** The default process group, used when [group] is [None]. *)
Variable WORLD : ProcessGroup.

(** The content of the memory [torch.empty] hands out for a buffer shaped
    like the given tensor. *)
Variable uninitialized : Tensor -> T4.

Record Ctx : Type := mkCtx {
  ctx_saved : option (Tensor * Tensor * Tensor * Tensor * AnyTensor);
  ctx_dropout_p : option PyFloat;
  ctx_softmax_scale : option PyFloat;
  ctx_causal : option bool;
  ctx_window_size : option (Z * Z);
  ctx_softcap : option PyFloat;
  ctx_alibi_slopes : option (option Tensor);
  ctx_deterministic : option bool;
  ctx_group : option (option ProcessGroup);
  ctx_attn_type : option FlashAttentionImpl }.

Definition empty_ctx : Ctx :=
  mkCtx None None None None None None None None None None.

Record world : Type := mkWorld { w_trace : list event; w_ctx : Ctx }.

Definition M (A : Type) : Type := world -> (exn + A) * world.

Definition ret {A : Type} (a : A) : M A := fun w => (inr a, w).

Definition bind {A B : Type} (m : M A) (f : A -> M B) : M B :=
  fun w => match m w with
           | (inl e, w') => (inl e, w')
           | (inr a, w') => f a w'
           end.

Definition raise {A : Type} (e : exn) : M A := fun w => (inl e, w).

Definition emit (evs : list event) (w : world) : world :=
  mkWorld (w_trace w ++ evs) (w_ctx w).

Definition tell (e : event) : M unit := fun w => (inr tt, emit [e] w).

Definition set_ctx (c : Ctx) : M unit := fun w => (inr tt, mkWorld (w_trace w) c).

(** Using a variable that holds [None] as a tensor. *)
Definition need {A : Type} (e : exn) (o : option A) : M A :=
  match o with Some a => ret a | None => raise e end.

Definition py_assert (c : bool) (msg : option string) : M unit :=
  if c then ret tt else raise (AssertionError msg).

Notation "x <- m ;; k" := (bind m (fun x => k))
  (at level 61, m at next level, right associativity).
Notation "' p <- m ;; k" := (bind m (fun p => k))
  (at level 61, p pattern, m at next level, right associativity).
Notation "m ;;; k" := (bind m (fun _ => k))
  (at level 61, right associativity).

(** [for x in l: st = body(x, st)] *)
Fixpoint for_each {St : Type} (body : nat -> St -> M St) (l : list nat) (st : St)
  : M St :=
  match l with
  | [] => ret st
  | x :: l' => st' <- body x st ;; for_each body l' st'
  end.

(** ** RingComm *)

(** Modelled from the spec: [RingComm] of [yunchang/ring/utils.py], which
    is not among the sources.  It exposes [rank] and [world_size] of the
    ring; [send_recv] queues a non-blocking transfer of a block to the
    next peer and from the previous peer into a buffer (the supplied one
    when given, a fresh one like the outgoing block otherwise) and hands
    that buffer back; [commit] flushes what was queued; [wait] blocks
    until the receive buffers are populated.  [rc_label] tells the
    instances of one process group apart and [rc_issued] counts the
    transfers of this instance. *)
Record RingComm : Type := mkRingComm {
  rc_group : ProcessGroup;
  rc_label : nat;
  rank : nat;
  world_size : nat;
  rc_issued : nat }.

(** Modelled from the spec: [RingComm(process_group)]; [rank] and
    [world_size] are those of the group, the default one for [None]. *)
Definition RingComm_new (process_group : option ProcessGroup) (label : nat) : RingComm :=
  let g := match process_group with Some g => g | None => WORLD end in
  mkRingComm g label (pg_rank g) (pg_world_size g) 0.

(** Modelled from the spec: the block found in the receive buffer once the
    transfer has been waited on is the one the previous peer sent; the
    buffer keeps its own dtype. *)
Definition send_recv (c : RingComm) (to_send : Tensor) (recv_tensor : option Tensor)
  : M (Tensor * RingComm) :=
  let res_dtype := match recv_tensor with
                   | Some b => t_dtype b
                   | None => t_dtype to_send
                   end in
  tell (EvSendRecv (rc_label c) to_send recv_tensor) ;;;
  ret (mkTensor res_dtype (pg_deliver (rc_group c) (rc_label c) (rc_issued c)),
       mkRingComm (rc_group c) (rc_label c) (rank c) (world_size c) (S (rc_issued c))).

(** Modelled from the spec: [commit] and [wait] of [RingComm], seen as
    events of the channel. *)
Definition commit (c : RingComm) : M unit := tell (EvCommit (rc_label c)).

Definition wait (c : RingComm) : M unit := tell (EvWait (rc_label c)).

(** ** The online-softmax merge *)

(** Scalar laws of the merge: the combined log-sum-exp of two
    log-sum-exps, and the combined output given the two log-sum-exps and
    the two partial outputs. *)
Variable lse_merge : E -> E -> E.
Variable out_merge : E -> E -> E -> E -> E.

(** Modelled from the spec: a block log-sum-exp (batch, heads, seq)
    brought to the running layout (batch, seq, heads, 1), the one the
    final [squeeze(dim=-1).transpose(1, 2)] of the forward driver undoes. *)
Definition lse_to_running (block_lse : Tensor3) : Tensor :=
  mkTensor (t3_dtype block_lse)
           (map (fun hs => map (map (fun x => [x])) (transpose hs)) (t3_data block_lse)).

(** Broadcasting a last axis of size one over [n] positions. *)
Definition bcast (r : T1) (n : nat) : T1 :=
  match r with [x] => repeat x n | _ => r end.

(** Modelled from the spec: the combined log-sum-exp, element by element. *)
Definition merge_lse_data (lse blse : T4) : T4 := zip4 lse_merge lse blse.

(** Modelled from the spec: the combined output, each element weighted by
    the two log-sum-exps of its (batch, row, head). *)
Definition merge_out_row (l bl o bo : T1) : T1 :=
  zipWith (fun lb obo => out_merge (fst lb) (snd lb) (fst obo) (snd obo))
          (combine (bcast l (length o)) (bcast bl (length o)))
          (combine o bo).

Definition merge_out_data (lse blse out bout : T4) : T4 :=
  zipWith (fun lb obo =>
    zipWith (fun lb obo =>
      zipWith (fun lb obo => merge_out_row (fst lb) (snd lb) (fst obo) (snd obo))
              (combine (fst lb) (snd lb)) (combine (fst obo) (snd obo)))
            (combine (fst lb) (snd lb)) (combine (fst obo) (snd obo)))
          (combine lse blse) (combine out bout).

(** Modelled from the spec: the merge of two non-empty partial results,
    in full precision. *)
Definition merge_blocks (out lse block_out block_lse : Tensor) : Tensor * Tensor :=
  (mkTensor (t_dtype out)
            (merge_out_data (t_data lse) (t_data block_lse)
                            (t_data out) (map4 (cast float32) (t_data block_out))),
   mkTensor (t_dtype lse) (merge_lse_data (t_data lse) (t_data block_lse))).

(** [t[s0, s1]] and [t[s0, s1] = new] *)
Definition getslice2 (sl : slice * slice) (t : Tensor) : Tensor :=
  mkTensor (t_dtype t) (map (getslice (snd sl)) (getslice (fst sl) (t_data t))).

Definition setslice2 (sl : slice * slice) (t new : Tensor) : Tensor :=
  mkTensor (t_dtype t) (updslice (setslice (snd sl)) (fst sl) (t_data t) (t_data new)).

(** Modelled from the spec: [update_out_and_lse] of
    [yunchang/ring/utils.py], which is not among the sources.  An empty
    running pair takes the block as it is, placed at the rows of the
    slice with the other rows left empty; otherwise the rows of the slice
    are merged with the block and the rows outside it pass through
    unchanged. *)
Definition update_out_and_lse (out lse : option Tensor)
           (block_out : Tensor) (block_lse : Tensor3)
           (slice_ : option (slice * slice)) : Tensor * Tensor :=
  let block_lse := lse_to_running block_lse in
  match out, lse with
  | Some out, Some lse =>
      match slice_ with
      | None => merge_blocks out lse block_out block_lse
      | Some sl =>
          let '(o, l) := merge_blocks (getslice2 sl out) (getslice2 sl lse)
                                      block_out block_lse in
          (setslice2 sl out o, setslice2 sl lse l)
      end
  | _, _ =>
      let pad (t : Tensor) :=
        match slice_ with
        | None => t
        | Some sl =>
            mkTensor (t_dtype t)
                     (map (fun b => repeat [] (slice_lo (snd sl) (length b)) ++ b) (t_data t))
        end in
      (pad (to float32 block_out), pad block_lse)
  end.

(** ** stripe_flash_attn_forward *)

(** The local variables of the forward loop. *)
Record fwd_locals : Type := mkFwdLocals {
  fl_k : option Tensor; fl_v : option Tensor;
  fl_out : option Tensor; fl_lse : option Tensor;
  fl_next_k : option Tensor; fl_next_v : option Tensor;
  fl_comm : RingComm }.

Definition call_fwd (attn_type : FlashAttentionImpl) (a : fwd_args)
  : M (Tensor * Tensor3) :=
  let fn := select_flash_attn_impl attn_type fwd_only in
  tell (EvFwdKernel attn_type fwd_only a) ;;;
  ret (k_fwd fn a).

Section Forward.

Variables (q : Tensor) (softmax_scale dropout_p : PyFloat) (causal : bool)
          (window_size : Z * Z) (softcap : PyFloat)
          (alibi_slopes : option Tensor) (deterministic : bool)
          (attn_type : FlashAttentionImpl).

(** Lines 31-34: the fetch of the next K and V shards. *)
Definition fwd_fetch (step : nat) (st : fwd_locals) : M fwd_locals :=
  if negb (step + 1 =? world_size (fl_comm st)) then
    k <- need TypeError (fl_k st) ;;
    '(next_k, comm) <- send_recv (fl_comm st) k None ;;
    v <- need TypeError (fl_v st) ;;
    '(next_v, comm) <- send_recv comm v None ;;
    commit comm ;;;
    ret (mkFwdLocals (fl_k st) (fl_v st) (fl_out st) (fl_lse st)
                     (Some next_k) (Some next_v) comm)
  else ret st.

(** Lines 36-67: the kernel call and the merge. *)
Definition fwd_compute (step : nat) (st : fwd_locals) : M fwd_locals :=
  k <- need TypeError (fl_k st) ;;
  v <- need TypeError (fl_v st) ;;
  if step <=? rank (fl_comm st) then
    '(block_out, block_lse) <-
      call_fwd attn_type
               (mkFwdArgs q k v dropout_p softmax_scale causal window_size
                          softcap alibi_slopes (true && gt_zero dropout_p)) ;;
    let '(out, lse) :=
      update_out_and_lse (fl_out st) (fl_lse st) block_out block_lse None in
    ret (mkFwdLocals (fl_k st) (fl_v st) (Some out) (Some lse)
                     (fl_next_k st) (fl_next_v st) (fl_comm st))
  else
    '(block_out, block_lse) <-
      call_fwd attn_type
               (mkFwdArgs (rows slice_from1 q) (rows slice_to_m1 k)
                          (rows slice_to_m1 v) dropout_p softmax_scale causal
                          window_size softcap alibi_slopes
                          (true && gt_zero dropout_p)) ;;
    let '(out, lse) :=
      update_out_and_lse (fl_out st) (fl_lse st) block_out block_lse
                         (Some (slice_all, slice_from1)) in
    ret (mkFwdLocals (fl_k st) (fl_v st) (Some out) (Some lse)
                     (fl_next_k st) (fl_next_v st) (fl_comm st)).

(** Lines 69-72: the wait and the rotation of K and V. *)
Definition fwd_rotate (step : nat) (st : fwd_locals) : M fwd_locals :=
  if negb (step + 1 =? world_size (fl_comm st)) then
    wait (fl_comm st) ;;;
    ret (mkFwdLocals (fl_next_k st) (fl_next_v st) (fl_out st) (fl_lse st)
                     (fl_next_k st) (fl_next_v st) (fl_comm st))
  else ret st.

Definition fwd_body (step : nat) (st : fwd_locals) : M fwd_locals :=
  st <- fwd_fetch step st ;;
  st <- fwd_compute step st ;;
  fwd_rotate step st.

Definition fwd_init (process_group : option ProcessGroup) (k v : Tensor)
  : fwd_locals :=
  mkFwdLocals (Some k) (Some v) None None None None
              (RingComm_new process_group 0).

(** The loop of lines 30-72, cut after [n] iterations. *)
Definition fwd_loop (process_group : option ProcessGroup) (k v : Tensor) (n : nat)
  : M fwd_locals :=
  for_each fwd_body (seq 0 n) (fwd_init process_group k v).

End Forward.

Definition stripe_flash_attn_forward (process_group : option ProcessGroup)
           (q k v : Tensor) (softmax_scale dropout_p : PyFloat) (causal : bool)
           (window_size : Z * Z) (softcap : PyFloat)
           (alibi_slopes : option Tensor) (deterministic : bool)
           (attn_type : FlashAttentionImpl) : M (Tensor * AnyTensor) :=
  py_assert causal (Some causal_msg_fwd) ;;;
  let comm := RingComm_new process_group 0 in
  st <- fwd_loop q softmax_scale dropout_p causal window_size softcap
                 alibi_slopes attn_type process_group k v (world_size comm) ;;
  out <- need AttributeError (fl_out st) ;;
  let out := to (t_dtype q) out in
  lse <- need AttributeError (fl_lse st) ;;
  let lse := squeeze_transpose lse in
  ret (out, lse).

(** ** stripe_flash_attn_backward *)

(** The local variables of the backward loop. *)
Record bwd_locals : Type := mkBwdLocals {
  bl_k : option Tensor; bl_v : option Tensor;
  bl_dq : option Tensor; bl_dk : option Tensor; bl_dv : option Tensor;
  bl_next_dk : option Tensor; bl_next_dv : option Tensor;
  bl_next_k : option Tensor; bl_next_v : option Tensor;
  bl_dk_comm_buffer : option Tensor; bl_dv_comm_buffer : option Tensor;
  bl_block_dq_buffer : Tensor; bl_block_dk_buffer : Tensor;
  bl_block_dv_buffer : Tensor;
  bl_shift_causal : bool;
  bl_softmax_lse_1 : option AnyTensor;
  bl_kv_comm : RingComm; bl_d_kv_comm : RingComm }.

Definition set_kv (st : bwd_locals) (k v next_k next_v : option Tensor)
           (kv_comm : RingComm) : bwd_locals :=
  mkBwdLocals k v (bl_dq st) (bl_dk st) (bl_dv st) (bl_next_dk st) (bl_next_dv st)
              next_k next_v (bl_dk_comm_buffer st) (bl_dv_comm_buffer st)
              (bl_block_dq_buffer st) (bl_block_dk_buffer st) (bl_block_dv_buffer st)
              (bl_shift_causal st) (bl_softmax_lse_1 st) kv_comm (bl_d_kv_comm st).

Definition set_kernel (st : bwd_locals) (shift_causal : bool)
           (softmax_lse_1 : option AnyTensor) (bdq bdk bdv : Tensor) : bwd_locals :=
  mkBwdLocals (bl_k st) (bl_v st) (bl_dq st) (bl_dk st) (bl_dv st)
              (bl_next_dk st) (bl_next_dv st) (bl_next_k st) (bl_next_v st)
              (bl_dk_comm_buffer st) (bl_dv_comm_buffer st) bdq bdk bdv
              shift_causal softmax_lse_1 (bl_kv_comm st) (bl_d_kv_comm st).

Definition set_grads (st : bwd_locals) (dq dk dv next_dk next_dv : option Tensor)
           (dk_comm_buffer dv_comm_buffer : option Tensor) (d_kv_comm : RingComm)
  : bwd_locals :=
  mkBwdLocals (bl_k st) (bl_v st) dq dk dv next_dk next_dv
              (bl_next_k st) (bl_next_v st) dk_comm_buffer dv_comm_buffer
              (bl_block_dq_buffer st) (bl_block_dk_buffer st) (bl_block_dv_buffer st)
              (bl_shift_causal st) (bl_softmax_lse_1 st) (bl_kv_comm st) d_kv_comm.

(** The kernel writes its result through the view it was given. *)
Definition write_view (s : option slice) (buffer : Tensor) (res : T4) : Tensor :=
  match s with
  | None => mkTensor (t_dtype buffer) res
  | Some s => set_rows s buffer (mkTensor (t_dtype buffer) res)
  end.

Definition call_bwd (attn_type : FlashAttentionImpl) (a : bwd_args)
  : M (T4 * T4 * T4) :=
  let fn := select_flash_attn_impl attn_type bwd_only in
  tell (EvBwdKernel attn_type bwd_only a) ;;;
  ret (k_bwd fn a).

Section Backward.

Variables (dout q out : Tensor) (softmax_lse : AnyTensor)
          (softmax_scale dropout_p : PyFloat) (causal : bool)
          (window_size : Z * Z) (softcap : PyFloat)
          (alibi_slopes : option Tensor) (deterministic : bool)
          (attn_type : FlashAttentionImpl).

(** Lines 110-113. *)
Definition bwd_fetch (step : nat) (st : bwd_locals) : M bwd_locals :=
  if negb (step + 1 =? world_size (bl_kv_comm st)) then
    k <- need TypeError (bl_k st) ;;
    '(next_k, kv_comm) <- send_recv (bl_kv_comm st) k None ;;
    v <- need TypeError (bl_v st) ;;
    '(next_v, kv_comm) <- send_recv kv_comm v None ;;
    commit kv_comm ;;;
    ret (set_kv st (bl_k st) (bl_v st) (Some next_k) (Some next_v) kv_comm)
  else ret st.

(** Lines 115-161: the mode, the log-sum-exp slice and the kernel. *)
Definition bwd_compute (step : nat) (st : bwd_locals) : M bwd_locals :=
  let shift_causal := rank (bl_kv_comm st) <? step in
  let st := set_kernel st shift_causal None (bl_block_dq_buffer st)
                       (bl_block_dk_buffer st) (bl_block_dv_buffer st) in
  k <- need TypeError (bl_k st) ;;
  v <- need TypeError (bl_v st) ;;
  if negb shift_causal then
    '(rdq, rdk, rdv) <-
      call_bwd attn_type
               (mkBwdArgs dout q k v out softmax_lse
                          (bl_block_dq_buffer st) (bl_block_dk_buffer st)
                          (bl_block_dv_buffer st)
                          dropout_p softmax_scale causal window_size softcap
                          alibi_slopes deterministic None) ;;
    ret (set_kernel st shift_causal (bl_softmax_lse_1 st)
                    (write_view None (bl_block_dq_buffer st) rdq)
                    (write_view None (bl_block_dk_buffer st) rdk)
                    (write_view None (bl_block_dv_buffer st) rdv))
  else
    st <- match bl_softmax_lse_1 st with
          | None =>
              (* lazy init, since the last rank does not need softmax_lse_1 *)
              let s := rows_axis2 slice_from1 softmax_lse in
              tell (EvContiguousLse s) ;;;
              ret (set_kernel st shift_causal (Some s) (bl_block_dq_buffer st)
                              (bl_block_dk_buffer st) (bl_block_dv_buffer st))
          | Some _ => ret st
          end ;;
    softmax_lse_1 <- need TypeError (bl_softmax_lse_1 st) ;;
    '(rdq, rdk, rdv) <-
      call_bwd attn_type
               (mkBwdArgs (rows slice_from1 dout) (rows slice_from1 q)
                          (rows slice_to_m1 k) (rows slice_to_m1 v)
                          (rows slice_from1 out) softmax_lse_1
                          (rows slice_from1 (bl_block_dq_buffer st))
                          (rows slice_to_m1 (bl_block_dk_buffer st))
                          (rows slice_to_m1 (bl_block_dv_buffer st))
                          dropout_p softmax_scale causal window_size softcap
                          alibi_slopes deterministic None) ;;
    ret (set_kernel st shift_causal (bl_softmax_lse_1 st)
                    (write_view (Some slice_from1) (bl_block_dq_buffer st) rdq)
                    (write_view (Some slice_to_m1) (bl_block_dk_buffer st) rdk)
                    (write_view (Some slice_to_m1) (bl_block_dv_buffer st) rdv)).

(** Lines 163-182: the accumulation of dq and of the rotating dk, dv, on
    values; which tensors the variables name is followed in [Sharing]. *)
Definition bwd_accumulate (step : nat) (st : bwd_locals) : M bwd_locals :=
  match bl_dq st with
  | None =>
      ret (set_grads st
                     (Some (to float32 (bl_block_dq_buffer st)))
                     (Some (to float32 (bl_block_dk_buffer st)))
                     (Some (to float32 (bl_block_dv_buffer st)))
                     (bl_next_dk st) (bl_next_dv st)
                     (bl_dk_comm_buffer st) (bl_dv_comm_buffer st)
                     (bl_d_kv_comm st))
  | Some dq =>
      let dq := if negb (bl_shift_causal st)
                then iadd dq (bl_block_dq_buffer st)
                else iadd_rows slice_from1 dq (bl_block_dq_buffer st) in
      wait (bl_d_kv_comm st) ;;;
      let dk_comm_buffer := bl_dk st in
      let dv_comm_buffer := bl_dv st in
      if negb (bl_shift_causal st) then
        dk <- need TypeError (bl_next_dk st) ;;
        let dk := tadd (bl_block_dk_buffer st) dk in
        dv <- need TypeError (bl_next_dv st) ;;
        let dv := tadd (bl_block_dv_buffer st) dv in
        ret (set_grads st (Some dq) (Some dk) (Some dv)
                       (bl_next_dk st) (bl_next_dv st)
                       dk_comm_buffer dv_comm_buffer (bl_d_kv_comm st))
      else
        dk <- need TypeError (bl_next_dk st) ;;
        let dk := iadd_rows slice_to_m1 dk (bl_block_dk_buffer st) in
        dv <- need TypeError (bl_next_dv st) ;;
        let dv := iadd_rows slice_to_m1 dv (bl_block_dv_buffer st) in
        ret (set_grads st (Some dq) (Some dk) (Some dv)
                       (Some dk) (Some dv)
                       dk_comm_buffer dv_comm_buffer (bl_d_kv_comm st))
  end.

(** Lines 184-187. *)
Definition bwd_rotate (step : nat) (st : bwd_locals) : M bwd_locals :=
  if negb (step + 1 =? world_size (bl_kv_comm st)) then
    wait (bl_kv_comm st) ;;;
    ret (set_kv st (bl_next_k st) (bl_next_v st) (bl_next_k st) (bl_next_v st)
                (bl_kv_comm st))
  else ret st.

(** Lines 189-191: the gradient rotation. *)
Definition bwd_send_grads (step : nat) (st : bwd_locals) : M bwd_locals :=
  dk <- need TypeError (bl_dk st) ;;
  '(next_dk, d_kv_comm) <- send_recv (bl_d_kv_comm st) dk (bl_dk_comm_buffer st) ;;
  dv <- need TypeError (bl_dv st) ;;
  '(next_dv, d_kv_comm) <- send_recv d_kv_comm dv (bl_dv_comm_buffer st) ;;
  commit d_kv_comm ;;;
  ret (set_grads st (bl_dq st) (bl_dk st) (bl_dv st)
                 (Some next_dk) (Some next_dv)
                 (bl_dk_comm_buffer st) (bl_dv_comm_buffer st) d_kv_comm).

Definition bwd_body (step : nat) (st : bwd_locals) : M bwd_locals :=
  st <- bwd_fetch step st ;;
  st <- bwd_compute step st ;;
  st <- bwd_accumulate step st ;;
  st <- bwd_rotate step st ;;
  bwd_send_grads step st.

Definition bwd_init (process_group : option ProcessGroup) (k v : Tensor)
  : bwd_locals :=
  mkBwdLocals (Some k) (Some v) None None None None None None None None None
              (mkTensor (t_dtype q) (uninitialized q))
              (mkTensor (t_dtype k) (uninitialized k))
              (mkTensor (t_dtype v) (uninitialized v))
              false None
              (RingComm_new process_group 0) (RingComm_new process_group 1).

(** The loop of lines 109-191, cut after [n] iterations. *)
Definition bwd_loop (process_group : option ProcessGroup) (k v : Tensor) (n : nat)
  : M bwd_locals :=
  for_each bwd_body (seq 0 n) (bwd_init process_group k v).

End Backward.

Definition stripe_flash_attn_backward (process_group : option ProcessGroup)
           (dout q k v out : Tensor) (softmax_lse : AnyTensor)
           (softmax_scale dropout_p : PyFloat) (causal : bool)
           (window_size : Z * Z) (softcap : PyFloat)
           (alibi_slopes : option Tensor) (deterministic : bool)
           (attn_type : FlashAttentionImpl) : M (Tensor * Tensor * Tensor) :=
  py_assert causal (Some causal_msg_bwd) ;;;
  let kv_comm := RingComm_new process_group 0 in
  st <- bwd_loop dout q out softmax_lse softmax_scale dropout_p causal window_size
                 softcap alibi_slopes deterministic attn_type
                 process_group k v (world_size kv_comm) ;;
  wait (bl_d_kv_comm st) ;;;
  dq <- need AttributeError (bl_dq st) ;;
  next_dk <- need AttributeError (bl_next_dk st) ;;
  next_dv <- need AttributeError (bl_next_dv st) ;;
  ret (to (t_dtype q) dq, to (t_dtype q) next_dk, to (t_dtype q) next_dv).

(** ** StripeFlashAttnFunc *)

Definition get_ctx : M Ctx := fun w => (inr (w_ctx w), w).

(** [t.contiguous()] *)
Definition contiguous (t : Tensor) : M Tensor := tell (EvContiguous t) ;;; ret t.

Definition is_none {A : Type} (o : option A) : bool :=
  match o with None => true | Some _ => false end.

(** [out] alone, or [(out, softmax_lse, None)]. *)
Inductive fwd_result : Type :=
| OutOnly (out : Tensor)
| OutLse (out : Tensor) (softmax_lse : AnyTensor).

(** [n ** (-0.5)] on a Python int: 0 cannot be raised to a negative
    power. *)
Definition py_pow_neg_half (n : nat) : M PyFloat :=
  if n =? 0 then raise ZeroDivisionError else ret (pow_neg_half n).

Definition StripeFlashAttnFunc_forward (q k v : Tensor) (dropout_p : PyFloat)
           (softmax_scale : option PyFloat) (causal : bool)
           (window_size : Z * Z) (softcap : PyFloat)
           (alibi_slopes : option Tensor) (deterministic return_softmax : bool)
           (group : option ProcessGroup) (attn_type : FlashAttentionImpl)
  : M fwd_result :=
  softmax_scale <- match softmax_scale with
                   | None => py_pow_neg_half (shape_last q)
                   | Some s => ret s
                   end ;;
  py_assert (is_none alibi_slopes) None ;;;
  k <- contiguous k ;;
  v <- contiguous v ;;
  '(out, softmax_lse) <-
    stripe_flash_attn_forward group q k v softmax_scale dropout_p causal
                              window_size softcap alibi_slopes false attn_type ;;
  (* this should be out_padded *)
  set_ctx (mkCtx (Some (q, k, v, out, softmax_lse)) (Some dropout_p)
                 (Some softmax_scale) (Some causal) (Some window_size)
                 (Some softcap) (Some alibi_slopes) (Some deterministic)
                 (Some group) (Some attn_type)) ;;;
  ret (if negb return_softmax then OutOnly out else OutLse out softmax_lse).

(** The three gradients; the ten trailing [None] of the returned tuple
    are left out. *)
Definition StripeFlashAttnFunc_backward (dout : Tensor)
  : M (Tensor * Tensor * Tensor) :=
  ctx <- get_ctx ;;
  '(q, k, v, out, softmax_lse) <- need AttributeError (ctx_saved ctx) ;;
  group <- need AttributeError (ctx_group ctx) ;;
  softmax_scale <- need AttributeError (ctx_softmax_scale ctx) ;;
  dropout_p <- need AttributeError (ctx_dropout_p ctx) ;;
  causal <- need AttributeError (ctx_causal ctx) ;;
  window_size <- need AttributeError (ctx_window_size ctx) ;;
  softcap <- need AttributeError (ctx_softcap ctx) ;;
  alibi_slopes <- need AttributeError (ctx_alibi_slopes ctx) ;;
  deterministic <- need AttributeError (ctx_deterministic ctx) ;;
  attn_type <- need AttributeError (ctx_attn_type ctx) ;;
  stripe_flash_attn_backward group dout q k v out softmax_lse softmax_scale
                             dropout_p causal window_size softcap alibi_slopes
                             deterministic attn_type.

(** ** The public entry points *)

(** The keyword arguments of an entry point; [None] is an argument the
    caller did not pass. *)
Record kwargs : Type := mkKwargs {
  kw_dropout_p : option PyFloat;
  kw_softmax_scale : option (option PyFloat);
  kw_causal : option bool;
  kw_window_size : option (Z * Z);
  kw_softcap : option PyFloat;
  kw_alibi_slopes : option (option Tensor);
  kw_deterministic : option bool;
  kw_return_attn_probs : option bool;
  kw_group : option (option ProcessGroup);
  kw_attn_type : option FlashAttentionImpl }.

Definition no_kwargs : kwargs :=
  mkKwargs None None None None None None None None None None.

Definition default {A : Type} (d : A) (o : option A) : A :=
  match o with Some a => a | None => d end.

(** The call of [StripeFlashAttnFunc.apply] shared by the three entry
    points, with their common defaults. *)
Definition apply_with_defaults (q k v : Tensor) (kw : kwargs) : M fwd_result :=
  StripeFlashAttnFunc_forward q k v
    (default float_zero (kw_dropout_p kw))
    (default None (kw_softmax_scale kw))
    (default false (kw_causal kw))
    (default ((-1)%Z, (-1)%Z) (kw_window_size kw))
    (default float_zero (kw_softcap kw))
    (default None (kw_alibi_slopes kw))
    (default false (kw_deterministic kw))
    (default false (kw_return_attn_probs kw))
    (default None (kw_group kw))
    (default FA (kw_attn_type kw)).

Definition stripe_flash_attn_func (q k v : Tensor) (kw : kwargs) : M fwd_result :=
  apply_with_defaults q k v kw.

(** A packed tensor (batch, seq, 3, heads, head_dim) or
    (batch, seq, 2, heads, head_dim). *)
Record PackedQKV : Type :=
  mkPackedQKV { qkv_dtype : dtype; qkv_data : list (list (T2 * T2 * T2)) }.
Record PackedKV : Type :=
  mkPackedKV { kv_dtype : dtype; kv_data : list (list (T2 * T2)) }.

Definition stripe_flash_attn_qkvpacked_func (qkv : PackedQKV) (kw : kwargs)
  : M fwd_result :=
  apply_with_defaults
    (mkTensor (qkv_dtype qkv) (map (map (fun x => fst (fst x))) (qkv_data qkv)))
    (mkTensor (qkv_dtype qkv) (map (map (fun x => snd (fst x))) (qkv_data qkv)))
    (mkTensor (qkv_dtype qkv) (map (map (fun x => snd x)) (qkv_data qkv)))
    kw.

Definition stripe_flash_attn_kvpacked_func (q : Tensor) (kv : PackedKV) (kw : kwargs)
  : M fwd_result :=
  apply_with_defaults q
    (mkTensor (kv_dtype kv) (map (map fst) (kv_data kv)))
    (mkTensor (kv_dtype kv) (map (map snd) (kv_data kv)))
    kw.

(** ** What a run looks like, step by step *)

Definition group_of (process_group : option ProcessGroup) : ProcessGroup :=
  match process_group with Some g => g | None => WORLD end.

(** The K (offset 0) or V (offset 1) shard a rank works on at step [s]:
    its own at step 0, afterwards the one received during step [s-1]. *)
Definition shard_at (g : ProcessGroup) (t : Tensor) (off s : nat) : Tensor :=
  match s with
  | 0 => t
  | S m => mkTensor (t_dtype t) (pg_deliver g 0 (2 * m + off))
  end.

Lemma shard_at_dtype (g : ProcessGroup) (t : Tensor) (off s : nat) :
  t_dtype (shard_at g t off s) = t_dtype t.
Proof. destruct s; reflexivity. Qed.

Definition kernel_calls_fwd (evs : list event) : list fwd_args :=
  flat_map (fun e => match e with EvFwdKernel _ _ a => [a] | _ => [] end) evs.

Definition kernel_calls_bwd (evs : list event) : list bwd_args :=
  flat_map (fun e => match e with EvBwdKernel _ _ a => [a] | _ => [] end) evs.

(** The log-sum-exp slices made contiguous, in order. *)
Definition lse_slices (evs : list event) : list AnyTensor :=
  flat_map (fun e => match e with EvContiguousLse t => [t] | _ => [] end) evs.

(** The events of channel [c]. *)
Definition on_channel (c : nat) (e : event) : bool :=
  match e with
  | EvSendRecv c' _ _ | EvCommit c' | EvWait c' => c' =? c
  | _ => false
  end.

Definition is_kernel (e : event) : bool :=
  match e with
  | EvFwdKernel _ _ _ | EvBwdKernel _ _ _ => true
  | _ => false
  end.

(** Row 0 of every batch entry. *)
Definition row0 (t : Tensor) : T4 := map (firstn 1) (t_data t).

(** ** Slices as list operations *)

Lemma getslice_from1 {A : Type} (l : list A) : getslice slice_from1 l = skipn 1 l.
Proof.
  unfold getslice, slice_lo, slice_hi, norm_index; cbn [sl_start sl_stop slice_from1].
  change (1 <? 0)%Z with false; cbv iota. change (Z.to_nat 1) with 1.
  destruct l as [|a l]; [reflexivity|].
  cbn [length]. replace (Nat.min (S (length l)) 1) with 1 by lia.
  replace (S (length l) - 1) with (length l) by lia. apply firstn_all.
Qed.

Lemma getslice_to_m1 {A : Type} (l : list A) : getslice slice_to_m1 l = removelast l.
Proof.
  unfold getslice, slice_lo, slice_hi, norm_index; cbn [sl_start sl_stop slice_to_m1].
  change (-1 <? 0)%Z with true; cbv iota. cbn [skipn]. rewrite Nat.sub_0_r.
  replace (Z.to_nat (Z.max 0 (Z.of_nat (length l) + -1))) with (pred (length l)) by lia.
  symmetry. apply removelast_firstn_len.
Qed.

Lemma getslice_all {A : Type} (l : list A) : getslice slice_all l = l.
Proof.
  unfold getslice, slice_lo, slice_hi; cbn [sl_start sl_stop slice_all skipn].
  rewrite Nat.sub_0_r. apply firstn_all.
Qed.

Lemma zip_into_length {A B : Type} (f : A -> B -> A) (l : list A) (m : list B) :
  length (zip_into f l m) = length l.
Proof.
  revert m; induction l as [|a l IH]; intros [|b m]; cbn; try reflexivity.
  now rewrite IH.
Qed.

Lemma updslice_from1 {A B : Type} (f : A -> B -> A) (l : list A) (new : list B) :
  updslice f slice_from1 l new = firstn 1 l ++ zip_into f (skipn 1 l) new.
Proof.
  unfold updslice. rewrite getslice_from1.
  unfold slice_lo, slice_hi, norm_index; cbn [sl_start sl_stop slice_from1].
  change (1 <? 0)%Z with false; cbv iota. change (Z.to_nat 1) with 1.
  destruct l as [|a l]; cbn [length].
  - cbn. reflexivity.
  - replace (Nat.min (S (length l)) 1) with 1 by lia.
    replace (Nat.max 1 (S (length l))) with (length (a :: l)) by (cbn [length]; lia).
    rewrite skipn_all. now rewrite app_nil_r.
Qed.

Lemma updslice_to_m1 {A B : Type} (f : A -> B -> A) (l : list A) (new : list B) :
  updslice f slice_to_m1 l new
  = zip_into f (removelast l) new ++ skipn (pred (length l)) l.
Proof.
  unfold updslice. rewrite getslice_to_m1.
  unfold slice_lo, slice_hi, norm_index; cbn [sl_start sl_stop slice_to_m1].
  change (-1 <? 0)%Z with true; cbv iota. cbn [firstn app Nat.max].
  replace (Z.to_nat (Z.max 0 (Z.of_nat (length l) + -1))) with (pred (length l)) by lia.
  reflexivity.
Qed.

Lemma updslice_all {A B : Type} (f : A -> B -> A) (l : list A) (new : list B) :
  updslice f slice_all l new = zip_into f l new.
Proof.
  unfold updslice. rewrite getslice_all.
  unfold slice_lo, slice_hi; cbn [sl_start sl_stop slice_all firstn app Nat.max].
  rewrite skipn_all. apply app_nil_r.
Qed.

Lemma rows_from1_data (t : Tensor) :
  t_data (rows slice_from1 t) = map (skipn 1) (t_data t).
Proof. cbn. apply map_ext; intros; apply getslice_from1. Qed.

Lemma rows_to_m1_data (t : Tensor) :
  t_data (rows slice_to_m1 t) = map (@removelast _) (t_data t).
Proof. cbn. apply map_ext; intros; apply getslice_to_m1. Qed.

Lemma emit_nil (w : world) : emit [] w = w.
Proof. destruct w; unfold emit; cbn; now rewrite app_nil_r. Qed.

Lemma emit_emit (a b : list event) (w : world) :
  emit b (emit a w) = emit (a ++ b) w.
Proof. unfold emit; cbn; now rewrite app_assoc. Qed.

Lemma py_assert_true (c : bool) (msg : option string) (w : world) :
  c = true -> py_assert c msg w = (inr tt, w).
Proof. intros ->; reflexivity. Qed.

Lemma py_assert_false (c : bool) (msg : option string) (w : world) :
  c = false -> py_assert c msg w = (inl (AssertionError msg), w).
Proof. intros ->; reflexivity. Qed.

Lemma for_each_app {St : Type} (body : nat -> St -> M St) (l1 l2 : list nat)
      (st : St) (w : world) :
  for_each body (l1 ++ l2) st w =
  bind (for_each body l1 st) (for_each body l2) w.
Proof.
  revert st w; induction l1 as [|x l1 IH]; intros st w; cbn [for_each app].
  - reflexivity.
  - unfold bind in *. destruct (body x st w) as [[e|st'] w']; [reflexivity|].
    apply IH.
Qed.

Lemma for_each_snoc {St : Type} (body : nat -> St -> M St) (n : nat)
      (st : St) (w : world) :
  for_each body (seq 0 (S n)) st w =
  bind (for_each body (seq 0 n) st) (body n) w.
Proof.
  rewrite seq_S, for_each_app. cbn [Nat.add for_each].
  unfold bind, ret. destruct (for_each _ _ _ w) as [[e|st1] w1]; [reflexivity|].
  destruct (body n st1 w1) as [[e|st'] w2]; reflexivity.
Qed.

(** ** The running log-sum-exp keeps a last axis of size one *)















Section ForwardRun.

Variables (process_group : option ProcessGroup) (q k v : Tensor)
          (softmax_scale dropout_p : PyFloat) (causal : bool)
          (window_size : Z * Z) (softcap : PyFloat)
          (alibi_slopes : option Tensor) (attn_type : FlashAttentionImpl).

Let g := group_of process_group.
Let P := pg_world_size g.
Let r := pg_rank g.

(** The arguments of the kernel call of step [s]. *)
Definition fwd_call (s : nat) : fwd_args :=
  if s <=? r
  then mkFwdArgs q (shard_at g k 0 s) (shard_at g v 1 s)
                 dropout_p softmax_scale causal window_size softcap
                 alibi_slopes (true && gt_zero dropout_p)
  else mkFwdArgs (rows slice_from1 q) (rows slice_to_m1 (shard_at g k 0 s))
                 (rows slice_to_m1 (shard_at g v 1 s))
                 dropout_p softmax_scale causal window_size softcap
                 alibi_slopes (true && gt_zero dropout_p).

(** The slice handed to the merge of step [s]. *)
Definition fwd_slice (s : nat) : option (slice * slice) :=
  if s <=? r then None else Some (slice_all, slice_from1).

(** The running (out, lse) after [n] steps. *)
Fixpoint fwd_acc (n : nat) : option Tensor * option Tensor :=
  match n with
  | 0 => (None, None)
  | S s =>
      let blk := k_fwd (select_flash_attn_impl attn_type fwd_only) (fwd_call s) in
      let res := update_out_and_lse (fst (fwd_acc s)) (snd (fwd_acc s))
                                    (fst blk) (snd blk) (fwd_slice s) in
      (Some (fst res), Some (snd res))
  end.

(** The events of step [s]. *)
Definition fwd_events (s : nat) : list event :=
  (if s + 1 =? P then []
   else [EvSendRecv 0 (shard_at g k 0 s) None;
         EvSendRecv 0 (shard_at g v 1 s) None;
         EvCommit 0])
  ++ [EvFwdKernel attn_type fwd_only (fwd_call s)]
  ++ (if s + 1 =? P then [] else [EvWait 0]).

(** What the loop has established when it enters step [n]. *)
Definition fwd_inv (n : nat) (st : fwd_locals) : Prop :=
  fl_k st = Some (shard_at g k 0 n) /\
  fl_v st = Some (shard_at g v 1 n) /\
  fl_out st = fst (fwd_acc n) /\
  fl_lse st = snd (fwd_acc n) /\
  fl_comm st = mkRingComm g 0 r P (2 * n).

Lemma fwd_body_step (s : nat) (st : fwd_locals) (w : world) :
  fwd_inv s st ->
  exists st',
    fwd_body q softmax_scale dropout_p causal window_size softcap alibi_slopes
             attn_type s st w = (inr st', emit (fwd_events s) w) /\
    fl_out st' = fst (fwd_acc (S s)) /\
    fl_lse st' = snd (fwd_acc (S s)) /\
    (s + 1 <> P -> fwd_inv (S s) st').
Proof.
  intros (Hk & Hv & Ho & Hl & Hc).
  destruct st as [sk sv so sl snk snv sc];
    cbn [fl_k fl_v fl_out fl_lse fl_comm] in Hk, Hv, Ho, Hl, Hc; subst.
  unfold fwd_body, fwd_fetch, fwd_compute, fwd_rotate, fwd_events, fwd_inv.
  cbn [fl_k fl_v fl_out fl_lse fl_next_k fl_next_v fl_comm world_size rank
       fwd_acc].
  fold g P r. unfold fwd_call, fwd_slice.
  destruct (s + 1 =? P) eqn:HP; destruct (s <=? r) eqn:Hr; cbn [negb];
    unfold bind, ret, need, call_fwd, send_recv, commit, wait, tell, bind, ret;
    cbn [fl_k fl_v fl_out fl_lse fl_next_k fl_next_v fl_comm world_size rank
         rc_group rc_label rc_issued fst snd];
    rewrite Hr;
    match goal with
    | |- context [k_fwd ?f ?a] => destruct (k_fwd f a) as [bo bl]
    end;
    cbn [fst snd];
    match goal with
    | |- context [update_out_and_lse ?a ?b ?c ?d ?e] =>
        destruct (update_out_and_lse a b c d e) as [o l]
    end;
    cbn [fl_k fl_v fl_out fl_lse fl_next_k fl_next_v fl_comm world_size rank
         rc_group rc_label rc_issued fst snd];
    rewrite ?HP; cbn [negb];
    rewrite ?emit_emit; cbn [app fst snd];
    eexists; (split; [reflexivity|]);
    cbn [fl_k fl_v fl_out fl_lse fl_next_k fl_next_v fl_comm];
    (split; [reflexivity|]); (split; [reflexivity|]); intros HP';
    try (apply Nat.eqb_eq in HP; contradiction);
    (repeat split; try reflexivity);
    rewrite ?shard_at_dtype; cbn [shard_at];
    repeat (f_equal; try lia).
Qed.

Definition fwd_trace (n : nat) : list event := flat_map fwd_events (seq 0 n).

Lemma fwd_trace_S (n : nat) : fwd_trace (S n) = fwd_trace n ++ fwd_events n.
Proof.
  unfold fwd_trace. rewrite seq_S, flat_map_app. cbn. now rewrite app_nil_r.
Qed.

Local Abbreviation the_fwd_loop :=
  (fwd_loop q softmax_scale dropout_p causal window_size softcap alibi_slopes
            attn_type process_group k v).

(** Entering step [n], the loop has run without error and left the
    events of the steps before. *)
Lemma fwd_loop_prefix (n : nat) (w : world) :
  n < P ->
  exists st, the_fwd_loop n w = (inr st, emit (fwd_trace n) w) /\ fwd_inv n st.
Proof.
  induction n as [|n IH]; intros Hn.
  - eexists; split.
    + unfold fwd_loop; cbn [seq for_each]. unfold ret, fwd_trace; cbn.
      now rewrite emit_nil.
    + unfold fwd_inv, fwd_init, RingComm_new; cbn. repeat split.
  - destruct IH as (st & Hrun & Hinv); [lia|].
    destruct (fwd_body_step n st (emit (fwd_trace n) w) Hinv)
      as (st' & Hstep & _ & _ & Hinv').
    exists st'; split; [|apply Hinv'; lia].
    unfold fwd_loop in *. rewrite for_each_snoc. unfold bind. rewrite Hrun.
    rewrite Hstep, emit_emit, fwd_trace_S. reflexivity.
Qed.

(** After [n] steps, the loop holds the running pair [fwd_acc n]. *)
Lemma fwd_loop_run (n : nat) (w : world) :
  n < P ->
  exists st, the_fwd_loop (S n) w = (inr st, emit (fwd_trace (S n)) w) /\
             fl_out st = fst (fwd_acc (S n)) /\
             fl_lse st = snd (fwd_acc (S n)).
Proof.
  intros Hn. destruct (fwd_loop_prefix n w Hn) as (st & Hrun & Hinv).
  destruct (fwd_body_step n st (emit (fwd_trace n) w) Hinv)
    as (st' & Hstep & Ho & Hl & _).
  exists st'; repeat split; trivial.
  unfold fwd_loop in *. rewrite for_each_snoc. unfold bind. rewrite Hrun.
  rewrite Hstep, emit_emit, fwd_trace_S. reflexivity.
Qed.

Lemma kernel_calls_fwd_events (s : nat) :
  kernel_calls_fwd (fwd_events s) = [fwd_call s].
Proof. unfold fwd_events. destruct (s + 1 =? P); reflexivity. Qed.

Lemma kernel_calls_fwd_trace (n : nat) :
  kernel_calls_fwd (fwd_trace n) = map fwd_call (seq 0 n).
Proof.
  induction n as [|n IH]; [reflexivity|].
  rewrite fwd_trace_S, seq_S, map_app. unfold kernel_calls_fwd in *.
  rewrite flat_map_app, IH. f_equal. apply kernel_calls_fwd_events.
Qed.

Lemma fwd_acc_step (s : nat) :
  fwd_acc (S s) =
  let blk := k_fwd (select_flash_attn_impl attn_type fwd_only) (fwd_call s) in
  let res := update_out_and_lse (fst (fwd_acc s)) (snd (fwd_acc s))
                                (fst blk) (snd blk) (fwd_slice s) in
  (Some (fst res), Some (snd res)).
Proof. reflexivity. Qed.

Lemma fwd_acc_S (n : nat) :
  exists o l, fwd_acc (S n) = (Some o, Some l).
Proof. cbn [fwd_acc]. eauto. Qed.

(** The whole forward call: it succeeds on a ring of at least one rank
    when [causal] holds, leaves the events of the [P] steps, and returns
    the running pair after finalization. *)
Lemma stripe_flash_attn_forward_run (deterministic : bool) (w : world) :
  causal = true -> 0 < P ->
  exists o l,
    fwd_acc P = (Some o, Some l) /\
    stripe_flash_attn_forward process_group q k v softmax_scale dropout_p causal
                              window_size softcap alibi_slopes deterministic
                              attn_type w
    = (inr (to (t_dtype q) o, squeeze_transpose l), emit (fwd_trace P) w).
Proof.
  intros Hc HP.
  destruct (fwd_loop_run (P - 1) w) as (st & Hrun & Ho & Hl); [lia|].
  destruct (fwd_acc_S (P - 1)) as (o & l & Hacc).
  replace (S (P - 1)) with P in * by lia.
  exists o, l. split; [exact Hacc|].
  unfold stripe_flash_attn_forward.
  unfold bind at 1. rewrite (py_assert_true _ _ w Hc).
  unfold RingComm_new; cbn [world_size]. fold (group_of process_group).
  fold g. fold P. unfold bind at 1. rewrite Hrun.
  rewrite Hacc in Ho, Hl; cbn [fst snd] in Ho, Hl.
  unfold bind, need, ret. rewrite Ho, Hl. reflexivity.
Qed.

Lemma nth_error_map_seq {A : Type} (f : nat -> A) (n s : nat) :
  s < n -> nth_error (map f (seq 0 n)) s = Some (f s).
Proof.
  intros Hs. rewrite nth_error_map.
  rewrite (nth_error_nth' _ 0) by (rewrite length_seq; exact Hs).
  rewrite seq_nth by exact Hs. reflexivity.
Qed.

Lemma row0_setslice2_from1 (t new : Tensor) :
  row0 (setslice2 (slice_all, slice_from1) t new) = row0 t.
Proof.
  unfold row0, setslice2; cbn [t_data fst snd]. rewrite updslice_all.
  generalize (t_data new) as m. induction (t_data t) as [|b d IH]; intros [|n m];
    cbn [zip_into map]; try reflexivity.
  rewrite IH. f_equal. unfold setslice. rewrite updslice_from1.
  destruct b; reflexivity.
Qed.

(** C1: when [causal] holds, the forward call runs its [P] steps, one
    kernel call per step, each with causal masking on.  At step [s] of
    rank [r] the kernel gets the whole local Q against the whole current
    K and V when [s <= r], and gets rows [1, end) of Q against rows
    [0, end-1) of the current K and V when [s > r]. *)
Theorem C1_forward_full_iff_step_le_rank (deterministic : bool) (w : world) :
  causal = true -> 0 < P ->
  exists res evs,
    stripe_flash_attn_forward process_group q k v softmax_scale dropout_p causal
                              window_size softcap alibi_slopes deterministic
                              attn_type w = (inr res, emit evs w) /\
    length (kernel_calls_fwd evs) = P /\
    forall s, s < P ->
      exists a,
        nth_error (kernel_calls_fwd evs) s = Some a /\
        fa_causal a = true /\
        (s <= r ->
           fa_q a = q /\ fa_k a = shard_at g k 0 s /\ fa_v a = shard_at g v 1 s) /\
        (r < s ->
           fa_q a = rows slice_from1 q /\
           t_data (fa_q a) = map (skipn 1) (t_data q) /\
           fa_k a = rows slice_to_m1 (shard_at g k 0 s) /\
           t_data (fa_k a) = map (@removelast _) (t_data (shard_at g k 0 s)) /\
           fa_v a = rows slice_to_m1 (shard_at g v 1 s) /\
           t_data (fa_v a) = map (@removelast _) (t_data (shard_at g v 1 s))).
Proof.
  intros Hc HP.
  destruct (stripe_flash_attn_forward_run deterministic w Hc HP)
    as (o & l & _ & Hrun).
  eexists; exists (fwd_trace P); split; [exact Hrun|].
  rewrite kernel_calls_fwd_trace. split; [now rewrite length_map, length_seq|].
  intros s Hs. exists (fwd_call s). split; [now apply nth_error_map_seq|].
  unfold fwd_call. destruct (s <=? r) eqn:Hr; cbn [fa_causal fa_q fa_k fa_v].
  - apply Nat.leb_le in Hr. repeat split; trivial; intros; lia.
  - apply Nat.leb_gt in Hr. split; [exact Hc|]. split; [intros; lia|]. intros _.
    rewrite <- !rows_from1_data, <- !rows_to_m1_data. repeat split.
Qed.


Lemma fwd_events_shape (s : nat) :
  fwd_events s =
  (if s + 1 =? P then []
   else [EvSendRecv 0 (shard_at g k 0 s) None;
         EvSendRecv 0 (shard_at g v 1 s) None; EvCommit 0])
  ++ [EvFwdKernel attn_type fwd_only (fwd_call s)]
  ++ (if s + 1 =? P then [] else [EvWait 0]) ++ [].
Proof. unfold fwd_events. now rewrite app_nil_r. Qed.

(** C2: a forward step in Shifted mode ([r < s]) finds a running output
    and a running log-sum-exp, leaves row 0 of both as it found it, and
    assigns the merge of their rows [1, end) with the block of the step to
    rows [1, end). *)
Theorem C2_shifted_merge_leaves_row0 (s : nat) (w : world) :
  r < s -> s < P ->
  exists st st' w1 w2 o l o' l',
    the_fwd_loop s w = (inr st, w1) /\
    the_fwd_loop (S s) w = (inr st', w2) /\
    fl_out st = Some o /\ fl_lse st = Some l /\
    fl_out st' = Some o' /\ fl_lse st' = Some l' /\
    row0 o' = row0 o /\ row0 l' = row0 l /\
    let sl := (slice_all, slice_from1) in
    let blk := k_fwd (select_flash_attn_impl attn_type fwd_only) (fwd_call s) in
    let m := merge_blocks (getslice2 sl o) (getslice2 sl l)
                          (fst blk) (lse_to_running (snd blk)) in
    o' = setslice2 sl o (fst m) /\ l' = setslice2 sl l (snd m).
Proof.
  intros Hr Hs.
  destruct (fwd_loop_prefix s w Hs) as (st & Hrun & Hinv).
  destruct (fwd_loop_run s w Hs) as (st' & Hrun' & Ho' & Hl').
  destruct Hinv as (_ & _ & Ho & Hl & _).
  destruct s as [|m]; [lia|].
  destruct (fwd_acc_S m) as (o & l & Hacc).
  rewrite Hacc in Ho, Hl; cbn [fst snd] in Ho, Hl.
  rewrite fwd_acc_step in Ho', Hl'. rewrite Hacc in Ho', Hl'.
  cbn [fst snd] in Ho', Hl'.
  unfold fwd_slice in Ho', Hl'.
  apply Nat.leb_gt in Hr. rewrite Hr in Ho', Hl'.
  unfold update_out_and_lse in Ho', Hl'.
  destruct (merge_blocks _ _ _ _) as [mo ml] eqn:Hm.
  cbn [fst snd] in Ho', Hl'.
  exists st, st'. do 2 eexists. exists o, l. do 2 eexists.
  repeat (split; [eassumption|]).
  split; [apply row0_setslice2_from1|].
  split; [apply row0_setslice2_from1|].
  cbv zeta. rewrite Hm. split; reflexivity.
Qed.

End ForwardRun.

(** [Some (f m)] once [m + 1] steps are done, [None] before. *)
Definition after {A : Type} (n : nat) (f : nat -> A) : option A :=
  match n with 0 => None | S m => Some (f m) end.

Lemma after_pos {A : Type} (n : nat) (f : nat -> A) :
  0 < n -> after n f = Some (f (n - 1)).
Proof. destruct n; [lia|]. cbn. now rewrite Nat.sub_0_r. Qed.

Section BackwardRun.

Variables (process_group : option ProcessGroup) (dout q k v out : Tensor)
          (softmax_lse : AnyTensor)
          (softmax_scale dropout_p : PyFloat) (causal : bool)
          (window_size : Z * Z) (softcap : PyFloat)
          (alibi_slopes : option Tensor) (deterministic : bool)
          (attn_type : FlashAttentionImpl).

Let g := group_of process_group.
Let P := pg_world_size g.
Let r := pg_rank g.

(** The arguments of the kernel call of step [s], given the three
    per-step buffers as the step finds them. *)
Definition bwd_call_with (s : nat) (bq bk bv : Tensor) : bwd_args :=
  if r <? s
  then mkBwdArgs (rows slice_from1 dout) (rows slice_from1 q)
                 (rows slice_to_m1 (shard_at g k 0 s))
                 (rows slice_to_m1 (shard_at g v 1 s))
                 (rows slice_from1 out) (rows_axis2 slice_from1 softmax_lse)
                 (rows slice_from1 bq) (rows slice_to_m1 bk) (rows slice_to_m1 bv)
                 dropout_p softmax_scale causal window_size softcap
                 alibi_slopes deterministic None
  else mkBwdArgs dout q (shard_at g k 0 s) (shard_at g v 1 s) out softmax_lse
                 bq bk bv
                 dropout_p softmax_scale causal window_size softcap
                 alibi_slopes deterministic None.

(** The views through which the kernel of step [s] writes dq and dk, dv. *)
Definition view_q (s : nat) : option slice :=
  if r <? s then Some slice_from1 else None.
Definition view_kv (s : nat) : option slice :=
  if r <? s then Some slice_to_m1 else None.

(** The three per-step buffers when step [n] begins. *)
Fixpoint bwd_bufs (n : nat) : Tensor * Tensor * Tensor :=
  match n with
  | 0 => (mkTensor (t_dtype q) (uninitialized q),
          mkTensor (t_dtype k) (uninitialized k),
          mkTensor (t_dtype v) (uninitialized v))
  | S s =>
      let '(bq, bk, bv) := bwd_bufs s in
      let '(rdq, rdk, rdv) :=
        k_bwd (select_flash_attn_impl attn_type bwd_only)
              (bwd_call_with s bq bk bv) in
      (write_view (view_q s) bq rdq,
       write_view (view_kv s) bk rdk,
       write_view (view_kv s) bv rdv)
  end.

Definition buf_q (n : nat) : Tensor := fst (fst (bwd_bufs n)).
Definition buf_k (n : nat) : Tensor := snd (fst (bwd_bufs n)).
Definition buf_v (n : nat) : Tensor := snd (bwd_bufs n).

Definition bwd_call (s : nat) : bwd_args :=
  bwd_call_with s (buf_q s) (buf_k s) (buf_v s).

(** The partial dk (offset 0) or dv (offset 1) found in the receive
    buffer of the gradient transfer issued at the end of step [s]. *)
Definition recv_grad (off s : nat) : Tensor :=
  mkTensor float32 (pg_deliver g 1 (2 * s + off)).

(** dq after step [s]. *)
Fixpoint bwd_dq (s : nat) : Tensor :=
  match s with
  | 0 => to float32 (buf_q 1)
  | S m =>
      if r <? S m
      then iadd_rows slice_from1 (bwd_dq m) (buf_q (S (S m)))
      else iadd (bwd_dq m) (buf_q (S (S m)))
  end.

(** dk or dv after step [s], from the per-step buffer [buf]. *)
Definition bwd_grad (buf : nat -> Tensor) (off s : nat) : Tensor :=
  match s with
  | 0 => to float32 (buf 1)
  | S m =>
      if r <? S m
      then iadd_rows slice_to_m1 (recv_grad off m) (buf (S (S m)))
      else tadd (buf (S (S m))) (recv_grad off m)
  end.

Definition bwd_dk : nat -> Tensor := bwd_grad buf_k 0.
Definition bwd_dv : nat -> Tensor := bwd_grad buf_v 1.

(** The events of step [s]. *)
Definition bwd_events (s : nat) : list event :=
  (if s + 1 =? P then []
   else [EvSendRecv 0 (shard_at g k 0 s) None;
         EvSendRecv 0 (shard_at g v 1 s) None;
         EvCommit 0])
  ++ (if r <? s then [EvContiguousLse (rows_axis2 slice_from1 softmax_lse)] else [])
  ++ [EvBwdKernel attn_type bwd_only (bwd_call s)]
  ++ (match s with 0 => [] | S _ => [EvWait 1] end)
  ++ (if s + 1 =? P then [] else [EvWait 0])
  ++ [EvSendRecv 1 (bwd_dk s) (after s bwd_dk);
      EvSendRecv 1 (bwd_dv s) (after s bwd_dv);
      EvCommit 1].

(** The variable [softmax_lse_1] when step [n] begins: what the step
    before left in it. *)
Definition lse_1_at (n : nat) : option AnyTensor :=
  match n with
  | 0 => None
  | S m => if r <? m then Some (rows_axis2 slice_from1 softmax_lse) else None
  end.

(** What the loop has established about the gradients when it enters
    step [n]. *)
Definition bwd_inv_grads (n : nat) (st : bwd_locals) : Prop :=
  bl_block_dq_buffer st = buf_q n /\
  bl_block_dk_buffer st = buf_k n /\
  bl_block_dv_buffer st = buf_v n /\
  bl_dq st = after n bwd_dq /\
  bl_dk st = after n bwd_dk /\
  bl_dv st = after n bwd_dv /\
  bl_next_dk st = after n (recv_grad 0) /\
  bl_next_dv st = after n (recv_grad 1) /\
  bl_dk_comm_buffer st = after (pred n) bwd_dk /\
  bl_dv_comm_buffer st = after (pred n) bwd_dv /\
  bl_softmax_lse_1 st = lse_1_at n /\
  bl_d_kv_comm st = mkRingComm g 1 r P (2 * n).

(** ... and about the K/V rotation. *)
Definition bwd_inv_kv (n : nat) (st : bwd_locals) : Prop :=
  bl_k st = Some (shard_at g k 0 n) /\
  bl_v st = Some (shard_at g v 1 n) /\
  bl_kv_comm st = mkRingComm g 0 r P (2 * n).

Lemma bwd_grad_dtype (buf : nat -> Tensor) (off s : nat) :
  t_dtype (bwd_grad buf off s) = float32.
Proof.
  destruct s as [|m]; cbn [bwd_grad]; [reflexivity|].
  destruct (r <? S m); cbn; [reflexivity|].
  destruct (t_dtype (buf (S (S m)))); reflexivity.
Qed.

(** What the kernel of step [s] writes. *)
Definition bwd_res (s : nat) : T4 * T4 * T4 :=
  k_bwd (select_flash_attn_impl attn_type bwd_only) (bwd_call s).

Lemma bwd_bufs_S (s : nat) :
  buf_q (S s) = write_view (view_q s) (buf_q s) (fst (fst (bwd_res s))) /\
  buf_k (S s) = write_view (view_kv s) (buf_k s) (snd (fst (bwd_res s))) /\
  buf_v (S s) = write_view (view_kv s) (buf_v s) (snd (bwd_res s)).
Proof.
  unfold bwd_res, bwd_call, buf_q, buf_k, buf_v. cbn [bwd_bufs].
  destruct (bwd_bufs s) as [[bq bk] bv]. cbn [fst snd].
  destruct (k_bwd _ _) as [[rdq rdk] rdv]. cbn [fst snd]. repeat split.
Qed.

Local Abbreviation the_bwd_body :=
  (bwd_body dout q out softmax_lse softmax_scale dropout_p causal window_size
            softcap alibi_slopes deterministic attn_type).

Lemma bwd_body_step (s : nat) (st : bwd_locals) (w : world) :
  bwd_inv_grads s st -> bwd_inv_kv s st ->
  exists st',
    the_bwd_body s st w = (inr st', emit (bwd_events s) w) /\
    bwd_inv_grads (S s) st' /\
    (s + 1 <> P -> bwd_inv_kv (S s) st').
Proof.
  intros (Hbq & Hbk & Hbv & Hdq & Hdk & Hdv & Hndk & Hndv & Hcb & Hcv & Hl1 & Hdc)
         (Hk & Hv & Hkc).
  destruct st as [sk sv sdq sdk sdv sndk sndv snk snv scb scv sbq sbk sbv ssh sl1
                     skc sdc].
  cbn [bl_k bl_v bl_dq bl_dk bl_dv bl_next_dk bl_next_dv bl_dk_comm_buffer
       bl_dv_comm_buffer bl_block_dq_buffer bl_block_dk_buffer
       bl_block_dv_buffer bl_kv_comm bl_d_kv_comm bl_softmax_lse_1] in *.
  subst.
  destruct (bwd_bufs_S s) as (Eq & Ek & Ev).
  unfold bwd_res, bwd_call, bwd_call_with in Eq, Ek, Ev.
  unfold bwd_inv_grads, bwd_inv_kv, bwd_events, bwd_call, bwd_call_with.
  unfold bwd_dk, bwd_dv in *.
  destruct (s + 1 =? P) eqn:HP; destruct (r <? s) eqn:Hr; destruct s as [|m];
    try (cbn in Hr; discriminate);
    unfold view_q, view_kv in Eq, Ek, Ev; rewrite Hr in Eq, Ek, Ev;
    unfold bwd_body, bwd_fetch, bwd_compute, bwd_accumulate, bwd_rotate,
           bwd_send_grads, need, call_bwd, send_recv, commit, wait,
           tell, bind, ret, set_kernel, set_kv, set_grads;
    repeat (cbn [bl_k bl_v bl_dq bl_dk bl_dv bl_next_dk bl_next_dv bl_next_k
                 bl_next_v bl_dk_comm_buffer
                 bl_dv_comm_buffer bl_block_dq_buffer bl_block_dk_buffer
                 bl_block_dv_buffer bl_kv_comm bl_d_kv_comm bl_shift_causal
                 bl_softmax_lse_1 world_size rank rc_group rc_label rc_issued
                 negb after pred fst snd];
            rewrite ?HP, ?Hr).
  all:  match goal with
    | |- context [k_bwd ?f ?a] =>
        destruct (k_bwd f a) as [[rdq rdk] rdv] eqn:Hres
    end;
    cbn [fst snd] in Eq, Ek, Ev.
  all: repeat (cbn [bl_k bl_v bl_dq bl_dk bl_dv bl_next_dk bl_next_dv bl_next_k
                 bl_next_v bl_dk_comm_buffer
                 bl_dv_comm_buffer bl_block_dq_buffer bl_block_dk_buffer
                 bl_block_dv_buffer bl_kv_comm bl_d_kv_comm bl_shift_causal
                 bl_softmax_lse_1 world_size rank rc_group rc_label rc_issued
                 negb after pred fst snd];
            rewrite ?HP, ?Hr).
  all: rewrite ?emit_emit; cbn [app].
  all: try rewrite Hres in Eq, Ek, Ev; cbn [fst snd] in Eq, Ek, Ev.
  all: cbn [bwd_grad bwd_dq]; rewrite ?Hr, ?Eq, ?Ek, ?Ev.
  all: eexists; (split; [reflexivity|]).
  all: cbn [bl_k bl_v bl_dq bl_dk bl_dv bl_next_dk bl_next_dv bl_next_k
                 bl_next_v bl_dk_comm_buffer
                 bl_dv_comm_buffer bl_block_dq_buffer bl_block_dk_buffer
                 bl_block_dv_buffer bl_kv_comm bl_d_kv_comm bl_softmax_lse_1
                 lse_1_at]; rewrite ?Hr.
  all: split; [|intros HP'; try (apply Nat.eqb_eq in HP; contradiction)].
  all: repeat split; try reflexivity.
  all: unfold recv_grad; rewrite ?bwd_grad_dtype, ?shard_at_dtype;
    cbn [t_dtype to shard_at]; repeat (f_equal; try lia).
Qed.

Definition bwd_trace (n : nat) : list event := flat_map bwd_events (seq 0 n).

Lemma bwd_trace_S (n : nat) : bwd_trace (S n) = bwd_trace n ++ bwd_events n.
Proof.
  unfold bwd_trace. rewrite seq_S, flat_map_app. cbn. now rewrite app_nil_r.
Qed.

Local Abbreviation the_bwd_loop :=
  (bwd_loop dout q out softmax_lse softmax_scale dropout_p causal window_size
            softcap alibi_slopes deterministic attn_type process_group k v).

(** Entering step [n], the loop has run without error and left the
    events of the steps before. *)
Lemma bwd_loop_prefix (n : nat) (w : world) :
  n < P ->
  exists st, the_bwd_loop n w = (inr st, emit (bwd_trace n) w) /\
             bwd_inv_grads n st /\ bwd_inv_kv n st.
Proof.
  induction n as [|n IH]; intros Hn.
  - eexists; split.
    + unfold bwd_loop; cbn [seq for_each]. unfold ret, bwd_trace; cbn.
      now rewrite emit_nil.
    + unfold bwd_inv_grads, bwd_inv_kv, bwd_init, RingComm_new; cbn.
      repeat split.
  - destruct IH as (st & Hrun & Hg & Hkv); [lia|].
    destruct (bwd_body_step n st (emit (bwd_trace n) w) Hg Hkv)
      as (st' & Hstep & Hg' & Hkv').
    exists st'; split; [|split; [exact Hg'|apply Hkv'; lia]].
    unfold bwd_loop in *. rewrite for_each_snoc. unfold bind. rewrite Hrun.
    rewrite Hstep, emit_emit, bwd_trace_S. reflexivity.
Qed.

(** After step [n] the loop holds the gradients described above. *)
Lemma bwd_loop_run (n : nat) (w : world) :
  n < P ->
  exists st, the_bwd_loop (S n) w = (inr st, emit (bwd_trace (S n)) w) /\
             bwd_inv_grads (S n) st.
Proof.
  intros Hn. destruct (bwd_loop_prefix n w Hn) as (st & Hrun & Hg & Hkv).
  destruct (bwd_body_step n st (emit (bwd_trace n) w) Hg Hkv)
    as (st' & Hstep & Hg' & _).
  exists st'; split; [|exact Hg'].
  unfold bwd_loop in *. rewrite for_each_snoc. unfold bind. rewrite Hrun.
  rewrite Hstep, emit_emit, bwd_trace_S. reflexivity.
Qed.

(** The whole backward call: it succeeds on a ring of at least one rank
    when [causal] holds, leaves the events of the [P] steps and of the
    final wait, and returns dq and the dk, dv received last, cast to the
    dtype of [q]. *)
Lemma stripe_flash_attn_backward_run (w : world) :
  causal = true -> 0 < P ->
  stripe_flash_attn_backward process_group dout q k v out softmax_lse
                             softmax_scale dropout_p causal window_size softcap
                             alibi_slopes deterministic attn_type w
  = (inr (to (t_dtype q) (bwd_dq (P - 1)),
          to (t_dtype q) (recv_grad 0 (P - 1)),
          to (t_dtype q) (recv_grad 1 (P - 1))),
     emit (bwd_trace P ++ [EvWait 1]) w).
Proof.
  intros Hc HP.
  destruct (bwd_loop_run (P - 1) w) as (st & Hrun & Hg); [lia|].
  replace (S (P - 1)) with P in * by lia.
  destruct Hg as (_ & _ & _ & Hdq & _ & _ & Hndk & Hndv & _ & _ & _ & Hdc).
  unfold stripe_flash_attn_backward.
  unfold bind at 1. rewrite (py_assert_true _ _ w Hc).
  unfold RingComm_new; cbn [world_size]. fold (group_of process_group).
  fold g. fold P. unfold bind at 1. rewrite Hrun.
  unfold bind, need, ret, wait, tell. rewrite Hdq, Hndk, Hndv, Hdc.
  cbn [rc_label]. rewrite !(after_pos P _ HP), emit_emit. reflexivity.
Qed.

Lemma kernel_calls_bwd_events (s : nat) :
  kernel_calls_bwd (bwd_events s) = [bwd_call s].
Proof.
  unfold bwd_events.
  destruct (s + 1 =? P); destruct (r <? s); destruct s; reflexivity.
Qed.

Lemma kernel_calls_bwd_trace (n : nat) :
  kernel_calls_bwd (bwd_trace n) = map bwd_call (seq 0 n).
Proof.
  induction n as [|n IH]; [reflexivity|].
  rewrite bwd_trace_S, seq_S, map_app. unfold kernel_calls_bwd in *.
  rewrite flat_map_app, IH. f_equal. apply kernel_calls_bwd_events.
Qed.

Lemma lse_slices_events (s : nat) :
  lse_slices (bwd_events s) =
  if r <? s then [rows_axis2 slice_from1 softmax_lse] else [].
Proof.
  unfold bwd_events.
  destruct (s + 1 =? P); destruct (r <? s); destruct s; reflexivity.
Qed.


Lemma bwd_events_shape (s : nat) :
  exists compute rest,
    bwd_events s =
    (if s + 1 =? P then []
     else [EvSendRecv 0 (shard_at g k 0 s) None;
           EvSendRecv 0 (shard_at g v 1 s) None; EvCommit 0])
    ++ compute ++ (if s + 1 =? P then [] else [EvWait 0]) ++ rest /\
    filter (on_channel 0) compute = [] /\ filter (on_channel 0) rest = [] /\
    length (filter is_kernel compute) = 1 /\ filter is_kernel rest = [].
Proof.
  unfold bwd_events.
  exists ((if r <? s then [EvContiguousLse (rows_axis2 slice_from1 softmax_lse)] else [])
          ++ [EvBwdKernel attn_type bwd_only (bwd_call s)]
          ++ (match s with 0 => [] | S _ => [EvWait 1] end)).
  exists [EvSendRecv 1 (bwd_dk s) (after s bwd_dk);
          EvSendRecv 1 (bwd_dv s) (after s bwd_dv); EvCommit 1].
  split; [now rewrite <- !app_assoc|].
  destruct (r <? s); destruct s; repeat split.
Qed.

(** The first step initializes dk and dv from the buffers its kernel call
    has just filled, and sends them on. *)
Lemma bwd_first_step (w : world) :
  0 < P ->
  exists st pre,
    the_bwd_loop 1 w
    = (inr st, emit (pre ++ [EvSendRecv 1 (bwd_dk 0) None;
                             EvSendRecv 1 (bwd_dv 0) None; EvCommit 1]) w) /\
    kernel_calls_bwd pre = [bwd_call 0] /\
    filter (on_channel 1) pre = [] /\
    bl_block_dk_buffer st = mkTensor (t_dtype k) (snd (fst (bwd_res 0))) /\
    bl_block_dv_buffer st = mkTensor (t_dtype v) (snd (bwd_res 0)) /\
    bl_dk st = Some (bwd_dk 0) /\ bl_dv st = Some (bwd_dv 0) /\
    bwd_dk 0 = to float32 (bl_block_dk_buffer st) /\
    bwd_dv 0 = to float32 (bl_block_dv_buffer st).
Proof.
  intros HP. destruct (bwd_loop_run 0 w HP) as (st & Hrun & Hg).
  destruct Hg as (_ & Hbk & Hbv & _ & Hdk & Hdv & _).
  destruct (bwd_bufs_S 0) as (_ & Ek & Ev).
  unfold view_kv in Ek, Ev. change (r <? 0) with false in Ek, Ev.
  cbn [write_view] in Ek, Ev. cbn [after] in Hdk, Hdv.
  exists st.
  exists ((if 0 + 1 =? P then []
           else [EvSendRecv 0 (shard_at g k 0 0) None;
                 EvSendRecv 0 (shard_at g v 1 0) None; EvCommit 0])
          ++ [EvBwdKernel attn_type bwd_only (bwd_call 0)]
          ++ (if 0 + 1 =? P then [] else [EvWait 0])).
  split. { rewrite Hrun, bwd_trace_S. unfold bwd_trace, bwd_events.
           change (r <? 0) with false. cbn [seq flat_map app after].
           now rewrite <- !app_assoc. }
  split. { destruct (0 + 1 =? P); reflexivity. }
  split. { destruct (0 + 1 =? P); reflexivity. }
  rewrite Hbk, Hbv, Hdk, Hdv. unfold bwd_dk, bwd_dv, bwd_grad.
  rewrite Ek, Ev. repeat split.
Qed.

(** A later step waits for the gradient transfer of the step before, after
    its kernel call, and adds the buffers the call has filled to the dk
    and dv it received. *)
Lemma bwd_later_step (s : nat) (w : world) :
  0 < s -> s < P ->
  exists st st' w1 pre post,
    the_bwd_loop s w = (inr st, w1) /\
    the_bwd_loop (S s) w = (inr st', emit (pre ++ [EvWait 1] ++ post) w1) /\
    kernel_calls_bwd pre = [bwd_call s] /\
    filter (on_channel 1) pre = [] /\
    filter (on_channel 1) post
    = [EvSendRecv 1 (bwd_dk s) (bl_dk st); EvSendRecv 1 (bwd_dv s) (bl_dv st);
       EvCommit 1] /\
    bl_next_dk st = Some (recv_grad 0 (s - 1)) /\
    bl_next_dv st = Some (recv_grad 1 (s - 1)) /\
    bl_block_dk_buffer st'
    = write_view (view_kv s) (bl_block_dk_buffer st) (snd (fst (bwd_res s))) /\
    bl_block_dv_buffer st'
    = write_view (view_kv s) (bl_block_dv_buffer st) (snd (bwd_res s)) /\
    bl_dk st' = Some (bwd_dk s) /\ bl_dv st' = Some (bwd_dv s) /\
    bwd_dk s = (if r <? s
                then iadd_rows slice_to_m1 (recv_grad 0 (s - 1)) (bl_block_dk_buffer st')
                else tadd (bl_block_dk_buffer st') (recv_grad 0 (s - 1))) /\
    bwd_dv s = (if r <? s
                then iadd_rows slice_to_m1 (recv_grad 1 (s - 1)) (bl_block_dv_buffer st')
                else tadd (bl_block_dv_buffer st') (recv_grad 1 (s - 1))).
Proof.
  intros H0 Hs.
  destruct (bwd_loop_prefix s w Hs) as (st & Hrun & Hg & Hkv).
  destruct (bwd_loop_run s w Hs) as (st' & Hrun' & Hg').
  destruct Hg as (_ & Hbk & Hbv & _ & Hdk & Hdv & Hndk & Hndv & _).
  destruct Hg' as (_ & Hbk' & Hbv' & _ & Hdk' & Hdv' & _).
  destruct (bwd_bufs_S s) as (_ & Ek & Ev).
  destruct s as [|m]; [lia|]. cbn [after] in *.
  replace (S m - 1) with m by lia.
  exists st, st', (emit (bwd_trace (S m)) w).
  exists ((if S m + 1 =? P then []
           else [EvSendRecv 0 (shard_at g k 0 (S m)) None;
                 EvSendRecv 0 (shard_at g v 1 (S m)) None; EvCommit 0])
          ++ (if r <? S m
              then [EvContiguousLse (rows_axis2 slice_from1 softmax_lse)] else [])
          ++ [EvBwdKernel attn_type bwd_only (bwd_call (S m))]).
  exists ((if S m + 1 =? P then [] else [EvWait 0])
          ++ [EvSendRecv 1 (bwd_dk (S m)) (Some (bwd_dk m));
              EvSendRecv 1 (bwd_dv (S m)) (Some (bwd_dv m)); EvCommit 1]).
  split; [exact Hrun|].
  split. { rewrite Hrun', bwd_trace_S, emit_emit. unfold bwd_events. cbn [after].
           now rewrite <- !app_assoc. }
  split. { destruct (S m + 1 =? P); destruct (r <? S m); reflexivity. }
  split. { destruct (S m + 1 =? P); destruct (r <? S m); reflexivity. }
  split. { rewrite Hdk, Hdv. destruct (S m + 1 =? P); reflexivity. }
  rewrite Hndk, Hndv, Hbk, Hbv, Hbk', Hbv', Hdk', Hdv', <- Ek, <- Ev.
  repeat split.
Qed.

(** C8: at a backward step in Shifted mode ([r < s]) the sliced
    log-sum-exp is computed anew from [softmax_lse], once, and handed to
    the kernel of the step, although the variable still held the slice of
    the step before when that one was Shifted too: the reset at the top of
    the iteration makes the check at line 139 succeed every time. *)
Theorem C8_lse_slice_recomputed_every_shifted_step (s : nat) (w : world) :
  r < s -> s < P ->
  exists st st' w1 evs a,
    the_bwd_loop s w = (inr st, w1) /\
    the_bwd_loop (S s) w = (inr st', emit evs w1) /\
    bl_softmax_lse_1 st =
      (if r <? s - 1 then Some (rows_axis2 slice_from1 softmax_lse) else None) /\
    lse_slices evs = [rows_axis2 slice_from1 softmax_lse] /\
    kernel_calls_bwd evs = [a] /\
    ba_softmax_lse a = rows_axis2 slice_from1 softmax_lse /\
    bl_softmax_lse_1 st' = Some (rows_axis2 slice_from1 softmax_lse).
Proof.
  intros Hr Hs.
  destruct (bwd_loop_prefix s w Hs) as (st & Hrun & Hg & Hkv).
  destruct (bwd_loop_run s w Hs) as (st' & Hrun' & Hg').
  exists st, st', (emit (bwd_trace s) w), (bwd_events s), (bwd_call s).
  split; [exact Hrun|]. split; [now rewrite Hrun', bwd_trace_S, emit_emit|].
  destruct Hg as (_ & _ & _ & _ & _ & _ & _ & _ & _ & _ & Hl1 & _).
  destruct Hg' as (_ & _ & _ & _ & _ & _ & _ & _ & _ & _ & Hl1' & _).
  apply Nat.ltb_lt in Hr.
  split. { rewrite Hl1. destruct s; [discriminate|]. cbn [lse_1_at].
           now rewrite Nat.sub_1_r. }
  split. { now rewrite lse_slices_events, Hr. }
  split. { apply kernel_calls_bwd_events. }
  split. { unfold bwd_call, bwd_call_with. now rewrite Hr. }
  rewrite Hl1'. cbn [lse_1_at]. now rewrite Hr.
Qed.

End BackwardRun.

(** ** The two drivers side by side *)











(** What a slice of a block holds: [x'] is [x[:, 1:]], every batch entry
    without its row 0; [x'] is [x[:, :-1]], every batch entry without its
    last row. *)
Definition is_rows_from1 (x' x : Tensor) : Prop :=
  t_dtype x' = t_dtype x /\ t_data x' = map (skipn 1) (t_data x).

Definition is_rows_to_m1 (x' x : Tensor) : Prop :=
  t_dtype x' = t_dtype x /\ t_data x' = map (@removelast _) (t_data x).

(** [l'] is [l[:, :, 1:]]: every (batch, head) entry of the log-sum-exp
    without its position 0. *)
Definition is_lse_from1 (l' l : AnyTensor) : Prop :=
  match l, l' with
  | Rank3 t, Rank3 t' =>
      t3_dtype t' = t3_dtype t /\ t3_data t' = map (map (skipn 1)) (t3_data t)
  | Rank4 t, Rank4 t' =>
      t_dtype t' = t_dtype t /\ t_data t' = map (map (skipn 1)) (t_data t)
  | _, _ => False
  end.

(** The nine tensor arguments of a backward kernel call against the
    tensors and the three buffers the step works with: all whole, or all
    sliced, dout, q, out and the dq buffer to rows [1, end), k, v and the
    dk, dv buffers to rows [0, end-1), the log-sum-exp to positions
    [1, end). *)
Definition bwd_args_sliced (shifted : bool) (dout q k v out : Tensor)
           (lse : AnyTensor) (bq bk bv : Tensor) (a : bwd_args) : Prop :=
  if shifted
  then is_rows_from1 (ba_dout a) dout /\ is_rows_from1 (ba_q a) q /\
       is_rows_to_m1 (ba_k a) k /\ is_rows_to_m1 (ba_v a) v /\
       is_rows_from1 (ba_out a) out /\ is_lse_from1 (ba_softmax_lse a) lse /\
       is_rows_from1 (ba_dq a) bq /\ is_rows_to_m1 (ba_dk a) bk /\
       is_rows_to_m1 (ba_dv a) bv
  else ba_dout a = dout /\ ba_q a = q /\ ba_k a = k /\ ba_v a = v /\
       ba_out a = out /\ ba_softmax_lse a = lse /\
       ba_dq a = bq /\ ba_dk a = bk /\ ba_dv a = bv.

Lemma rows_from1_is (x : Tensor) : is_rows_from1 (rows slice_from1 x) x.
Proof. split; [reflexivity|apply rows_from1_data]. Qed.

Lemma rows_to_m1_is (x : Tensor) : is_rows_to_m1 (rows slice_to_m1 x) x.
Proof. split; [reflexivity|apply rows_to_m1_data]. Qed.

Lemma rows_axis2_from1_is (l : AnyTensor) :
  is_lse_from1 (rows_axis2 slice_from1 l) l.
Proof.
  destruct l as [t|t]; cbn; (split; [reflexivity|]);
    apply map_ext; intros b; apply map_ext; intros h; apply getslice_from1.
Qed.

Lemma bwd_args_sliced_intro (shifted : bool) (dout q k v out : Tensor)
      (lse : AnyTensor) (bq bk bv : Tensor) dropout_p sc causal window_size
      softcap alibi det rng :
  bwd_args_sliced shifted dout q k v out lse bq bk bv
    (if shifted
     then mkBwdArgs (rows slice_from1 dout) (rows slice_from1 q)
                    (rows slice_to_m1 k) (rows slice_to_m1 v)
                    (rows slice_from1 out) (rows_axis2 slice_from1 lse)
                    (rows slice_from1 bq) (rows slice_to_m1 bk) (rows slice_to_m1 bv)
                    dropout_p sc causal window_size softcap alibi det rng
     else mkBwdArgs dout q k v out lse bq bk bv
                    dropout_p sc causal window_size softcap alibi det rng).
Proof.
  destruct shifted; cbn [bwd_args_sliced ba_dout ba_q ba_k ba_v ba_out
                         ba_softmax_lse ba_dq ba_dk ba_dv].
  - repeat split; try apply rows_from1_data; try apply rows_to_m1_data.
    apply rows_axis2_from1_is.
  - repeat split.
Qed.

Section Drivers.

Variables (process_group : option ProcessGroup) (dout q k v out : Tensor)
          (softmax_lse : AnyTensor)
          (softmax_scale dropout_p : PyFloat) (causal : bool)
          (window_size : Z * Z) (softcap : PyFloat)
          (alibi_slopes : option Tensor) (deterministic : bool)
          (attn_type : FlashAttentionImpl).

Let g := group_of process_group.
Let P := pg_world_size g.
Let r := pg_rank g.

Local Abbreviation run_forward :=
  (stripe_flash_attn_forward process_group q k v softmax_scale dropout_p causal
                             window_size softcap alibi_slopes deterministic
                             attn_type).
Local Abbreviation run_backward :=
  (stripe_flash_attn_backward process_group dout q k v out softmax_lse
                              softmax_scale dropout_p causal window_size softcap
                              alibi_slopes deterministic attn_type).
Local Abbreviation f_events :=
  (fwd_events process_group q k v softmax_scale dropout_p causal window_size
              softcap alibi_slopes attn_type).
Local Abbreviation b_events :=
  (bwd_events process_group dout q k v out softmax_lse softmax_scale dropout_p
              causal window_size softcap alibi_slopes deterministic attn_type).
Local Abbreviation f_call :=
  (fwd_call process_group q k v softmax_scale dropout_p causal window_size
            softcap alibi_slopes).
Local Abbreviation b_call :=
  (bwd_call process_group dout q k v out softmax_lse softmax_scale dropout_p
            causal window_size softcap alibi_slopes deterministic attn_type).

(** The events of one step around its kernel call: the fetch of the next
    K and V before, the wait after, both absent on the last step; nothing
    else on the K/V channel. *)
Definition step_shape (s : nat) (evs : list event) : Prop :=
  exists compute rest,
    evs = (if s + 1 =? P then []
           else [EvSendRecv 0 (shard_at g k 0 s) None;
                 EvSendRecv 0 (shard_at g v 1 s) None; EvCommit 0])
          ++ compute ++ (if s + 1 =? P then [] else [EvWait 0]) ++ rest /\
    filter (on_channel 0) compute = [] /\ filter (on_channel 0) rest = [] /\
    length (filter is_kernel compute) = 1 /\ filter is_kernel rest = [].

(** C4: on a ring of [P] ranks the forward and the backward call each run
    exactly [P] steps, one kernel call per step; every step but the last
    issues the two K/V transfers and the commit before its kernel call and
    waits for them after it; the last step issues and waits for no K/V
    transfer. *)
Theorem C4_P_steps_kv_fetch_all_but_last (w : world) :
  causal = true -> 0 < P ->
  (exists res steps,
     run_forward w = (inr res, emit (concat steps) w) /\
     length steps = P /\
     forall s, s < P -> exists evs, nth_error steps s = Some evs /\ step_shape s evs) /\
  (exists res steps,
     run_backward w = (inr res, emit (concat steps ++ [EvWait 1]) w) /\
     length steps = P /\
     forall s, s < P -> exists evs, nth_error steps s = Some evs /\ step_shape s evs).
Proof.
  intros Hc HP. split.
  - destruct (stripe_flash_attn_forward_run process_group q k v softmax_scale
                dropout_p causal window_size softcap alibi_slopes attn_type
                deterministic w Hc HP) as (o & l & _ & Hrun).
    eexists; exists (map f_events (seq 0 P)). split.
    + rewrite <- flat_map_concat_map. exact Hrun.
    + split; [now rewrite length_map, length_seq|].
      intros s Hs. exists (f_events s). split; [now apply nth_error_map_seq|].
      exists [EvFwdKernel attn_type fwd_only (f_call s)], [].
      split; [apply fwd_events_shape|]. repeat split.
  - pose proof (stripe_flash_attn_backward_run process_group dout q k v out
                  softmax_lse softmax_scale dropout_p causal window_size softcap
                  alibi_slopes deterministic attn_type w Hc HP) as Hrun.
    eexists; exists (map b_events (seq 0 P)). split.
    + rewrite <- flat_map_concat_map. exact Hrun.
    + split; [now rewrite length_map, length_seq|].
      intros s Hs. exists (b_events s). split; [now apply nth_error_map_seq|].
      apply bwd_events_shape.
Qed.

Local Abbreviation b_buf_q :=
  (buf_q process_group dout q k v out softmax_lse softmax_scale dropout_p
         causal window_size softcap alibi_slopes deterministic attn_type).
Local Abbreviation b_buf_k :=
  (buf_k process_group dout q k v out softmax_lse softmax_scale dropout_p
         causal window_size softcap alibi_slopes deterministic attn_type).
Local Abbreviation b_buf_v :=
  (buf_v process_group dout q k v out softmax_lse softmax_scale dropout_p
         causal window_size softcap alibi_slopes deterministic attn_type).

(** The kernel call of [bwd_compute], whatever the state holds: one call,
    after the log-sum-exp slice when the step is Shifted, with the tensors
    of the call and the three buffers as the state has them, whole or
    sliced by the mode. *)
Lemma bwd_compute_call (s : nat) (st : bwd_locals) (w : world) (k' v' : Tensor) :
  bl_k st = Some k' -> bl_v st = Some v' ->
  exists st' pre a,
    bwd_compute dout q out softmax_lse softmax_scale dropout_p causal window_size
                softcap alibi_slopes deterministic attn_type s st w
    = (inr st', emit (pre ++ [EvBwdKernel attn_type bwd_only a]) w) /\
    kernel_calls_bwd pre = [] /\
    bwd_args_sliced (rank (bl_kv_comm st) <? s) dout q k' v' out softmax_lse
                    (bl_block_dq_buffer st) (bl_block_dk_buffer st)
                    (bl_block_dv_buffer st) a.
Proof.
  intros Hk Hv. unfold bwd_compute.
  cbn [set_kernel bl_k bl_v bl_kv_comm bl_softmax_lse_1 bl_block_dq_buffer
       bl_block_dk_buffer bl_block_dv_buffer].
  rewrite Hk, Hv.
  pose proof (bwd_args_sliced_intro (rank (bl_kv_comm st) <? s) dout q k' v' out
                softmax_lse (bl_block_dq_buffer st) (bl_block_dk_buffer st)
                (bl_block_dv_buffer st) dropout_p softmax_scale causal window_size
                softcap alibi_slopes deterministic None) as Ha.
  destruct (rank (bl_kv_comm st) <? s); cbn [negb];
    unfold bind, ret, need, call_bwd, tell, bind, ret;
    cbn [set_kernel bl_k bl_v bl_kv_comm bl_softmax_lse_1 bl_block_dq_buffer
         bl_block_dk_buffer bl_block_dv_buffer];
    match goal with
    | |- context [k_bwd ?f ?a] => destruct (k_bwd f a) as [[rdq rdk] rdv]
    end.
  - eexists. exists [EvContiguousLse (rows_axis2 slice_from1 softmax_lse)].
    eexists. rewrite emit_emit. split; [reflexivity|]. split; [reflexivity|].
    exact Ha.
  - eexists. exists []. eexists. split; [reflexivity|]. split; [reflexivity|].
    exact Ha.
Qed.

Lemma bwd_bufs_dtype (n : nat) :
  t_dtype (b_buf_q n) = t_dtype q /\ t_dtype (b_buf_k n) = t_dtype k /\
  t_dtype (b_buf_v n) = t_dtype v.
Proof.
  induction n as [|n (IHq & IHk & IHv)]; [repeat split|].
  destruct (bwd_bufs_S process_group dout q k v out softmax_lse softmax_scale
              dropout_p causal window_size softcap alibi_slopes deterministic
              attn_type n) as (Eq & Ek & Ev).
  rewrite Eq, Ek, Ev. unfold view_q, view_kv.
  destruct (pg_rank (group_of process_group) <? n); cbn; repeat split; assumption.
Qed.

(** C5: the backward call runs a step in Shifted mode exactly when the
    forward call does, when [r < s].  At every step its kernel gets the
    Q, K and V the forward kernel got at that step, and its nine tensor
    arguments are whole when [s <= r]; when [r < s] they are: dout, q, out
    and the dq buffer without row 0, k, v and the dk, dv buffers without
    their last row, and the saved log-sum-exp without position 0.  The
    three buffers have the dtypes of q, k and v; what they hold is left
    open, and the kernel call of [bwd_compute] passes them, whole or
    sliced by the mode, whatever they hold. *)
Theorem C5_backward_slices_as_forward (w : world) :
  causal = true -> 0 < P ->
  (exists fres fevs bres bevs,
     run_forward w = (inr fres, emit fevs w) /\
     run_backward w = (inr bres, emit bevs w) /\
     forall s, s < P ->
       exists fa ba bq bk bv,
         nth_error (kernel_calls_fwd fevs) s = Some fa /\
         nth_error (kernel_calls_bwd bevs) s = Some ba /\
         ba_q ba = fa_q fa /\ ba_k ba = fa_k fa /\ ba_v ba = fa_v fa /\
         (s <= r -> fa_q fa = q) /\
         (r < s -> is_rows_from1 (fa_q fa) q) /\
         t_dtype bq = t_dtype q /\ t_dtype bk = t_dtype k /\ t_dtype bv = t_dtype v /\
         bwd_args_sliced (r <? s) dout q (shard_at g k 0 s) (shard_at g v 1 s) out
                         softmax_lse bq bk bv ba) /\
  (forall s st w' k' v',
     bl_k st = Some k' -> bl_v st = Some v' ->
     exists st' pre a,
       bwd_compute dout q out softmax_lse softmax_scale dropout_p causal window_size
                   softcap alibi_slopes deterministic attn_type s st w'
       = (inr st', emit (pre ++ [EvBwdKernel attn_type bwd_only a]) w') /\
       kernel_calls_bwd pre = [] /\
       bwd_args_sliced (rank (bl_kv_comm st) <? s) dout q k' v' out softmax_lse
                       (bl_block_dq_buffer st) (bl_block_dk_buffer st)
                       (bl_block_dv_buffer st) a).
Proof.
  intros Hc HP. split; [|intros; now apply bwd_compute_call].
  destruct (stripe_flash_attn_forward_run process_group q k v softmax_scale
              dropout_p causal window_size softcap alibi_slopes attn_type
              deterministic w Hc HP) as (o & l & _ & Hf).
  pose proof (stripe_flash_attn_backward_run process_group dout q k v out
                softmax_lse softmax_scale dropout_p causal window_size softcap
                alibi_slopes deterministic attn_type w Hc HP) as Hb.
  do 4 eexists. split; [exact Hf|]. split; [exact Hb|].
  intros s Hs.
  destruct (bwd_bufs_dtype s) as (Dq & Dk & Dv).
  exists (f_call s), (b_call s), (b_buf_q s), (b_buf_k s), (b_buf_v s).
  rewrite kernel_calls_fwd_trace.
  unfold kernel_calls_bwd. rewrite flat_map_app. fold kernel_calls_bwd.
  rewrite kernel_calls_bwd_trace. cbn [flat_map]. rewrite app_nil_r.
  split; [now apply nth_error_map_seq|]. split; [now apply nth_error_map_seq|].
  pose proof (bwd_args_sliced_intro (r <? s) dout q (shard_at g k 0 s)
                (shard_at g v 1 s) out softmax_lse (b_buf_q s) (b_buf_k s)
                (b_buf_v s) dropout_p softmax_scale causal window_size softcap
                alibi_slopes deterministic None) as Ha.
  unfold fwd_call, bwd_call, bwd_call_with. fold g r. fold g r in Ha.
  destruct (s <=? r) eqn:Hle.
  - apply Nat.leb_le in Hle.
    assert (Hlt : (r <? s) = false) by (apply Nat.ltb_ge; lia).
    rewrite Hlt in *. cbn [fa_q fa_k fa_v ba_q ba_k ba_v].
    repeat (split; [reflexivity|]). split; [intros; lia|].
    split; [exact Dq|]. split; [exact Dk|]. split; [exact Dv|]. exact Ha.
  - apply Nat.leb_gt in Hle.
    assert (Hlt : (r <? s) = true) by (apply Nat.ltb_lt; lia).
    rewrite Hlt in *. cbn [fa_q fa_k fa_v ba_q ba_k ba_v].
    repeat (split; [reflexivity|]). split; [intros; lia|].
    split; [intros _; apply rows_from1_is|].
    split; [exact Dq|]. split; [exact Dk|]. split; [exact Dv|]. exact Ha.
Qed.


End Drivers.

(** The last row of every batch entry. *)
Definition last_row (t : Tensor) : T4 :=
  map (fun b => skipn (pred (length b)) b) (t_data t).

Lemma length_removelast' {A : Type} (l : list A) :
  length (removelast l) = pred (length l).
Proof. rewrite removelast_firstn_len, length_firstn. lia. Qed.

Lemma last_row_iadd_rows_to_m1 (x y : Tensor) :
  last_row (iadd_rows slice_to_m1 x y) = last_row x.
Proof.
  unfold last_row, iadd_rows, set_rows; cbn [t_data].
  generalize (t_data (iadd (rows slice_to_m1 x) (rows slice_to_m1 y))) as m.
  induction (t_data x) as [|b d IH]; intros [|n m]; cbn [zip_into map];
    try reflexivity.
  rewrite IH. f_equal. unfold setslice. rewrite updslice_to_m1.
  set (L := zip_into _ (removelast b) n).
  assert (HL : length L = pred (length b))
    by (unfold L; now rewrite zip_into_length, length_removelast').
  rewrite length_app, HL, length_skipn.
  replace (pred (pred (length b) + (length b - pred (length b))))
    with (pred (length b)) by lia.
  rewrite skipn_app, HL, Nat.sub_diag. cbn [skipn].
  rewrite <- HL at 1. now rewrite skipn_all.
Qed.

(** The flash-attention kernels take float16 and bfloat16 blocks.  For
    such a block [to float32] makes a copy, so the accumulators dq, dk and
    dv share no memory with the per-step buffers. *)
Definition reduced_precision (t : Tensor) : Prop := t_dtype t <> float32.

(** ** The ring of [P] ranks in lockstep *)

Section Ring.

Variable P : nat.
Variables (dout q k v out : nat -> Tensor) (softmax_lse : nat -> AnyTensor).
Variables (softmax_scale dropout_p : PyFloat) (causal : bool)
          (window_size : Z * Z) (softcap : PyFloat)
          (alibi_slopes : option Tensor) (deterministic : bool)
          (attn_type : FlashAttentionImpl).

(** [deliver rho c n]: what rank [rho] finds in its [n]-th receive buffer
    of channel [c]. *)
Variable deliver : nat -> nat -> nat -> T4.

Definition ring_group (rho : nat) : option ProcessGroup :=
  Some (mkGroup rho P (deliver rho)).

(** Modelled from the spec: a rank receives from the previous peer of the
    ring, rank [(rho - 1) mod P]. *)
Definition prev_rank (rho : nat) : nat := (rho + P - 1) mod P.

(** The rank that holds the gradient of the K/V shard of rank [rho] at
    step [j], [j] hops after its owner. *)
Definition holder (rho j : nat) : nat := (rho + j) mod P.

Local Abbreviation at_rank f rho :=
  (f (ring_group rho) (dout rho) (q rho) (k rho) (v rho) (out rho) (softmax_lse rho)
     softmax_scale dropout_p causal window_size softcap alibi_slopes deterministic
     attn_type).

(** dk and dv of rank [rho] at the end of step [s], the payloads of its
    gradient transfers of that step. *)
Definition dk_of (rho s : nat) : Tensor := at_rank bwd_dk rho s.
Definition dv_of (rho s : nat) : Tensor := at_rank bwd_dv rho s.

(** The K and V shards rank [rho] works on at step [s], the payloads of
    its K/V transfers of that step. *)
Definition k_at (rho s : nat) : Tensor :=
  shard_at (group_of (ring_group rho)) (k rho) 0 s.
Definition v_at (rho s : nat) : Tensor :=
  shard_at (group_of (ring_group rho)) (v rho) 1 s.

(** The ranks run in lockstep: every receive buffer of a rank holds what
    its previous peer handed to the transfer of the same channel and
    number. *)
Definition lockstep : Prop :=
  forall rho s, rho < P -> s < P ->
    (s + 1 < P ->
       deliver rho 0 (2 * s + 0) = t_data (k_at (prev_rank rho) s) /\
       deliver rho 0 (2 * s + 1) = t_data (v_at (prev_rank rho) s)) /\
    deliver rho 1 (2 * s + 0) = t_data (dk_of (prev_rank rho) s) /\
    deliver rho 1 (2 * s + 1) = t_data (dv_of (prev_rank rho) s).

(** The dk and dv buffers of the holder at hop [j], after its kernel call
    of step [j]: the contribution of that rank to the gradient of the
    shard of [rho]. *)
Definition contrib_k (rho j : nat) : Tensor := at_rank buf_k (holder rho j) (S j).
Definition contrib_v (rho j : nat) : Tensor := at_rank buf_v (holder rho j) (S j).

(** The gradient of the shard of [rho] after hop [j]: one contribution per
    hop, added to what the hop before left. *)
Fixpoint ring_grad (contrib : nat -> nat -> Tensor) (rho j : nat) : Tensor :=
  match j with
  | 0 => to float32 (contrib rho 0)
  | S m =>
      if holder rho (S m) <? S m
      then iadd_rows slice_to_m1 (ring_grad contrib rho m) (contrib rho (S m))
      else tadd (contrib rho (S m)) (ring_grad contrib rho m)
  end.

Lemma holder_0 (rho : nat) : rho < P -> holder rho 0 = rho.
Proof. intros H. unfold holder. rewrite Nat.add_0_r. now apply Nat.mod_small. Qed.

Lemma holder_lt (rho j : nat) : 0 < P -> holder rho j < P.
Proof. intros H. apply Nat.mod_upper_bound. lia. Qed.

Lemma prev_holder (rho j : nat) :
  0 < P -> prev_rank (holder rho (S j)) = holder rho j.
Proof.
  intros H. unfold prev_rank, holder.
  replace ((rho + S j) mod P + P - 1) with ((rho + S j) mod P + (P - 1)) by lia.
  rewrite Nat.Div0.add_mod_idemp_l.
  replace (rho + S j + (P - 1)) with (rho + j + 1 * P) by lia.
  apply Nat.Div0.mod_add.
Qed.

Lemma prev_rank_holder (rho : nat) : 0 < P -> prev_rank rho = holder rho (P - 1).
Proof. intros H. unfold prev_rank, holder. f_equal. lia. Qed.

Lemma tensor_eta (t : Tensor) (d : dtype) :
  t_dtype t = d -> mkTensor d (t_data t) = t.
Proof. intros <-. now destruct t. Qed.

(** The holder at hop [j] works on the K and V of rank [rho]. *)
Lemma shard_of_owner (rho j : nat) :
  lockstep -> rho < P -> j < P ->
  t_data (k_at (holder rho j) j) = t_data (k rho) /\
  t_data (v_at (holder rho j) j) = t_data (v rho).
Proof.
  intros HL Hrho. induction j as [|j IH]; intros Hj.
  - rewrite holder_0 by exact Hrho. split; reflexivity.
  - unfold k_at, v_at. cbn [shard_at group_of ring_group pg_deliver t_data].
    destruct (HL (holder rho (S j)) j) as (Hkv & _); [apply holder_lt; lia|lia|].
    destruct Hkv as (Hk & Hv); [lia|].
    rewrite Hk, Hv, prev_holder by lia. apply IH. lia.
Qed.

(** At the end of step [j] the holder has the gradient of the shard of
    [rho] with the contributions of hops 0 to [j]. *)
Lemma grad_of_owner (rho j : nat) :
  lockstep -> rho < P -> j < P ->
  dk_of (holder rho j) j = ring_grad contrib_k rho j /\
  dv_of (holder rho j) j = ring_grad contrib_v rho j.
Proof.
  intros HL Hrho. induction j as [|j IH]; intros Hj.
  - unfold dk_of, dv_of, bwd_dk, bwd_dv, contrib_k, contrib_v.
    cbn [bwd_grad ring_grad]. split; reflexivity.
  - destruct IH as (IHk & IHv); [lia|].
    destruct (HL (holder rho (S j)) j) as (_ & Hk & Hv); [apply holder_lt; lia|lia|].
    rewrite prev_holder in Hk, Hv by lia. rewrite IHk in Hk. rewrite IHv in Hv.
    assert (Hdk : t_dtype (ring_grad contrib_k rho j) = float32)
      by (rewrite <- IHk; apply bwd_grad_dtype).
    assert (Hdv : t_dtype (ring_grad contrib_v rho j) = float32)
      by (rewrite <- IHv; apply bwd_grad_dtype).
    unfold dk_of, dv_of, bwd_dk, bwd_dv. cbn [bwd_grad ring_grad].
    unfold recv_grad. cbn [group_of ring_group pg_deliver pg_rank].
    rewrite Hk, Hv, (tensor_eta _ _ Hdk), (tensor_eta _ _ Hdv).
    split; reflexivity.
Qed.

Lemma holders_permutation (rho : nat) :
  0 < P -> Permutation (map (holder rho) (seq 0 P)) (seq 0 P).
Proof.
  intros HP. apply Permutation_map_same_l.
  - apply NoDup_map_NoDup_ForallPairs; [|apply seq_NoDup].
    intros i j Hi Hj Heq. apply in_seq in Hi, Hj. unfold holder in Heq.
    pose proof (Nat.div_mod_eq (rho + i) P) as Di.
    pose proof (Nat.div_mod_eq (rho + j) P) as Dj.
    rewrite Heq in Di.
    set (a := (rho + i) / P) in *. set (b := (rho + j) / P) in *.
    set (m := (rho + j) mod P) in *.
    assert (Hab : a = b \/ a < b \/ b < a) by lia.
    destruct Hab as [Hab|[Hab|Hab]].
    + subst a. rewrite Hab in Di. lia.
    + assert (H1 : P * (a + 1) <= P * b) by (apply Nat.mul_le_mono_l; lia).
      rewrite Nat.mul_add_distr_l, Nat.mul_1_r in H1. lia.
    + assert (H1 : P * (b + 1) <= P * a) by (apply Nat.mul_le_mono_l; lia).
      rewrite Nat.mul_add_distr_l, Nat.mul_1_r in H1. lia.
  - intros x Hx. apply in_map_iff in Hx. destruct Hx as (j & <- & _).
    apply in_seq. pose proof (holder_lt rho j HP). lia.
Qed.

Lemma ring_grad_dtype (rho j : nat) :
  lockstep -> rho < P -> j < P ->
  t_dtype (ring_grad contrib_k rho j) = float32 /\
  t_dtype (ring_grad contrib_v rho j) = float32.
Proof.
  intros HL Hrho Hj. destruct (grad_of_owner rho j HL Hrho Hj) as (Hk & Hv).
  rewrite <- Hk, <- Hv. split; apply bwd_grad_dtype.
Qed.

Local Abbreviation loop_at rho :=
  (bwd_loop (dout rho) (q rho) (out rho) (softmax_lse rho) softmax_scale dropout_p
            causal window_size softcap alibi_slopes deterministic attn_type
            (ring_group rho) (k rho) (v rho)).
Local Abbreviation run_at rho :=
  (stripe_flash_attn_backward (ring_group rho) (dout rho) (q rho) (k rho) (v rho)
                              (out rho) (softmax_lse rho) softmax_scale dropout_p
                              causal window_size softcap alibi_slopes
                              deterministic attn_type).

(** The gradient ring on float16 and bfloat16 blocks.  On a ring of [P]
    ranks in lockstep, for every rank [rho]:
    - the first step initializes dk and dv from the buffers its kernel call
      has just filled, and sends them on;
    - every later step [s], after its one kernel call, waits for the
      gradient transfer of the step before, takes the dk and dv it
      received, which are the ones the previous rank sent at the end of
      step [s - 1], and adds the buffers of its own kernel call to them:
      to all rows when [s <= rho], to rows [0, end-1) when [rho < s], the
      last row staying as received; it then sends the sums on;
    - the call returns, cast to the dtype of [q], the gradient of its own
      K/V shard as it stands after [P - 1] hops, received from the
      previous rank: the holder at hop [j], rank [(rho + j) mod P], ran its
      kernel on its own Q and on the K and V of [rho] and contributed the
      buffers of that call, and the holders of hops 0 to [P - 1] are the
      [P] ranks, each once. *)
Theorem gradient_ring_accumulates_once_per_rank (w : world) :
  causal = true -> 0 < P -> lockstep ->
  (forall rho, rho < P ->
     reduced_precision (q rho) /\ reduced_precision (k rho) /\
     reduced_precision (v rho)) ->
  forall rho, rho < P ->
    (exists st pre,
       loop_at rho 1 w
       = (inr st, emit (pre ++ [EvSendRecv 1 (dk_of rho 0) None;
                                EvSendRecv 1 (dv_of rho 0) None; EvCommit 1]) w) /\
       kernel_calls_bwd pre = [at_rank bwd_call rho 0] /\
       filter (on_channel 1) pre = [] /\
       bl_block_dk_buffer st
       = mkTensor (t_dtype (k rho)) (snd (fst (at_rank bwd_res rho 0))) /\
       bl_block_dv_buffer st
       = mkTensor (t_dtype (v rho)) (snd (at_rank bwd_res rho 0)) /\
       bl_dk st = Some (dk_of rho 0) /\ bl_dv st = Some (dv_of rho 0) /\
       dk_of rho 0 = to float32 (bl_block_dk_buffer st) /\
       dv_of rho 0 = to float32 (bl_block_dv_buffer st)) /\
    (forall s, 0 < s -> s < P ->
       exists st st' w1 pre post recv_dk recv_dv,
         let dk' := dk_of rho s in
         let dv' := dv_of rho s in
         loop_at rho s w = (inr st, w1) /\
         loop_at rho (S s) w = (inr st', emit (pre ++ [EvWait 1] ++ post) w1) /\
         kernel_calls_bwd pre = [at_rank bwd_call rho s] /\
         filter (on_channel 1) pre = [] /\
         bl_next_dk st = Some recv_dk /\ bl_next_dv st = Some recv_dv /\
         t_data recv_dk = t_data (dk_of (prev_rank rho) (s - 1)) /\
         t_data recv_dv = t_data (dv_of (prev_rank rho) (s - 1)) /\
         bl_block_dk_buffer st'
         = write_view (if rho <? s then Some slice_to_m1 else None)
                      (bl_block_dk_buffer st) (snd (fst (at_rank bwd_res rho s))) /\
         bl_block_dv_buffer st'
         = write_view (if rho <? s then Some slice_to_m1 else None)
                      (bl_block_dv_buffer st) (snd (at_rank bwd_res rho s)) /\
         bl_dk st' = Some dk' /\ bl_dv st' = Some dv' /\
         dk' = (if rho <? s
                then iadd_rows slice_to_m1 recv_dk (bl_block_dk_buffer st')
                else tadd (bl_block_dk_buffer st') recv_dk) /\
         dv' = (if rho <? s
                then iadd_rows slice_to_m1 recv_dv (bl_block_dv_buffer st')
                else tadd (bl_block_dv_buffer st') recv_dv) /\
         (rho < s -> last_row dk' = last_row recv_dk /\
                     last_row dv' = last_row recv_dv) /\
         filter (on_channel 1) post
         = [EvSendRecv 1 dk' (bl_dk st); EvSendRecv 1 dv' (bl_dv st); EvCommit 1]) /\
    (exists dq w',
       run_at rho w
       = (inr (dq,
               to (t_dtype (q rho)) (ring_grad contrib_k rho (P - 1)),
               to (t_dtype (q rho)) (ring_grad contrib_v rho (P - 1))), w')) /\
    (forall j, j < P ->
       let h := holder rho j in
       exists res evs a old_k old_v,
         run_at h w = (inr res, emit evs w) /\
         nth_error (kernel_calls_bwd evs) j = Some a /\
         ba_q a = (if h <? j then rows slice_from1 (q h) else q h) /\
         t_data (ba_k a)
         = t_data (if h <? j then rows slice_to_m1 (k rho) else k rho) /\
         t_data (ba_v a)
         = t_data (if h <? j then rows slice_to_m1 (v rho) else v rho) /\
         contrib_k rho j
         = write_view (if h <? j then Some slice_to_m1 else None) old_k
                      (snd (fst (k_bwd (select_flash_attn_impl attn_type bwd_only) a))) /\
         contrib_v rho j
         = write_view (if h <? j then Some slice_to_m1 else None) old_v
                      (snd (k_bwd (select_flash_attn_impl attn_type bwd_only) a))) /\
    Permutation (map (holder rho) (seq 0 P)) (seq 0 P) /\
    prev_rank rho = holder rho (P - 1).
Proof.
  intros Hc HP HL _ rho Hrho.
  split; [|split; [|split; [|split; [|split]]]].
  - apply (bwd_first_step (ring_group rho)). exact HP.
  - intros s H0 Hs.
    destruct (bwd_later_step (ring_group rho) (dout rho) (q rho) (k rho) (v rho)
                (out rho) (softmax_lse rho) softmax_scale dropout_p causal
                window_size softcap alibi_slopes deterministic attn_type s w H0 Hs)
      as (st & st' & w1 & pre & post & Hrun & Hrun' & Hker & Hpre & Hpost & Hndk
          & Hndv & Hbk & Hbv & Hdk & Hdv & Ek & Ev).
    unfold view_kv in Hbk, Hbv. cbn [group_of ring_group pg_rank] in *.
    destruct (HL rho (s - 1)) as (_ & Lk & Lv); [exact Hrho|lia|].
    exists st, st', w1, pre, post. do 2 eexists.
    split; [exact Hrun|]. split; [exact Hrun'|].
    split; [exact Hker|]. split; [exact Hpre|].
    split; [exact Hndk|]. split; [exact Hndv|].
    split; [exact Lk|]. split; [exact Lv|].
    split; [exact Hbk|]. split; [exact Hbv|].
    split; [exact Hdk|]. split; [exact Hdv|].
    split; [exact Ek|]. split; [exact Ev|].
    split; [|exact Hpost].
    intros Hlt. apply Nat.ltb_lt in Hlt. unfold dk_of, dv_of. rewrite Ek, Ev, Hlt.
    split; apply last_row_iadd_rows_to_m1.
  - pose proof (stripe_flash_attn_backward_run (ring_group rho) (dout rho) (q rho)
                  (k rho) (v rho) (out rho) (softmax_lse rho) softmax_scale
                  dropout_p causal window_size softcap alibi_slopes deterministic
                  attn_type w Hc HP) as Hrun.
    cbn [group_of ring_group pg_world_size] in Hrun.
    destruct (HL rho (P - 1)) as (_ & Lk & Lv); [exact Hrho|lia|].
    destruct (grad_of_owner rho (P - 1) HL Hrho) as (Gk & Gv); [lia|].
    destruct (ring_grad_dtype rho (P - 1) HL Hrho) as (Dk & Dv); [lia|].
    rewrite prev_rank_holder, Gk in Lk by exact HP.
    rewrite prev_rank_holder, Gv in Lv by exact HP.
    unfold recv_grad in Hrun. cbn [group_of ring_group pg_deliver] in Hrun.
    rewrite Lk, Lv, (tensor_eta _ _ Dk), (tensor_eta _ _ Dv) in Hrun.
    do 2 eexists. exact Hrun.
  - intros j Hj h.
    pose proof (holder_lt rho j HP) as Hh. fold h in Hh.
    pose proof (stripe_flash_attn_backward_run (ring_group h) (dout h) (q h)
                  (k h) (v h) (out h) (softmax_lse h) softmax_scale
                  dropout_p causal window_size softcap alibi_slopes deterministic
                  attn_type w Hc HP) as Hrun.
    cbn [group_of ring_group pg_world_size] in Hrun.
    destruct (shard_of_owner rho j HL Hrho Hj) as (Sk & Sv). fold h in Sk, Sv.
    destruct (bwd_bufs_S (ring_group h) (dout h) (q h) (k h) (v h) (out h)
                (softmax_lse h) softmax_scale dropout_p causal window_size softcap
                alibi_slopes deterministic attn_type j) as (_ & Ek & Ev).
    unfold view_kv, bwd_res in Ek, Ev. cbn [group_of ring_group pg_rank] in Ek, Ev.
    do 2 eexists. exists (at_rank bwd_call h j). do 2 eexists.
    split; [exact Hrun|].
    split.
    { unfold kernel_calls_bwd. rewrite flat_map_app. fold kernel_calls_bwd.
      rewrite kernel_calls_bwd_trace. cbn [flat_map]. rewrite app_nil_r.
      now apply nth_error_map_seq. }
    split; [|split; [|split; [|split; [exact Ek|exact Ev]]]].
    + unfold bwd_call, bwd_call_with. cbn [group_of ring_group pg_rank].
      destruct (h <? j); reflexivity.
    + unfold bwd_call, bwd_call_with. cbn [group_of ring_group pg_rank].
      unfold k_at in Sk. cbn [group_of ring_group] in Sk.
      destruct (h <? j); cbn [ba_k rows t_data]; now rewrite Sk.
    + unfold bwd_call, bwd_call_with. cbn [group_of ring_group pg_rank].
      unfold v_at in Sv. cbn [group_of ring_group] in Sv.
      destruct (h <? j); cbn [ba_v rows t_data]; now rewrite Sv.
  - now apply holders_permutation.
  - now apply prev_rank_holder.
Qed.

End Ring.

(** ** Misconfiguration and the entry points *)

(** Line 217 does not raise: the caller passed a scale, or the head
    dimension of [q] is positive. *)
Definition scale_defined (q : Tensor) (softmax_scale : option PyFloat) : Prop :=
  softmax_scale <> None \/ 0 < shape_last q.

(** A block with a first head vector, which is empty: its head dimension
    is 0. *)
Definition head_dim_zero (q : Tensor) : Prop :=
  exists hs rs bs, t_data q = (([] :: hs) :: rs) :: bs.

(** The scale the autograd forward works with once line 217 is past: the
    caller's, or [q.shape[-1] ** (-0.5)] when the caller passed [None]. *)
Definition resolved_scale (q : Tensor) (softmax_scale : option PyFloat) : PyFloat :=
  match softmax_scale with
  | None => pow_neg_half (shape_last q)
  | Some s => s
  end.

Lemma head_dim_zero_shape (q : Tensor) : head_dim_zero q -> shape_last q = 0.
Proof. intros (hs & rs & bs & H). unfold shape_last. now rewrite H. Qed.

Lemma scale_resolves (q : Tensor) (scale : option PyFloat) (w : world) :
  scale_defined q scale ->
  match scale with
  | None => py_pow_neg_half (shape_last q)
  | Some s => ret s
  end w = (inr (resolved_scale q scale), w).
Proof.
  intros [H|H]; destruct scale as [s|]; try reflexivity; [now elim H|].
  unfold py_pow_neg_half, resolved_scale. destruct (shape_last q); [lia|reflexivity].
Qed.

(** Lines 219-247, with the scale line 217 has settled. *)
Definition autograd_forward_body (q k v : Tensor) (dropout_p softmax_scale : PyFloat)
           (causal : bool) (window_size : Z * Z) (softcap : PyFloat)
           (alibi_slopes : option Tensor) (deterministic return_softmax : bool)
           (group : option ProcessGroup) (attn_type : FlashAttentionImpl)
  : M fwd_result :=
  py_assert (is_none alibi_slopes) None ;;;
  k <- contiguous k ;;
  v <- contiguous v ;;
  '(out, softmax_lse) <-
    stripe_flash_attn_forward group q k v softmax_scale dropout_p causal
                              window_size softcap alibi_slopes false attn_type ;;
  set_ctx (mkCtx (Some (q, k, v, out, softmax_lse)) (Some dropout_p)
                 (Some softmax_scale) (Some causal) (Some window_size)
                 (Some softcap) (Some alibi_slopes) (Some deterministic)
                 (Some group) (Some attn_type)) ;;;
  ret (if negb return_softmax then OutOnly out else OutLse out softmax_lse).

Lemma scale_defined_dec (q : Tensor) (scale : option PyFloat) :
  {scale_defined q scale} + {scale = None /\ shape_last q = 0}.
Proof.
  destruct scale as [s|]; [left; left; discriminate|].
  destruct (shape_last q) as [|n] eqn:Hn; [right; split; reflexivity|].
  left; right. rewrite Hn. lia.
Qed.

Lemma autograd_forward_past_217 q k v dropout_p scale causal window_size softcap alibi
      det rs group attn w :
  scale_defined q scale ->
  StripeFlashAttnFunc_forward q k v dropout_p scale causal window_size softcap
                              alibi det rs group attn w
  = autograd_forward_body q k v dropout_p (resolved_scale q scale) causal
                          window_size softcap alibi det rs group attn w.
Proof.
  intros H. unfold StripeFlashAttnFunc_forward. unfold bind at 1.
  rewrite (scale_resolves q scale w H). reflexivity.
Qed.

Lemma autograd_forward_at_217 q k v dropout_p causal window_size softcap alibi
      det rs group attn w :
  shape_last q = 0 ->
  StripeFlashAttnFunc_forward q k v dropout_p None causal window_size softcap
                              alibi det rs group attn w
  = (inl ZeroDivisionError, w).
Proof.
  intros H. unfold StripeFlashAttnFunc_forward, py_pow_neg_half.
  rewrite H. reflexivity.
Qed.

Lemma autograd_forward_zero_head_dim q k v dropout_p causal window_size softcap alibi
      det rs group attn w :
  head_dim_zero q ->
  StripeFlashAttnFunc_forward q k v dropout_p None causal window_size softcap
                              alibi det rs group attn w
  = (inl ZeroDivisionError, w).
Proof.
  intros H. apply autograd_forward_at_217. now apply head_dim_zero_shape.
Qed.

Lemma autograd_forward_alibi q k v dropout_p scale causal window_size softcap a
      det rs group attn w :
  scale_defined q scale ->
  StripeFlashAttnFunc_forward q k v dropout_p scale causal window_size softcap
                              (Some a) det rs group attn w
  = (inl (AssertionError None), w).
Proof.
  intros H. now rewrite autograd_forward_past_217.
Qed.

Lemma autograd_forward_not_causal q k v dropout_p scale window_size softcap
      det rs group attn w :
  scale_defined q scale ->
  StripeFlashAttnFunc_forward q k v dropout_p scale false window_size softcap
                              None det rs group attn w
  = (inl (AssertionError (Some causal_msg_fwd)),
     emit [EvContiguous k; EvContiguous v] w).
Proof.
  intros H. rewrite autograd_forward_past_217 by exact H.
  unfold autograd_forward_body, stripe_flash_attn_forward, contiguous, tell, bind,
    ret, py_assert, emit; cbn.
  rewrite <- List.app_assoc. reflexivity.
Qed.

(** C7, as the code has it: with [causal] false the forward and the backward driver
    raise their assertion with the world as it was: no event, no change of
    the context.  Through the autograd forward, once line 217 is past (a
    scale was passed or the head dimension of [q] is positive), an
    [alibi_slopes] raises the assertion of line 219 in the same way, and
    [causal] false is met by the assertion of the driver after K and V
    were made contiguous, still before any ring or kernel event and with
    the context unchanged.  With no scale and a head dimension of 0, line
    217 raises ZeroDivisionError before either assertion. *)
Theorem C7_misconfiguration_fails_before_any_step :
  (forall pg q k v scale dropout_p window_size softcap alibi det attn w,
     stripe_flash_attn_forward pg q k v scale dropout_p false window_size softcap
                               alibi det attn w
     = (inl (AssertionError (Some causal_msg_fwd)), w)) /\
  (forall pg dout q k v out lse scale dropout_p window_size softcap alibi det attn w,
     stripe_flash_attn_backward pg dout q k v out lse scale dropout_p false
                                window_size softcap alibi det attn w
     = (inl (AssertionError (Some causal_msg_bwd)), w)) /\
  (forall q k v dropout_p scale causal window_size softcap a det rs group attn w,
     scale_defined q scale ->
     StripeFlashAttnFunc_forward q k v dropout_p scale causal window_size softcap
                                 (Some a) det rs group attn w
     = (inl (AssertionError None), w)) /\
  (forall q k v dropout_p scale window_size softcap det rs group attn w,
     scale_defined q scale ->
     StripeFlashAttnFunc_forward q k v dropout_p scale false window_size softcap
                                 None det rs group attn w
     = (inl (AssertionError (Some causal_msg_fwd)),
        emit [EvContiguous k; EvContiguous v] w)) /\
  (forall q k v dropout_p causal window_size softcap alibi det rs group attn w,
     head_dim_zero q ->
     StripeFlashAttnFunc_forward q k v dropout_p None causal window_size softcap
                                 alibi det rs group attn w
     = (inl ZeroDivisionError, w)).
Proof.
  split; [|split; [|split; [|split]]]; intros; try reflexivity.
  - now apply autograd_forward_alibi.
  - now apply autograd_forward_not_causal.
  - now apply autograd_forward_zero_head_dim.
Qed.

(** The context with its [deterministic] field blanked. *)
Definition ctx_without_deterministic (c : Ctx) : Ctx :=
  mkCtx (ctx_saved c) (ctx_dropout_p c) (ctx_softmax_scale c) (ctx_causal c)
        (ctx_window_size c) (ctx_softcap c) (ctx_alibi_slopes c) None
        (ctx_group c) (ctx_attn_type c).

Lemma autograd_forward_body_deterministic q k v dropout_p sc causal window_size
      softcap alibi rs group attn w d1 d2 :
  let run d := autograd_forward_body q k v dropout_p sc causal window_size softcap
                 alibi d rs group attn w in
  fst (run d1) = fst (run d2) /\
  w_trace (snd (run d1)) = w_trace (snd (run d2)) /\
  ctx_without_deterministic (w_ctx (snd (run d1)))
  = ctx_without_deterministic (w_ctx (snd (run d2))) /\
  (forall pg sc',
     stripe_flash_attn_forward pg q k v sc' dropout_p causal window_size softcap
                               alibi d1 attn
     = stripe_flash_attn_forward pg q k v sc' dropout_p causal window_size softcap
                                 alibi d2 attn) /\
  (forall res d, fst (run d) = inr res ->
     ctx_deterministic (w_ctx (snd (run d))) = Some d /\
     forall dout,
       exists k' v' out lse sc',
         ctx_saved (w_ctx (snd (run d))) = Some (q, k', v', out, lse) /\
         StripeFlashAttnFunc_backward dout (snd (run d))
         = stripe_flash_attn_backward group dout q k' v' out lse sc' dropout_p
                                      causal window_size softcap alibi d attn
                                      (snd (run d))).
Proof.
  intros. subst run. cbv beta.
  unfold autograd_forward_body, StripeFlashAttnFunc_backward, get_ctx.
  destruct alibi as [a|]; cbn [is_none py_assert].
  - unfold bind, raise; cbn. repeat split; intros; discriminate.
  - unfold contiguous, tell, set_ctx, need, bind, ret; cbn [fst snd].
    destruct (stripe_flash_attn_forward _ _ _ _ _ _ _ _ _ _ _ _ _)
      as [[e|[o l]] w'] eqn:Hf; cbn [fst snd w_ctx w_trace].
    + repeat split; intros; discriminate.
    + repeat split; intros; try reflexivity.
      do 5 eexists. split; reflexivity.
Qed.

(** C10: two runs of the autograd forward that differ only in
    [deterministic] return the same result and leave the same events; the
    driver itself ignores the flag.  After a successful run the contexts
    differ in the [deterministic] field only, which holds the caller's
    value, and the autograd backward hands that value to the backward
    driver. *)
Theorem C10_forward_independent_of_deterministic :
  forall q k v dropout_p scale causal window_size softcap alibi rs group attn w d1 d2,
    let run d := StripeFlashAttnFunc_forward q k v dropout_p scale causal
                   window_size softcap alibi d rs group attn w in
    fst (run d1) = fst (run d2) /\
    w_trace (snd (run d1)) = w_trace (snd (run d2)) /\
    ctx_without_deterministic (w_ctx (snd (run d1)))
    = ctx_without_deterministic (w_ctx (snd (run d2))) /\
    (forall pg sc,
       stripe_flash_attn_forward pg q k v sc dropout_p causal window_size softcap
                                 alibi d1 attn
       = stripe_flash_attn_forward pg q k v sc dropout_p causal window_size softcap
                                   alibi d2 attn) /\
    (forall res d, fst (run d) = inr res ->
       ctx_deterministic (w_ctx (snd (run d))) = Some d /\
       forall dout,
         exists k' v' out lse sc,
           ctx_saved (w_ctx (snd (run d))) = Some (q, k', v', out, lse) /\
           StripeFlashAttnFunc_backward dout (snd (run d))
           = stripe_flash_attn_backward group dout q k' v' out lse sc dropout_p
                                        causal window_size softcap alibi d attn
                                        (snd (run d))).
Proof.
  intros. subst run. cbv beta.
  destruct (scale_defined_dec q scale) as [Hs|(Hs & Hz)].
  - destruct (autograd_forward_body_deterministic q k v dropout_p
                (resolved_scale q scale) causal window_size softcap alibi rs group
                attn w d1 d2) as (H1 & H2 & H3 & H4 & H5).
    rewrite !(autograd_forward_past_217 _ _ _ _ _ _ _ _ _ _ _ _ _ _ Hs).
    split; [exact H1|]. split; [exact H2|]. split; [exact H3|]. split; [exact H4|].
    intros res d. rewrite (autograd_forward_past_217 _ _ _ _ _ _ _ _ _ _ _ _ _ _ Hs).
    apply H5.
  - subst scale. rewrite !(autograd_forward_at_217 _ _ _ _ _ _ _ _ _ _ _ _ _ Hz).
    split; [reflexivity|]. split; [reflexivity|]. split; [reflexivity|].
    split; [reflexivity|].
    intros res d. rewrite (autograd_forward_at_217 _ _ _ _ _ _ _ _ _ _ _ _ _ Hz).
    discriminate.
Qed.

(** How a call that leaves [causal] at its default ends.  It never
    succeeds and never touches the context.  Once line 217 is past it ends
    on the assertion about [alibi_slopes] when one was passed, otherwise
    on the causal assertion of the forward driver, after K and V were made
    contiguous; with no scale and a head dimension of 0 it ends on the
    ZeroDivisionError of line 217. *)
Definition fails_before_the_ring (kw : kwargs) (q k v : Tensor) (run : M fwd_result)
  : Prop :=
  (forall w, exists e w', run w = (inl e, w') /\ w_ctx w' = w_ctx w) /\
  (scale_defined q (default None (kw_softmax_scale kw)) ->
   forall w,
     run w = match default None (kw_alibi_slopes kw) with
             | Some _ => (inl (AssertionError None), w)
             | None => (inl (AssertionError (Some causal_msg_fwd)),
                        emit [EvContiguous k; EvContiguous v] w)
             end) /\
  (default None (kw_softmax_scale kw) = None -> head_dim_zero q ->
   forall w, run w = (inl ZeroDivisionError, w)).

Lemma apply_with_defaults_fails (kw : kwargs) (q k v : Tensor) :
  kw_causal kw <> Some true ->
  fails_before_the_ring kw q k v (apply_with_defaults q k v kw).
Proof.
  intros Hc. unfold apply_with_defaults.
  assert (Hd : default false (kw_causal kw) = false).
  { destruct (kw_causal kw) as [[|]|]; try reflexivity. now elim Hc. }
  rewrite Hd.
  assert (Hyes : scale_defined q (default None (kw_softmax_scale kw)) ->
                 forall w,
                   StripeFlashAttnFunc_forward q k v
                     (default float_zero (kw_dropout_p kw))
                     (default None (kw_softmax_scale kw)) false
                     (default ((-1)%Z, (-1)%Z) (kw_window_size kw))
                     (default float_zero (kw_softcap kw))
                     (default None (kw_alibi_slopes kw))
                     (default false (kw_deterministic kw))
                     (default false (kw_return_attn_probs kw))
                     (default None (kw_group kw)) (default FA (kw_attn_type kw)) w
                   = match default None (kw_alibi_slopes kw) with
                     | Some _ => (inl (AssertionError None), w)
                     | None => (inl (AssertionError (Some causal_msg_fwd)),
                                emit [EvContiguous k; EvContiguous v] w)
                     end).
  { intros Hs w. destruct (default None (kw_alibi_slopes kw)) as [a|].
    - now apply autograd_forward_alibi.
    - now apply autograd_forward_not_causal. }
  split; [|split; [exact Hyes|]].
  - intros w.
    destruct (default None (kw_softmax_scale kw)) as [s|] eqn:Hsc.
    + rewrite Hyes by (left; discriminate).
      destruct (default None (kw_alibi_slopes kw)); do 2 eexists; split; reflexivity.
    + destruct (shape_last q) as [|n] eqn:Hn.
      * unfold StripeFlashAttnFunc_forward, py_pow_neg_half. rewrite Hn.
        do 2 eexists; split; reflexivity.
      * rewrite Hyes by (right; lia).
        destruct (default None (kw_alibi_slopes kw)); do 2 eexists; split; reflexivity.
  - intros Hsc Hz w. rewrite Hsc. now apply autograd_forward_zero_head_dim.
Qed.

(** C9, as the code has it: the three entry points default [causal] to [False], and
    a call that does not pass [causal=True] never succeeds.  It fails
    before any ring step: on the ZeroDivisionError of line 217 when no
    scale was passed and the head dimension of [q] is 0; otherwise on the
    assertion about [alibi_slopes] when one was passed; otherwise on the
    causal assertion of the forward driver. *)
Theorem C9_default_causal_fails_an_assertion (kw : kwargs) :
  kw_causal kw <> Some true ->
  (forall q k v, fails_before_the_ring kw q k v (stripe_flash_attn_func q k v kw)) /\
  (forall qkv,
     fails_before_the_ring kw
       (mkTensor (qkv_dtype qkv) (map (map (fun x => fst (fst x))) (qkv_data qkv)))
       (mkTensor (qkv_dtype qkv) (map (map (fun x => snd (fst x))) (qkv_data qkv)))
       (mkTensor (qkv_dtype qkv) (map (map (fun x => snd x)) (qkv_data qkv)))
       (stripe_flash_attn_qkvpacked_func qkv kw)) /\
  (forall q kv,
     fails_before_the_ring kw q
       (mkTensor (kv_dtype kv) (map (map fst) (kv_data kv)))
       (mkTensor (kv_dtype kv) (map (map snd) (kv_data kv)))
       (stripe_flash_attn_kvpacked_func q kv kw)).
Proof.
  intros Hc. repeat split; intros;
    unfold stripe_flash_attn_func, stripe_flash_attn_qkvpacked_func,
      stripe_flash_attn_kvpacked_func;
    now apply apply_with_defaults_fails.
Qed.

(** ** More about a run of the two drivers *)


(** One round of the K/V channel: the two transfers, their commit and the
    wait that ends them. *)
Definition kv_round (g : ProcessGroup) (k v : Tensor) (s : nat) : list event :=
  [EvSendRecv 0 (shard_at g k 0 s) None; EvSendRecv 0 (shard_at g v 1 s) None;
   EvCommit 0; EvWait 0].

(** One round of the gradient channel: [dk s] and [dv s] go out, each into
    the receive buffer the caller supplies, which is the block sent in the
    round before (none in the first round). *)
Definition grad_round (dk dv : nat -> Tensor) (s : nat) : list event :=
  [EvSendRecv 1 (dk s) (after s dk); EvSendRecv 1 (dv s) (after s dv);
   EvCommit 1; EvWait 1].

Section RunFacts.

Variables (process_group : option ProcessGroup) (dout q k v out : Tensor)
          (softmax_lse : AnyTensor)
          (softmax_scale dropout_p : PyFloat) (causal : bool)
          (window_size : Z * Z) (softcap : PyFloat)
          (alibi_slopes : option Tensor) (deterministic : bool)
          (attn_type : FlashAttentionImpl).

Let g := group_of process_group.
Let P := pg_world_size g.
Let r := pg_rank g.

Local Abbreviation run_forward :=
  (stripe_flash_attn_forward process_group q k v softmax_scale dropout_p causal
                             window_size softcap alibi_slopes deterministic
                             attn_type).
Local Abbreviation run_backward :=
  (stripe_flash_attn_backward process_group dout q k v out softmax_lse
                              softmax_scale dropout_p causal window_size softcap
                              alibi_slopes deterministic attn_type).
Local Abbreviation f_trace :=
  (fwd_trace process_group q k v softmax_scale dropout_p causal window_size
             softcap alibi_slopes attn_type).
Local Abbreviation f_events :=
  (fwd_events process_group q k v softmax_scale dropout_p causal window_size
              softcap alibi_slopes attn_type).
Local Abbreviation b_trace :=
  (bwd_trace process_group dout q k v out softmax_lse softmax_scale dropout_p
             causal window_size softcap alibi_slopes deterministic attn_type).
Local Abbreviation b_events :=
  (bwd_events process_group dout q k v out softmax_lse softmax_scale dropout_p
              causal window_size softcap alibi_slopes deterministic attn_type).
Local Abbreviation b_dq :=
  (bwd_dq process_group dout q k v out softmax_lse softmax_scale dropout_p
          causal window_size softcap alibi_slopes deterministic attn_type).
Local Abbreviation b_dk :=
  (bwd_dk process_group dout q k v out softmax_lse softmax_scale dropout_p
          causal window_size softcap alibi_slopes deterministic attn_type).
Local Abbreviation b_dv :=
  (bwd_dv process_group dout q k v out softmax_lse softmax_scale dropout_p
          causal window_size softcap alibi_slopes deterministic attn_type).
Local Abbreviation b_buf :=
  (buf_q process_group dout q k v out softmax_lse softmax_scale dropout_p
         causal window_size softcap alibi_slopes deterministic attn_type).
Local Abbreviation b_loop :=
  (bwd_loop dout q out softmax_lse softmax_scale dropout_p causal window_size
            softcap alibi_slopes deterministic attn_type process_group k v).

Lemma lse_slices_trace (n : nat) :
  lse_slices (b_trace n) = repeat (rows_axis2 slice_from1 softmax_lse) (n - S r).
Proof.
  induction n as [|n IH]; [reflexivity|].
  rewrite bwd_trace_S. unfold lse_slices in *. rewrite flat_map_app, IH.
  pose proof (lse_slices_events process_group dout q k v out softmax_lse
                softmax_scale dropout_p causal window_size softcap alibi_slopes
                deterministic attn_type n) as H.
  unfold lse_slices in H. rewrite H. fold g r.
  destruct (r <? n) eqn:Hr.
  - apply Nat.ltb_lt in Hr. replace (S n - S r) with (S (n - S r)) by lia.
    cbn [repeat]. now rewrite repeat_cons.
  - apply Nat.ltb_ge in Hr. replace (S n - S r) with (n - S r) by lia.
    apply app_nil_r.
Qed.

(** X1: the backward call on rank [r] of [P] makes [P - 1 - r] contiguous
    copies of [softmax_lse[:, :, 1:]], one per Shifted step and all equal;
    the last rank makes none. *)
Theorem backward_lse_copies_count (w : world) :
  causal = true -> 0 < P ->
  exists res evs,
    run_backward w = (inr res, emit evs w) /\
    lse_slices evs = repeat (rows_axis2 slice_from1 softmax_lse) (P - 1 - r) /\
    (P <= r + 1 -> lse_slices evs = []).
Proof.
  intros Hc HP.
  pose proof (stripe_flash_attn_backward_run process_group dout q k v out
                softmax_lse softmax_scale dropout_p causal window_size softcap
                alibi_slopes deterministic attn_type w Hc HP) as Hrun.
  fold g P in Hrun. do 2 eexists. split; [exact Hrun|].
  assert (Hl : lse_slices (b_trace P ++ [EvWait 1])
               = repeat (rows_axis2 slice_from1 softmax_lse) (P - 1 - r)).
  { unfold lse_slices. rewrite flat_map_app. fold lse_slices.
    rewrite lse_slices_trace. cbn [flat_map]. rewrite app_nil_r.
    f_equal. lia. }
  split; [exact Hl|]. intros Hr. rewrite Hl.
  replace (P - 1 - r) with 0 by lia. reflexivity.
Qed.

Lemma chan0_fwd_events (s : nat) :
  filter (on_channel 0) (f_events s) = if s + 1 =? P then [] else kv_round g k v s.
Proof. unfold fwd_events. fold g P. destruct (s + 1 =? P); reflexivity. Qed.

Lemma chan1_fwd_events (s : nat) : filter (on_channel 1) (f_events s) = [].
Proof. unfold fwd_events. fold g P. destruct (s + 1 =? P); reflexivity. Qed.

Lemma chan0_bwd_events (s : nat) :
  filter (on_channel 0) (b_events s) = if s + 1 =? P then [] else kv_round g k v s.
Proof.
  unfold bwd_events. fold g P r.
  destruct (s + 1 =? P); destruct (r <? s); destruct s; reflexivity.
Qed.

Lemma chan1_bwd_events (s : nat) :
  filter (on_channel 1) (b_events s)
  = (match s with 0 => [] | S _ => [EvWait 1] end)
    ++ [EvSendRecv 1 (b_dk s) (after s b_dk); EvSendRecv 1 (b_dv s) (after s b_dv);
        EvCommit 1].
Proof.
  unfold bwd_events. fold g P r.
  destruct (s + 1 =? P); destruct (r <? s); destruct s; reflexivity.
Qed.

(** The K/V channel of a prefix of either run: whole rounds, one per step
    but the last. *)
Lemma chan0_rounds (events : nat -> list event) (n : nat) :
  (forall s, filter (on_channel 0) (events s)
             = if s + 1 =? P then [] else kv_round g k v s) ->
  n <= P ->
  filter (on_channel 0) (flat_map events (seq 0 n))
  = flat_map (kv_round g k v) (seq 0 (Nat.min n (P - 1))).
Proof.
  intros He. induction n as [|n IH]; intros Hn; [reflexivity|].
  rewrite seq_S, flat_map_app, filter_app, IH by lia.
  cbn [Nat.add flat_map]. rewrite app_nil_r, He.
  destruct (n + 1 =? P) eqn:HnP.
  - apply Nat.eqb_eq in HnP. rewrite app_nil_r. f_equal. f_equal. lia.
  - apply Nat.eqb_neq in HnP.
    replace (Nat.min (S n) (P - 1)) with (S n) by lia.
    replace (Nat.min n (P - 1)) with n by lia.
    rewrite seq_S, flat_map_app. cbn [Nat.add flat_map]. now rewrite app_nil_r.
Qed.

Lemma chan1_fwd_trace (n : nat) : filter (on_channel 1) (f_trace n) = [].
Proof.
  unfold fwd_trace. induction n as [|n IH]; [reflexivity|].
  rewrite seq_S, flat_map_app, filter_app, IH. cbn [Nat.add flat_map app].
  rewrite app_nil_r. apply chan1_fwd_events.
Qed.

(** The gradient channel of a prefix of the backward run, closed by the
    wait that follows it: whole rounds, one per step. *)
Lemma chan1_rounds (n : nat) :
  filter (on_channel 1) (b_trace n) ++ (match n with 0 => [] | S _ => [EvWait 1] end)
  = flat_map (grad_round b_dk b_dv) (seq 0 n).
Proof.
  induction n as [|n IH]; [reflexivity|].
  rewrite bwd_trace_S, filter_app, chan1_bwd_events.
  rewrite seq_S, flat_map_app, <- IH. cbn [Nat.add flat_map].
  rewrite app_nil_r. unfold grad_round. rewrite <- !app_assoc. reflexivity.
Qed.

(** X2: the ring traffic of a call comes in rounds, none issued while
    another of its channel is pending and none pending at return.  On the
    K/V channel the forward and the backward call run the same [P - 1]
    rounds: the K and the V shard of the step, no receive buffer supplied,
    a commit, a wait.  On the gradient channel, which only the backward
    call uses, there are [P] rounds: dk and dv of the step, both float32,
    received into the blocks sent one round earlier.  The blocks [k] and
    [v] are float16 or bfloat16, the precisions of the kernels. *)
Theorem ring_traffic_runs_in_rounds (w : world) :
  causal = true -> 0 < P -> reduced_precision k -> reduced_precision v ->
  (exists res evs,
     run_forward w = (inr res, emit evs w) /\
     filter (on_channel 0) evs = flat_map (kv_round g k v) (seq 0 (P - 1)) /\
     filter (on_channel 1) evs = []) /\
  (exists res evs (dk dv : nat -> Tensor),
     run_backward w = (inr res, emit evs w) /\
     filter (on_channel 0) evs = flat_map (kv_round g k v) (seq 0 (P - 1)) /\
     filter (on_channel 1) evs = flat_map (grad_round dk dv) (seq 0 P) /\
     forall s, t_dtype (dk s) = float32 /\ t_dtype (dv s) = float32) /\
  (forall s, t_dtype (shard_at g k 0 s) = t_dtype k /\
             t_dtype (shard_at g v 1 s) = t_dtype v).
Proof.
  intros Hc HP _ _. split; [|split].
  - destruct (stripe_flash_attn_forward_run process_group q k v softmax_scale
                dropout_p causal window_size softcap alibi_slopes attn_type
                deterministic w Hc HP) as (o & l & _ & Hrun).
    fold g P in Hrun. do 2 eexists. split; [exact Hrun|]. split.
    + unfold fwd_trace. rewrite (chan0_rounds _ P chan0_fwd_events) by lia.
      f_equal. f_equal. lia.
    + apply chan1_fwd_trace.
  - pose proof (stripe_flash_attn_backward_run process_group dout q k v out
                  softmax_lse softmax_scale dropout_p causal window_size softcap
                  alibi_slopes deterministic attn_type w Hc HP) as Hrun.
    fold g P in Hrun. eexists. exists (b_trace P ++ [EvWait 1]), b_dk, b_dv.
    split; [exact Hrun|]. split; [|split].
    + rewrite filter_app. cbn [filter on_channel Nat.eqb]. rewrite app_nil_r.
      unfold bwd_trace. rewrite (chan0_rounds _ P chan0_bwd_events) by lia.
      f_equal. f_equal. lia.
    + rewrite filter_app. cbn [filter on_channel Nat.eqb].
      rewrite <- (chan1_rounds P). destruct P; [lia|reflexivity].
    + intros s. split; apply bwd_grad_dtype.
  - intros s. split; apply shard_at_dtype.
Qed.


(** X4: on a ring of one rank the forward call is a single kernel call on
    the whole blocks and communicates nothing.  The backward call is a
    single kernel call too, but it still sends its dk and dv round the
    ring, waits, and returns what came back in the receive buffers, not
    the blocks it computed. *)
Theorem single_rank_run (w : world) :
  causal = true -> P = 1 ->
  (exists res,
     run_forward w
     = (inr res,
        emit [EvFwdKernel attn_type fwd_only
                (mkFwdArgs q k v dropout_p softmax_scale causal window_size
                           softcap alibi_slopes (true && gt_zero dropout_p))] w)) /\
  let a := mkBwdArgs dout q k v out softmax_lse
                     (mkTensor (t_dtype q) (uninitialized q))
                     (mkTensor (t_dtype k) (uninitialized k))
                     (mkTensor (t_dtype v) (uninitialized v))
                     dropout_p softmax_scale causal window_size softcap
                     alibi_slopes deterministic None in
  let res := k_bwd (select_flash_attn_impl attn_type bwd_only) a in
  run_backward w
  = (inr (to (t_dtype q) (to float32 (mkTensor (t_dtype q) (fst (fst res)))),
          to (t_dtype q) (mkTensor float32 (pg_deliver g 1 0)),
          to (t_dtype q) (mkTensor float32 (pg_deliver g 1 1))),
     emit [EvBwdKernel attn_type bwd_only a;
           EvSendRecv 1 (to float32 (mkTensor (t_dtype k) (snd (fst res)))) None;
           EvSendRecv 1 (to float32 (mkTensor (t_dtype v) (snd res))) None;
           EvCommit 1; EvWait 1] w).
Proof.
  intros Hc HP1. assert (HP : 0 < P) by lia. split.
  - destruct (stripe_flash_attn_forward_run process_group q k v softmax_scale
                dropout_p causal window_size softcap alibi_slopes attn_type
                deterministic w Hc HP) as (o & l & _ & Hrun).
    fold g P in Hrun. rewrite HP1 in Hrun. eexists. rewrite Hrun.
    unfold fwd_trace, fwd_events, fwd_call. cbn [seq flat_map]. fold g P r.
    rewrite HP1. cbn. reflexivity.
  - pose proof (stripe_flash_attn_backward_run process_group dout q k v out
                  softmax_lse softmax_scale dropout_p causal window_size softcap
                  alibi_slopes deterministic attn_type w Hc HP) as Hrun.
    fold g P in Hrun. rewrite HP1 in Hrun. cbv zeta. rewrite Hrun.
    destruct (bwd_bufs_S process_group dout q k v out softmax_lse softmax_scale
                dropout_p causal window_size softcap alibi_slopes deterministic
                attn_type 0) as (Eq & Ek & Ev).
    unfold bwd_trace, bwd_events, bwd_dk, bwd_dv. cbn [seq flat_map bwd_grad bwd_dq Nat.sub].
    fold g P r. rewrite HP1, Eq, Ek, Ev. reflexivity.
Qed.

End RunFacts.

(** ** The autograd context across a call *)

(** A computation that leaves the autograd context as it found it, whether
    it returns or raises. *)
Definition keeps_ctx {A : Type} (m : M A) : Prop :=
  forall w, w_ctx (snd (m w)) = w_ctx w.

Lemma keeps_ctx_ret {A : Type} (a : A) : keeps_ctx (ret a).
Proof. intros w; reflexivity. Qed.

Lemma keeps_ctx_raise {A : Type} (e : exn) : keeps_ctx (@raise A e).
Proof. intros w; reflexivity. Qed.

Lemma keeps_ctx_tell (e : event) : keeps_ctx (tell e).
Proof. intros w; reflexivity. Qed.

Lemma keeps_ctx_bind {A B : Type} (m : M A) (f : A -> M B) :
  keeps_ctx m -> (forall a, keeps_ctx (f a)) -> keeps_ctx (bind m f).
Proof.
  intros Hm Hf w. unfold bind. specialize (Hm w).
  destruct (m w) as [[e|a] w']; cbn [snd] in *; [exact Hm|].
  now rewrite Hf.
Qed.

Lemma keeps_ctx_need {A : Type} (e : exn) (o : option A) : keeps_ctx (need e o).
Proof. destruct o; intros w; reflexivity. Qed.

Lemma keeps_ctx_py_assert (c : bool) (msg : option string) :
  keeps_ctx (py_assert c msg).
Proof. destruct c; intros w; reflexivity. Qed.

Lemma keeps_ctx_for_each {St : Type} (body : nat -> St -> M St) (l : list nat)
      (st : St) :
  (forall x s, keeps_ctx (body x s)) -> keeps_ctx (for_each body l st).
Proof.
  intros Hb. revert st. induction l as [|x l IH]; intros st; cbn [for_each].
  - apply keeps_ctx_ret.
  - apply keeps_ctx_bind; [apply Hb|exact IH].
Qed.

Ltac keeps :=
  repeat first
    [ apply keeps_ctx_ret | apply keeps_ctx_raise | apply keeps_ctx_tell
    | apply keeps_ctx_need | apply keeps_ctx_py_assert
    | apply keeps_ctx_bind; [|intros]
    | apply keeps_ctx_for_each; intros
    | match goal with
      | |- keeps_ctx (if ?c then _ else _) => destruct c
      | |- keeps_ctx (match ?x with _ => _ end) => destruct x
      end ].

(** The drivers have no hand on the context. *)
Lemma stripe_flash_attn_forward_keeps_ctx pg q k v sc dropout_p causal window_size
      softcap alibi det attn :
  keeps_ctx (stripe_flash_attn_forward pg q k v sc dropout_p causal window_size
                                       softcap alibi det attn).
Proof.
  unfold stripe_flash_attn_forward, fwd_loop, fwd_body, fwd_fetch, fwd_compute,
    fwd_rotate, call_fwd, send_recv, commit, wait.
  keeps.
Qed.

Lemma stripe_flash_attn_backward_keeps_ctx pg dout q k v out lse sc dropout_p causal
      window_size softcap alibi det attn :
  keeps_ctx (stripe_flash_attn_backward pg dout q k v out lse sc dropout_p causal
                                        window_size softcap alibi det attn).
Proof.
  unfold stripe_flash_attn_backward, bwd_loop, bwd_body, bwd_fetch, bwd_compute,
    bwd_accumulate, bwd_rotate, bwd_send_grads, call_bwd, send_recv, commit, wait.
  keeps.
Qed.

(** The scalar arguments of a forward kernel call. *)
Definition fwd_scalars (a : fwd_args)
  : PyFloat * PyFloat * bool * (Z * Z) * PyFloat * option Tensor * bool :=
  (fa_dropout_p a, fa_softmax_scale a, fa_causal a, fa_window_size a,
   fa_softcap a, fa_alibi_slopes a, fa_return_softmax a).

(** The scalar arguments of a backward kernel call. *)
Definition bwd_scalars (a : bwd_args)
  : PyFloat * PyFloat * bool * (Z * Z) * PyFloat * option Tensor * bool
    * option Tensor :=
  (ba_dropout_p a, ba_softmax_scale a, ba_causal a, ba_window_size a,
   ba_softcap a, ba_alibi_slopes a, ba_deterministic a, ba_rng_state a).

Lemma fwd_call_scalars pg q k v sc dropout_p causal window_size softcap alibi s :
  fwd_scalars (fwd_call pg q k v sc dropout_p causal window_size softcap alibi s)
  = (dropout_p, sc, causal, window_size, softcap, alibi, gt_zero dropout_p).
Proof. unfold fwd_call. destruct (s <=? _); reflexivity. Qed.

Lemma bwd_call_scalars pg dout q k v out lse sc dropout_p causal window_size softcap
      alibi det attn s :
  bwd_scalars (bwd_call pg dout q k v out lse sc dropout_p causal window_size
                        softcap alibi det attn s)
  = (dropout_p, sc, causal, window_size, softcap, alibi, det, None).
Proof. unfold bwd_call, bwd_call_with. destruct (_ <? s); reflexivity. Qed.

(** A successful run of the autograd forward, in full. *)
Lemma autograd_forward_run q k v dropout_p scale window_size softcap det rs group
      attn w :
  scale_defined q scale -> 0 < pg_world_size (group_of group) ->
  let sc := resolved_scale q scale in
  let evs := fwd_trace group q k v sc dropout_p true window_size softcap None attn
                       (pg_world_size (group_of group)) in
  exists out lse,
    StripeFlashAttnFunc_forward q k v dropout_p scale true window_size softcap
                                None det rs group attn w
    = (inr (if rs then OutLse out lse else OutOnly out),
       mkWorld (w_trace w ++ [EvContiguous k; EvContiguous v] ++ evs)
               (mkCtx (Some (q, k, v, out, lse)) (Some dropout_p) (Some sc)
                      (Some true) (Some window_size) (Some softcap) (Some None)
                      (Some det) (Some group) (Some attn))) /\
    t_dtype out = t_dtype q.
Proof.
  intros Hs HP sc evs.
  destruct (stripe_flash_attn_forward_run group q k v sc dropout_p true
              window_size softcap None attn false
              (emit [EvContiguous k; EvContiguous v] w) eq_refl HP)
    as (o & l & _ & Hrun).
  exists (to (t_dtype q) o), (squeeze_transpose l). split; [|reflexivity].
  rewrite autograd_forward_past_217 by exact Hs. fold sc.
  unfold autograd_forward_body. cbn [is_none py_assert].
  unfold contiguous, tell, set_ctx, bind, ret. rewrite !emit_emit.
  cbn [app]. rewrite Hrun. unfold emit; cbn [w_trace w_ctx].
  rewrite <- app_assoc. cbn [app]. destruct rs; reflexivity.
Qed.

(** X5: with [causal] set, no [alibi_slopes], a scale or a positive head
    dimension of [q] (so that line 217 does not raise) and a ring of at
    least one rank, the autograd forward succeeds.  It makes K and V contiguous
    before anything else, runs one kernel call per rank of the ring, each
    with the caller's scalars, with the scale [q.shape[-1] ** (-0.5)] when
    the caller passed none, and with [return_softmax] set to
    [dropout_p > 0]; it returns the output in the dtype of [q]; and it
    leaves in the context the five tensors and the nine attributes, the
    resolved scale and the caller's [deterministic] among them. *)
Theorem autograd_forward_saves_context q k v dropout_p scale window_size softcap
        det rs group attn w :
  scale_defined q scale -> 0 < pg_world_size (group_of group) ->
  exists out lse evs,
    StripeFlashAttnFunc_forward q k v dropout_p scale true window_size softcap
                                None det rs group attn w
    = (inr (if rs then OutLse out lse else OutOnly out),
       mkWorld (w_trace w ++ [EvContiguous k; EvContiguous v] ++ evs)
               (mkCtx (Some (q, k, v, out, lse)) (Some dropout_p)
                      (Some (resolved_scale q scale))
                      (Some true) (Some window_size) (Some softcap) (Some None)
                      (Some det) (Some group) (Some attn))) /\
    t_dtype out = t_dtype q /\
    length (kernel_calls_fwd evs) = pg_world_size (group_of group) /\
    Forall (fun a => fwd_scalars a
                     = (dropout_p, resolved_scale q scale, true, window_size,
                        softcap, None, gt_zero dropout_p))
           (kernel_calls_fwd evs).
Proof.
  intros Hs HP.
  destruct (autograd_forward_run q k v dropout_p scale window_size softcap det rs
              group attn w Hs HP) as (o & l & Hrun & Hd).
  do 3 eexists. split; [exact Hrun|]. split; [exact Hd|].
  rewrite kernel_calls_fwd_trace. split; [now rewrite length_map, length_seq|].
  apply Forall_forall. intros a Ha. apply in_map_iff in Ha.
  destruct Ha as (s & <- & _). apply fwd_call_scalars.
Qed.

(** X6: when the autograd forward raises, whatever the exception, the
    context is as the call found it: the attributes are only set once the
    driver has returned. *)
Theorem autograd_forward_failure_keeps_context q k v dropout_p scale causal
        window_size softcap alibi det rs group attn w e :
  fst (StripeFlashAttnFunc_forward q k v dropout_p scale causal window_size
                                   softcap alibi det rs group attn w) = inl e ->
  w_ctx (snd (StripeFlashAttnFunc_forward q k v dropout_p scale causal
                                          window_size softcap alibi det rs group
                                          attn w)) = w_ctx w.
Proof.
  destruct (scale_defined_dec q scale) as [Hs|(Hs & Hz)];
    [|subst scale; now rewrite autograd_forward_at_217].
  rewrite autograd_forward_past_217 by exact Hs. unfold autograd_forward_body.
  destruct alibi as [a|]; cbn [is_none py_assert]; [reflexivity|].
  unfold contiguous, tell, set_ctx, bind, ret.
  match goal with
  | |- context [stripe_flash_attn_forward ?pg ?q ?k ?v ?sc ?dp ?c ?ws ?so ?al ?d ?ty ?w0] =>
      pose proof (stripe_flash_attn_forward_keeps_ctx pg q k v sc dp c ws so al d ty w0)
        as Hk;
      destruct (stripe_flash_attn_forward pg q k v sc dp c ws so al d ty w0)
        as [[e'|[o l]] w'] eqn:Hf
  end; cbn [fst snd] in *.
  - intros _. exact Hk.
  - discriminate.
Qed.

(** X7: [return_softmax] changes the form of the result and nothing
    else: the two runs leave the same events and the same context, and
    where one returns [out] the other returns the same [out] with the
    log-sum-exp that was saved for the backward pass. *)
Theorem return_softmax_only_shapes_result q k v dropout_p scale causal window_size
        softcap alibi det group attn w :
  let run rs := StripeFlashAttnFunc_forward q k v dropout_p scale causal
                  window_size softcap alibi det rs group attn w in
  snd (run true) = snd (run false) /\
  match fst (run false), fst (run true) with
  | inl e, inl e' => e = e'
  | inr (OutOnly out), inr (OutLse out' lse) =>
      out' = out /\
      ctx_saved (w_ctx (snd (run false))) = Some (q, k, v, out, lse)
  | _, _ => False
  end.
Proof.
  cbv zeta.
  destruct (scale_defined_dec q scale) as [Hs|(Hs & Hz)];
    [|subst scale; rewrite !autograd_forward_at_217 by exact Hz;
      split; reflexivity].
  rewrite !autograd_forward_past_217 by exact Hs. unfold autograd_forward_body.
  destruct alibi as [a|]; cbn [is_none py_assert].
  - unfold bind, raise; cbn. split; reflexivity.
  - unfold contiguous, tell, set_ctx, bind, ret.
    destruct (stripe_flash_attn_forward _ _ _ _ _ _ _ _ _ _ _ _ _)
      as [[e|[o l]] w'] eqn:Hf; cbn [fst snd negb w_ctx ctx_saved].
    + split; reflexivity.
    + repeat split.
Qed.

(** X8: with [causal] set, no [alibi_slopes], a scale or a positive head
    dimension of [q] and a ring of at least one rank, the autograd forward
    succeeds and the autograd backward after it succeeds as well.  It runs one kernel call per rank of the ring, each
    with the scalars the forward call was given, the scale the forward
    call resolved and the caller's [deterministic], and with no
    [rng_state]; it returns the three gradients in the dtype of [q] and
    leaves the context as the forward call set it. *)
Theorem autograd_backward_after_forward q k v dropout_p scale window_size softcap
        det rs group attn dout w :
  scale_defined q scale -> 0 < pg_world_size (group_of group) ->
  exists res w1 dq dk dv evs,
    StripeFlashAttnFunc_forward q k v dropout_p scale true window_size softcap
                                None det rs group attn w = (inr res, w1) /\
    StripeFlashAttnFunc_backward dout w1 = (inr (dq, dk, dv), emit evs w1) /\
    t_dtype dq = t_dtype q /\ t_dtype dk = t_dtype q /\ t_dtype dv = t_dtype q /\
    length (kernel_calls_bwd evs) = pg_world_size (group_of group) /\
    Forall (fun a => bwd_scalars a
                     = (dropout_p, resolved_scale q scale, true, window_size,
                        softcap, None, det, None))
           (kernel_calls_bwd evs).
Proof.
  intros Hs HP.
  destruct (autograd_forward_run q k v dropout_p scale window_size softcap det rs
              group attn w Hs HP) as (o & l & Hrun & Hd).
  cbv zeta in Hrun.
  match type of Hrun with
  | _ = (inr _, ?w1) =>
      pose proof (stripe_flash_attn_backward_run group dout q k v o l
                    (resolved_scale q scale) dropout_p true window_size softcap
                    None det attn w1 eq_refl HP) as Hb
  end.
  do 6 eexists. split; [exact Hrun|]. split; [exact Hb|].
  split; [reflexivity|]. split; [reflexivity|]. split; [reflexivity|].
  unfold kernel_calls_bwd. rewrite flat_map_app. fold kernel_calls_bwd.
  rewrite kernel_calls_bwd_trace. cbn [flat_map]. rewrite app_nil_r.
  split; [now rewrite length_map, length_seq|].
  apply Forall_forall. intros a Ha. apply in_map_iff in Ha.
  destruct Ha as (s & <- & _). apply bwd_call_scalars.
Qed.

(** ** The entry points with [causal=True] *)

(** What a forward kernel event of a call with the keyword arguments [kw]
    carries; no backward kernel runs. *)
Definition fwd_event_of (kw : kwargs) (q : Tensor) (e : event) : Prop :=
  match e with
  | EvFwdKernel impl st a =>
      impl = default FA (kw_attn_type kw) /\ st = fwd_only /\
      fwd_scalars a
      = (default float_zero (kw_dropout_p kw),
         resolved_scale q (default None (kw_softmax_scale kw)),
         true,
         default ((-1)%Z, (-1)%Z) (kw_window_size kw),
         default float_zero (kw_softcap kw),
         None,
         gt_zero (default float_zero (kw_dropout_p kw)))
  | EvBwdKernel _ _ _ => False
  | _ => True
  end.

(** How a call that passes [causal=True] and no [alibi_slopes] ends on a
    ring of at least one rank: K and V are made contiguous, the ring runs
    with the defaults filled in, and the output comes back in the dtype of
    [q], alone unless [return_attn_probs] was set. *)
Definition runs_with_defaults (kw : kwargs) (q k v : Tensor) (run : M fwd_result)
  : Prop :=
  forall w, exists out lse evs ctx,
    run w
    = (inr (if default false (kw_return_attn_probs kw)
            then OutLse out lse else OutOnly out),
       mkWorld (w_trace w ++ [EvContiguous k; EvContiguous v] ++ evs) ctx) /\
    t_dtype out = t_dtype q /\
    ctx_saved ctx = Some (q, k, v, out, lse) /\
    ctx_group ctx = Some (default None (kw_group kw)) /\
    length (kernel_calls_fwd evs)
    = pg_world_size (group_of (default None (kw_group kw))) /\
    Forall (fwd_event_of kw q) evs.

Lemma apply_with_defaults_runs (kw : kwargs) (q k v : Tensor) :
  kw_causal kw = Some true -> default None (kw_alibi_slopes kw) = None ->
  0 < pg_world_size (group_of (default None (kw_group kw))) ->
  scale_defined q (default None (kw_softmax_scale kw)) ->
  runs_with_defaults kw q k v (apply_with_defaults q k v kw).
Proof.
  intros Hc Ha HP Hs w. unfold apply_with_defaults. rewrite Hc, Ha. cbn [default].
  destruct (autograd_forward_run q k v (default float_zero (kw_dropout_p kw))
              (default None (kw_softmax_scale kw))
              (default ((-1)%Z, (-1)%Z) (kw_window_size kw))
              (default float_zero (kw_softcap kw))
              (default false (kw_deterministic kw))
              (default false (kw_return_attn_probs kw))
              (default None (kw_group kw)) (default FA (kw_attn_type kw)) w Hs HP)
    as (o & l & Hrun & Hd).
  cbv zeta in Hrun. do 4 eexists. split; [exact Hrun|]. split; [exact Hd|].
  split; [reflexivity|]. split; [reflexivity|].
  rewrite kernel_calls_fwd_trace. split; [now rewrite length_map, length_seq|].
  unfold fwd_trace. apply Forall_flat_map, Forall_forall. intros s _.
  unfold fwd_events.
  destruct (s + 1 =? _); cbn [app]; repeat constructor; apply fwd_call_scalars.
Qed.

(** X9: a call of any of the three entry points that passes
    [causal=True] and no [alibi_slopes] succeeds on a ring of at least one
    rank, provided it passes a scale or the head dimension of its Q block
    is positive (line 217 raises otherwise).  What the caller left out is
    filled in as the signatures say:
    [dropout_p] 0.0, the scale [q.shape[-1] ** (-0.5)], the window
    [(-1, -1)], [softcap] 0.0, the default process group and the [FA]
    kernels; the packed variants work on the slices [0], [1], [2] of axis
    2 of their packed argument. *)
Theorem entry_points_run_with_causal (kw : kwargs) :
  kw_causal kw = Some true -> default None (kw_alibi_slopes kw) = None ->
  0 < pg_world_size (group_of (default None (kw_group kw))) ->
  let scale := default None (kw_softmax_scale kw) in
  (forall q k v,
     scale_defined q scale ->
     runs_with_defaults kw q k v (stripe_flash_attn_func q k v kw)) /\
  (forall qkv,
     let q := mkTensor (qkv_dtype qkv)
                       (map (map (fun x => fst (fst x))) (qkv_data qkv)) in
     scale_defined q scale ->
     runs_with_defaults kw q
       (mkTensor (qkv_dtype qkv) (map (map (fun x => snd (fst x))) (qkv_data qkv)))
       (mkTensor (qkv_dtype qkv) (map (map (fun x => snd x)) (qkv_data qkv)))
       (stripe_flash_attn_qkvpacked_func qkv kw)) /\
  (forall q kv,
     scale_defined q scale ->
     runs_with_defaults kw q
       (mkTensor (kv_dtype kv) (map (map fst) (kv_data kv)))
       (mkTensor (kv_dtype kv) (map (map snd) (kv_data kv)))
       (stripe_flash_attn_kvpacked_func q kv kw)).
Proof.
  intros Hc Ha HP scale. split; [|split]; intros;
    unfold stripe_flash_attn_func, stripe_flash_attn_qkvpacked_func,
      stripe_flash_attn_kvpacked_func;
    now apply apply_with_defaults_runs.
Qed.

(** ** The K and V shards a rank meets in the forward pass *)

Section ForwardRing.

Variable P : nat.
Variables (q k v : nat -> Tensor).
Variables (softmax_scale dropout_p : PyFloat) (window_size : Z * Z)
          (softcap : PyFloat) (alibi_slopes : option Tensor)
          (deterministic : bool) (attn_type : FlashAttentionImpl).

(** [deliver rho c n]: what rank [rho] finds in its [n]-th receive buffer
    of channel [c]. *)
Variable deliver : nat -> nat -> nat -> T4.

(** The rank [s] hops back on the ring from [rho]. *)
Definition owner (rho s : nat) : nat := (rho + (P - s)) mod P.

(** The ranks run the K/V rotation in lockstep: a receive buffer of the
    K/V channel holds what the previous peer handed to the transfer of the
    same number. *)
Definition kv_lockstep : Prop :=
  forall rho s, rho < P -> s + 1 < P ->
    deliver rho 0 (2 * s + 0) = t_data (k_at P k deliver (prev_rank P rho) s) /\
    deliver rho 0 (2 * s + 1) = t_data (v_at P v deliver (prev_rank P rho) s).

Lemma kv_of_sender (rho j : nat) :
  kv_lockstep -> rho < P -> j < P ->
  t_data (k_at P k deliver (holder P rho j) j) = t_data (k rho) /\
  t_data (v_at P v deliver (holder P rho j) j) = t_data (v rho).
Proof.
  intros HL Hrho. induction j as [|j IH]; intros Hj.
  - rewrite holder_0 by exact Hrho. split; reflexivity.
  - unfold k_at, v_at. cbn [shard_at group_of ring_group pg_deliver t_data].
    destruct (HL (holder P rho (S j)) j) as (Hk & Hv); [apply holder_lt; lia|lia|].
    rewrite Hk, Hv, prev_holder by lia. apply IH. lia.
Qed.

Lemma owner_cases (rho s : nat) :
  rho < P -> s < P ->
  (s <= rho -> owner rho s = rho - s) /\ (rho < s -> owner rho s = rho + P - s).
Proof.
  intros Hrho Hs. unfold owner. split; intros H.
  - replace (rho + (P - s)) with (rho - s + 1 * P) by lia.
    rewrite Nat.Div0.mod_add. apply Nat.mod_small. lia.
  - replace (rho + (P - s)) with (rho + P - s) by lia. apply Nat.mod_small. lia.
Qed.

Lemma holder_owner (rho s : nat) :
  rho < P -> s < P -> holder P (owner rho s) s = rho.
Proof.
  intros Hrho Hs. unfold holder, owner. rewrite Nat.Div0.add_mod_idemp_l.
  replace (rho + (P - s) + s) with (rho + 1 * P) by lia.
  rewrite Nat.Div0.mod_add. now apply Nat.mod_small.
Qed.

Lemma owners_permutation (rho : nat) :
  rho < P -> Permutation (map (owner rho) (seq 0 P)) (seq 0 P).
Proof.
  intros Hrho. apply Permutation_map_same_l.
  - apply NoDup_map_NoDup_ForallPairs; [|apply seq_NoDup].
    intros i j Hi Hj Heq. apply in_seq in Hi, Hj.
    destruct (owner_cases rho i) as (Li & Gi); [lia|lia|].
    destruct (owner_cases rho j) as (Lj & Gj); [lia|lia|].
    destruct (Nat.le_gt_cases i rho) as [Hi'|Hi'];
      destruct (Nat.le_gt_cases j rho) as [Hj'|Hj'];
      rewrite ?(Li Hi'), ?(Gi Hi'), ?(Lj Hj'), ?(Gj Hj') in Heq; lia.
  - intros x Hx. apply in_map_iff in Hx. destruct Hx as (j & <- & _).
    apply in_seq. unfold owner.
    pose proof (Nat.mod_upper_bound (rho + (P - j)) P). lia.
Qed.

(** X10: on a ring of [P] ranks that rotate K and V in lockstep, the
    kernel call of step [s] on rank [rho] works on the K and V shard of
    the rank [s] hops back, [(rho - s) mod P]; over the [P] steps a rank
    meets the shard of every rank once.  The step is Full exactly when
    that shard belongs to the rank itself or to a lower one, and Shifted,
    rows [1, end) of Q against rows [0, end-1) of K and V, exactly when it
    belongs to a higher one. *)
Theorem forward_meets_every_shard_once (w : world) :
  0 < P -> kv_lockstep ->
  forall rho, rho < P ->
    exists res evs,
      stripe_flash_attn_forward (ring_group P deliver rho) (q rho) (k rho) (v rho)
                                softmax_scale dropout_p true window_size softcap
                                alibi_slopes deterministic attn_type w
      = (inr res, emit evs w) /\
      (forall s, s < P ->
         let o := owner rho s in
         exists a,
           nth_error (kernel_calls_fwd evs) s = Some a /\
           o < P /\ (s <= rho <-> o <= rho) /\
           (o <= rho ->
              fa_q a = q rho /\
              t_data (fa_k a) = t_data (k o) /\ t_data (fa_v a) = t_data (v o)) /\
           (rho < o ->
              fa_q a = rows slice_from1 (q rho) /\
              t_data (fa_k a) = map (@removelast _) (t_data (k o)) /\
              t_data (fa_v a) = map (@removelast _) (t_data (v o)))) /\
      Permutation (map (owner rho) (seq 0 P)) (seq 0 P).
Proof.
  intros HP HL rho Hrho.
  destruct (stripe_flash_attn_forward_run (ring_group P deliver rho) (q rho) (k rho)
              (v rho) softmax_scale dropout_p true window_size softcap alibi_slopes
              attn_type deterministic w eq_refl HP) as (o' & l' & _ & Hrun).
  cbn [group_of ring_group pg_world_size] in Hrun.
  do 2 eexists. split; [exact Hrun|]. split; [|now apply owners_permutation].
  intros s Hs o. eexists. rewrite kernel_calls_fwd_trace.
  split; [now apply nth_error_map_seq|].
  destruct (owner_cases rho s Hrho Hs) as (Lo & Go). fold o in Lo, Go.
  assert (Ho : o < P) by (apply Nat.mod_upper_bound; lia).
  destruct (kv_of_sender o s HL Ho Hs) as (Sk & Sv).
  unfold o in Sk, Sv. rewrite holder_owner in Sk, Sv by assumption. fold o in Sk, Sv.
  unfold k_at in Sk. unfold v_at in Sv. cbn [group_of ring_group] in Sk, Sv.
  split; [exact Ho|].
  split. { split; intros H; [rewrite Lo by exact H; lia|].
           destruct (Nat.le_gt_cases s rho) as [H'|H']; [exact H'|].
           rewrite Go in H by exact H'. lia. }
  unfold fwd_call. cbn [group_of ring_group pg_rank].
  destruct (s <=? rho) eqn:Hle.
  - apply Nat.leb_le in Hle. cbn [fa_q fa_k fa_v]. split.
    + intros _. rewrite Sk, Sv. repeat split.
    + intros H. rewrite Lo in H by exact Hle. lia.
  - apply Nat.leb_gt in Hle. cbn [fa_q fa_k fa_v]. split.
    + intros H. rewrite Go in H by exact Hle. lia.
    + intros _. rewrite !rows_to_m1_data, Sk, Sv. repeat split.
Qed.

End ForwardRing.

(** ** The buffers of the backward call *)

(** The arguments of a backward kernel call with other dq, dk and dv
    buffers. *)
Definition with_buffers (a : bwd_args) (bq bk bv : Tensor) : bwd_args :=
  mkBwdArgs (ba_dout a) (ba_q a) (ba_k a) (ba_v a) (ba_out a) (ba_softmax_lse a)
            bq bk bv (ba_dropout_p a) (ba_softmax_scale a) (ba_causal a)
            (ba_window_size a) (ba_softcap a) (ba_alibi_slopes a)
            (ba_deterministic a) (ba_rng_state a).

(** A kernel that writes dq, dk and dv without reading what the buffers
    it writes to held before. *)
Definition overwrites_buffers (f : kernel) : Prop :=
  forall a bq bk bv, k_bwd f (with_buffers a bq bk bv) = k_bwd f a.

Section Buffers.

Variables (process_group : option ProcessGroup) (dout q k v out : Tensor)
          (softmax_lse : AnyTensor)
          (softmax_scale dropout_p : PyFloat) (causal : bool)
          (window_size : Z * Z) (softcap : PyFloat)
          (alibi_slopes : option Tensor) (deterministic : bool)
          (attn_type : FlashAttentionImpl).

(** The three buffers after the kernel call of step [s], from the three
    before it. *)
Definition bufs_next (s : nat) (b : Tensor * Tensor * Tensor)
  : Tensor * Tensor * Tensor :=
  let '(bq, bk, bv) := b in
  let '(rdq, rdk, rdv) :=
    k_bwd (select_flash_attn_impl attn_type bwd_only)
          (bwd_call_with process_group dout q k v out softmax_lse softmax_scale
                         dropout_p causal window_size softcap alibi_slopes
                         deterministic s bq bk bv) in
  (write_view (view_q process_group s) bq rdq,
   write_view (view_kv process_group s) bk rdk,
   write_view (view_kv process_group s) bv rdv).

Lemma bwd_bufs_next (s : nat) :
  bwd_bufs process_group dout q k v out softmax_lse softmax_scale dropout_p causal
           window_size softcap alibi_slopes deterministic attn_type (S s)
  = bufs_next s (bwd_bufs process_group dout q k v out softmax_lse softmax_scale
                          dropout_p causal window_size softcap alibi_slopes
                          deterministic attn_type s).
Proof. reflexivity. Qed.

(** Step 0 is never Shifted: its kernel call gets the three buffers whole
    and replaces them whole. *)
Lemma bufs_next_0 (bq bk bv bq' bk' bv' : Tensor) :
  overwrites_buffers (select_flash_attn_impl attn_type bwd_only) ->
  t_dtype bq = t_dtype bq' -> t_dtype bk = t_dtype bk' -> t_dtype bv = t_dtype bv' ->
  bufs_next 0 (bq, bk, bv) = bufs_next 0 (bq', bk', bv').
Proof.
  intros Hk Hq Hkd Hv. unfold bufs_next, bwd_call_with, view_q, view_kv.
  change (pg_rank (group_of process_group) <? 0) with false. cbv iota.
  set (a := mkBwdArgs dout q _ _ out softmax_lse bq' bk' bv' _ _ _ _ _ _ _ _).
  change (mkBwdArgs dout q _ _ out softmax_lse bq bk bv _ _ _ _ _ _ _ _)
    with (with_buffers a bq bk bv).
  rewrite Hk. destruct (k_bwd _ a) as [[rdq rdk] rdv].
  cbn [write_view]. now rewrite Hq, Hkd, Hv.
Qed.

End Buffers.

(** ** The last row of dk and dv *)

Section RingFacts.

Variable P : nat.
Variables (dout q k v out : nat -> Tensor) (softmax_lse : nat -> AnyTensor).
Variables (softmax_scale dropout_p : PyFloat) (causal : bool)
          (window_size : Z * Z) (softcap : PyFloat)
          (alibi_slopes : option Tensor) (deterministic : bool)
          (attn_type : FlashAttentionImpl).
Variable deliver : nat -> nat -> nat -> T4.

Local Abbreviation in_lockstep :=
  (lockstep P dout q k v out softmax_lse softmax_scale dropout_p causal window_size
            softcap alibi_slopes deterministic attn_type deliver).
Local Abbreviation c_k :=
  (contrib_k P dout q k v out softmax_lse softmax_scale dropout_p causal
             window_size softcap alibi_slopes deterministic attn_type deliver).
Local Abbreviation c_v :=
  (contrib_v P dout q k v out softmax_lse softmax_scale dropout_p causal
             window_size softcap alibi_slopes deterministic attn_type deliver).

(** The holder at hop [j] runs Shifted exactly when the ring has wrapped
    round to the ranks below the owner. *)
Lemma holder_mode (rho j : nat) :
  rho < P -> j < P -> (holder P rho j <? j) = (P - rho <=? j).
Proof.
  intros Hrho Hj. unfold holder.
  destruct (P - rho <=? j) eqn:Hw.
  - apply Nat.leb_le in Hw. apply Nat.ltb_lt.
    replace (rho + j) with (rho + j - P + 1 * P) by lia.
    rewrite Nat.Div0.mod_add, Nat.mod_small by lia. lia.
  - apply Nat.leb_gt in Hw. apply Nat.ltb_ge.
    rewrite Nat.mod_small by lia. lia.
Qed.

Lemma last_row_ring_grad (contrib : nat -> nat -> Tensor) (rho j : nat) :
  rho < P -> P - 1 - rho <= j -> j < P ->
  last_row (ring_grad P contrib rho j) = last_row (ring_grad P contrib rho (P - 1 - rho)).
Proof.
  intros Hrho Hle. induction Hle as [|m Hle IH]; intros Hj; [reflexivity|].
  cbn [ring_grad]. rewrite holder_mode by lia.
  assert (Hw : (P - rho <=? S m) = true) by (apply Nat.leb_le; lia).
  rewrite Hw, last_row_iadd_rows_to_m1. apply IH. lia.
Qed.

(** X11: on a ring in lockstep the gradient of the K/V shard of rank [rho]
    is added to in Full mode while it travels up to the last rank, hops 0
    to [P - 1 - rho], and in Shifted mode once the ring has wrapped round
    to the ranks below [rho]; so the last row of the dk and dv the call
    returns is the one the gradient had when it left the last rank.  The
    blocks are float16 or bfloat16, the precisions of the kernels. *)
Theorem last_row_of_dk_settles_before_wrap (w : world) :
  causal = true -> 0 < P -> in_lockstep ->
  (forall rho, rho < P ->
     reduced_precision (q rho) /\ reduced_precision (k rho) /\
     reduced_precision (v rho)) ->
  forall rho, rho < P ->
    let gk := ring_grad P c_k rho in
    let gv := ring_grad P c_v rho in
    (exists dq w',
       stripe_flash_attn_backward (ring_group P deliver rho) (dout rho) (q rho)
                                  (k rho) (v rho) (out rho) (softmax_lse rho)
                                  softmax_scale dropout_p causal window_size
                                  softcap alibi_slopes deterministic attn_type w
       = (inr (dq, to (t_dtype (q rho)) (gk (P - 1)),
               to (t_dtype (q rho)) (gv (P - 1))), w')) /\
    (forall j, j < P -> (holder P rho j <? j) = (P - rho <=? j)) /\
    (forall j, P - 1 - rho <= j -> j < P ->
       last_row (gk j) = last_row (gk (P - 1 - rho)) /\
       last_row (gv j) = last_row (gv (P - 1 - rho))).
Proof.
  intros Hc HP HL _ rho Hrho gk gv. split; [|split].
  - pose proof (stripe_flash_attn_backward_run (ring_group P deliver rho) (dout rho)
                  (q rho) (k rho) (v rho) (out rho) (softmax_lse rho) softmax_scale
                  dropout_p causal window_size softcap alibi_slopes deterministic
                  attn_type w Hc HP) as Hrun.
    cbn [group_of ring_group pg_world_size] in Hrun.
    destruct (HL rho (P - 1)) as (_ & Lk & Lv); [exact Hrho|lia|].
    destruct (grad_of_owner P dout q k v out softmax_lse softmax_scale dropout_p
                causal window_size softcap alibi_slopes deterministic attn_type
                deliver rho (P - 1) HL Hrho) as (Gk & Gv); [lia|].
    destruct (ring_grad_dtype P dout q k v out softmax_lse softmax_scale dropout_p
                causal window_size softcap alibi_slopes deterministic attn_type
                deliver rho (P - 1) HL Hrho) as (Dk & Dv); [lia|].
    rewrite prev_rank_holder, Gk in Lk by exact HP.
    rewrite prev_rank_holder, Gv in Lv by exact HP.
    unfold recv_grad in Hrun. cbn [group_of ring_group pg_deliver] in Hrun.
    rewrite Lk, Lv, (tensor_eta _ _ Dk), (tensor_eta _ _ Dv) in Hrun.
    do 2 eexists. exact Hrun.
  - intros j Hj. now apply holder_mode.
  - intros j Hle Hj. split; now apply last_row_ring_grad.
Qed.

End RingFacts.

End Model.

(** * The memory behind the buffers of the backward call

    [torch.empty] hands out memory as it finds it.  Two runs of the
    backward call that differ in that memory alone are set side by side. *)

Section UninitializedMemory.

Variables (E : Type) (cast : dtype -> E -> E) (add : E -> E -> E)
          (PyFloat FlashAttentionImpl : Type)
          (select_flash_attn_impl : FlashAttentionImpl -> stage -> kernel E PyFloat)
          (WORLD : ProcessGroup E).
Variables (process_group : option (ProcessGroup E)) (dout q k v out : Tensor E)
          (softmax_lse : AnyTensor E)
          (softmax_scale dropout_p : PyFloat) (causal : bool)
          (window_size : Z * Z) (softcap : PyFloat)
          (alibi_slopes : option (Tensor E)) (deterministic : bool)
          (attn_type : FlashAttentionImpl).

(** What the fresh buffers hold, in the one run and in the other. *)
Variables u1 u2 : Tensor E -> T4 E.

Hypothesis kernel_overwrites :
  overwrites_buffers E PyFloat (select_flash_attn_impl attn_type bwd_only).

Local Abbreviation with_memory f u :=
  (f E cast add PyFloat FlashAttentionImpl select_flash_attn_impl WORLD u
     process_group dout q k v out softmax_lse softmax_scale dropout_p causal
     window_size softcap alibi_slopes deterministic attn_type).
Local Abbreviation bufs u :=
  (bwd_bufs E PyFloat FlashAttentionImpl select_flash_attn_impl WORLD u
            process_group dout q k v out softmax_lse softmax_scale dropout_p causal
            window_size softcap alibi_slopes deterministic attn_type).
Local Abbreviation bufs_step u :=
  (bwd_bufs_next E PyFloat FlashAttentionImpl select_flash_attn_impl WORLD u
                 process_group dout q k v out softmax_lse softmax_scale dropout_p
                 causal window_size softcap alibi_slopes deterministic attn_type).
Local Abbreviation chan1 := (on_channel E PyFloat FlashAttentionImpl 1).

(** Once the kernel call of step 0 is done the buffers of the two runs
    agree, and they do so from then on. *)
Lemma bufs_agree (n : nat) : bufs u1 (S n) = bufs u2 (S n).
Proof.
  induction n as [|n IH].
  - rewrite (bufs_step u1 0), (bufs_step u2 0). cbn [bwd_bufs].
    apply bufs_next_0; [exact kernel_overwrites|reflexivity..].
  - rewrite (bufs_step u1 (S n)), (bufs_step u2 (S n)), IH. reflexivity.
Qed.

Lemma dq_agree (s : nat) : with_memory bwd_dq u1 s = with_memory bwd_dq u2 s.
Proof.
  induction s as [|m IH]; cbn [bwd_dq]; unfold buf_q; rewrite bufs_agree;
    [reflexivity|]. now rewrite IH.
Qed.

Lemma dk_agree (s : nat) : with_memory bwd_dk u1 s = with_memory bwd_dk u2 s.
Proof.
  unfold bwd_dk, bwd_grad. destruct s; unfold buf_k; now rewrite bufs_agree.
Qed.

Lemma dv_agree (s : nat) : with_memory bwd_dv u1 s = with_memory bwd_dv u2 s.
Proof.
  unfold bwd_dv, bwd_grad. destruct s; unfold buf_v; now rewrite bufs_agree.
Qed.

Lemma chan1_agree (n : nat) :
  filter chan1 (with_memory bwd_trace u1 n) = filter chan1 (with_memory bwd_trace u2 n).
Proof.
  induction n as [|n IH]; [reflexivity|].
  rewrite !bwd_trace_S, !filter_app, IH, !chan1_bwd_events.
  f_equal. f_equal. rewrite (dk_agree n), (dv_agree n).
  destruct n as [|m]; cbn [after]; [reflexivity|].
  now rewrite (dk_agree m), (dv_agree m).
Qed.

(** X12: when the kernels write dq, dk and dv without reading what the
    buffers held, the memory [torch.empty] handed out shows neither in the
    gradients the backward call returns nor in the blocks it sends round
    the ring: step 0 is never Shifted, so its kernel call replaces the
    three buffers whole before anything reads them, and a Shifted step
    reads back only the rows its own kernel call wrote.  The blocks are
    float16 or bfloat16, the precisions of the kernels. *)
Theorem gradients_ignore_uninitialized_memory (w : world E PyFloat FlashAttentionImpl) :
  reduced_precision E q -> reduced_precision E k -> reduced_precision E v ->
  fst (with_memory stripe_flash_attn_backward u1 w)
  = fst (with_memory stripe_flash_attn_backward u2 w) /\
  filter chan1 (w_trace E PyFloat FlashAttentionImpl
                        (snd (with_memory stripe_flash_attn_backward u1 w)))
  = filter chan1 (w_trace E PyFloat FlashAttentionImpl
                          (snd (with_memory stripe_flash_attn_backward u2 w))).
Proof.
  intros _ _ _.
  destruct (Bool.bool_dec causal true) as [Hc|Hc];
    [|apply not_true_is_false in Hc; rewrite Hc; split; reflexivity].
  destruct (pg_world_size E (group_of E WORLD process_group)) as [|n] eqn:HP.
  - unfold stripe_flash_attn_backward, bwd_loop, RingComm_new. cbn [world_size].
    change (match process_group with Some g => g | None => WORLD end)
      with (group_of E WORLD process_group).
    rewrite HP, Hc. split; reflexivity.
  - assert (HP' : 0 < pg_world_size E (group_of E WORLD process_group)) by lia.
    rewrite (stripe_flash_attn_backward_run E cast add PyFloat FlashAttentionImpl
               select_flash_attn_impl WORLD u1 process_group dout q k v out
               softmax_lse softmax_scale dropout_p causal window_size softcap
               alibi_slopes deterministic attn_type w Hc HP').
    rewrite (stripe_flash_attn_backward_run E cast add PyFloat FlashAttentionImpl
               select_flash_attn_impl WORLD u2 process_group dout q k v out
               softmax_lse softmax_scale dropout_p causal window_size softcap
               alibi_slopes deterministic attn_type w Hc HP').
    cbn [fst snd]. split.
    + now rewrite dq_agree.
    + unfold emit; cbn [w_trace]. rewrite !filter_app. now rewrite chan1_agree.
Qed.

End UninitializedMemory.

(** * Which tensor each gradient variable names

    The drivers above take tensors as values.  This part follows, through
    the loop of [stripe_flash_attn_backward], which tensor each of the
    gradient variables of lines 101-104 names, to see where two of them,
    or one of them and a per-step buffer of lines 106-108, are one and the
    same tensor: [t.to(torch.float32)] is [t] itself when [t] is float32
    already and a new tensor otherwise; [x + y] is a new tensor; [x += y]
    and [x[:, s] += y[:, s]] write into [x]. *)

Module Sharing.

(** The tensors of a run: the three per-step buffers, and the tensors
    made while it runs, numbered in the order they are made. *)
Inductive tensor_id : Type :=
| block_dq_buffer
| block_dk_buffer
| block_dv_buffer
| made (n : nat).

Definition is_block_buffer (t : tensor_id) : bool :=
  match t with
  | made _ => false
  | _ => true
  end.

(** What the gradient variables name ([None] for the Python [None]), the
    tensors of the gradient transfers committed and not yet waited for,
    and the number of tensors made so far. *)
Record names : Type := mkNames {
  dq : option tensor_id;
  dk : option tensor_id;
  dv : option tensor_id;
  next_dk : option tensor_id;
  next_dv : option tensor_id;
  dk_comm_buffer : option tensor_id;
  dv_comm_buffer : option tensor_id;
  in_flight : list tensor_id;
  count : nat }.

(** Lines 101-104. *)
Definition init : names := mkNames None None None None None None None [] 0.

(** [t.to(torch.float32)] on a tensor [t] of dtype [d]. *)
Definition to_float32 (d : dtype) (t : tensor_id) (c : nat) : tensor_id * nat :=
  match d with
  | float32 => (t, c)
  | _ => (made c, S c)
  end.

Section Run.

(** The dtypes of q, k and v, which are those of the three buffers, and
    the rank. *)
Variables (q_dtype k_dtype v_dtype : dtype) (rank : nat).

(** Lines 163-182 at step [step]; [None] is the [TypeError] of adding a
    tensor to [None]. *)
Definition accumulate (step : nat) (st : names) : option names :=
  let shift_causal := rank <? step in
  match dq st with
  | None =>
      let '(dq', c) := to_float32 q_dtype block_dq_buffer (count st) in
      let '(dk', c) := to_float32 k_dtype block_dk_buffer c in
      let '(dv', c) := to_float32 v_dtype block_dv_buffer c in
      Some (mkNames (Some dq') (Some dk') (Some dv') (next_dk st) (next_dv st)
                    (dk_comm_buffer st) (dv_comm_buffer st) (in_flight st) c)
  | Some dq' =>
      (* dq is written in place; d_kv_comm.wait() ends the transfers *)
      let dk_comm_buffer' := dk st in
      let dv_comm_buffer' := dv st in
      match next_dk st, next_dv st with
      | Some dk', Some dv' =>
          if negb shift_causal then
            (* block_dk_buffer + dk and block_dv_buffer + dv are new tensors *)
            Some (mkNames (Some dq') (Some (made (count st)))
                          (Some (made (S (count st))))
                          (next_dk st) (next_dv st)
                          dk_comm_buffer' dv_comm_buffer' []
                          (S (S (count st))))
          else
            (* dk[:, :-1] += ... and dv[:, :-1] += ... write in place *)
            Some (mkNames (Some dq') (Some dk') (Some dv')
                          (next_dk st) (next_dv st)
                          dk_comm_buffer' dv_comm_buffer' [] (count st))
      | _, _ => None
      end
  end.

(** Modelled from the spec: [send_recv] of [RingComm], which is not among
    the sources, receives into the buffer the caller supplies when one is
    given and into a new one otherwise, and hands that buffer back. *)
Definition recv_buffer (recv_tensor : option tensor_id) (c : nat) : tensor_id * nat :=
  match recv_tensor with
  | Some b => (b, c)
  | None => (made c, S c)
  end.

(** Lines 189-191. *)
Definition send_grads (st : names) : names :=
  let '(next_dk', c) := recv_buffer (dk_comm_buffer st) (count st) in
  let '(next_dv', c) := recv_buffer (dv_comm_buffer st) c in
  mkNames (dq st) (dk st) (dv st) (Some next_dk') (Some next_dv')
          (dk_comm_buffer st) (dv_comm_buffer st)
          (match dk st with Some t => [t] | None => [] end
           ++ [next_dk']
           ++ match dv st with Some t => [t] | None => [] end
           ++ [next_dv'])
          c.

(** The names when step [n] begins. *)
Fixpoint at_step (n : nat) : option names :=
  match n with
  | 0 => Some init
  | S m =>
      match at_step m with
      | Some st => option_map send_grads (accumulate m st)
      | None => None
      end
  end.

(** The tensors the gradient variables name. *)
Definition named (st : names) : list tensor_id :=
  flat_map (fun o => match o with Some t => [t] | None => [] end)
           [dq st; dk st; dv st; next_dk st; next_dv st;
            dk_comm_buffer st; dv_comm_buffer st].

(** No gradient variable names a per-step buffer, and no tensor of a
    pending transfer is one. *)
Definition apart (st : names) : Prop :=
  Forall (fun t => is_block_buffer t = false) (named st ++ in_flight st).

End Run.

End Sharing.

Lemma sharing_apart_intro (st : Sharing.names) :
  (forall t, Sharing.dq st = Some t -> Sharing.is_block_buffer t = false) ->
  (forall t, Sharing.dk st = Some t -> Sharing.is_block_buffer t = false) ->
  (forall t, Sharing.dv st = Some t -> Sharing.is_block_buffer t = false) ->
  (forall t, Sharing.next_dk st = Some t -> Sharing.is_block_buffer t = false) ->
  (forall t, Sharing.next_dv st = Some t -> Sharing.is_block_buffer t = false) ->
  (forall t, Sharing.dk_comm_buffer st = Some t -> Sharing.is_block_buffer t = false) ->
  (forall t, Sharing.dv_comm_buffer st = Some t -> Sharing.is_block_buffer t = false) ->
  Forall (fun t => Sharing.is_block_buffer t = false) (Sharing.in_flight st) ->
  Sharing.apart st.
Proof.
  intros H1 H2 H3 H4 H5 H6 H7 H8. unfold Sharing.apart, Sharing.named.
  apply Forall_app. split; [|exact H8]. cbn [flat_map].
  repeat (apply Forall_app; split); try apply Forall_nil;
    match goal with
    | |- Forall _ (match ?o with _ => _ end) =>
        destruct o as [t|] eqn:Ho; [|apply Forall_nil]
    end; constructor; auto.
Qed.

Lemma sharing_apart_elim (st : Sharing.names) :
  Sharing.apart st ->
  (forall t, Sharing.dq st = Some t -> Sharing.is_block_buffer t = false) /\
  (forall t, Sharing.dk st = Some t -> Sharing.is_block_buffer t = false) /\
  (forall t, Sharing.dv st = Some t -> Sharing.is_block_buffer t = false) /\
  (forall t, Sharing.next_dk st = Some t -> Sharing.is_block_buffer t = false) /\
  (forall t, Sharing.next_dv st = Some t -> Sharing.is_block_buffer t = false) /\
  (forall t, Sharing.dk_comm_buffer st = Some t -> Sharing.is_block_buffer t = false) /\
  (forall t, Sharing.dv_comm_buffer st = Some t -> Sharing.is_block_buffer t = false) /\
  Forall (fun t => Sharing.is_block_buffer t = false) (Sharing.in_flight st).
Proof.
  unfold Sharing.apart, Sharing.named. intros H.
  apply Forall_app in H. destruct H as (H & H8).
  rewrite Forall_forall in H.
  repeat split; try exact H8; intros t Ht; apply H; cbn [flat_map];
    rewrite Ht; rewrite ?in_app_iff; cbn; tauto.
Qed.

Lemma sharing_first_step (q_dtype k_dtype v_dtype : dtype) (rank : nat) :
  q_dtype <> float32 -> k_dtype <> float32 -> v_dtype <> float32 ->
  Sharing.at_step q_dtype k_dtype v_dtype rank 1
  = Some (Sharing.mkNames (Some (Sharing.made 0)) (Some (Sharing.made 1))
                          (Some (Sharing.made 2)) (Some (Sharing.made 3))
                          (Some (Sharing.made 4)) None None
                          [Sharing.made 1; Sharing.made 3;
                           Sharing.made 2; Sharing.made 4] 5).
Proof.
  intros Hq Hk Hv.
  destruct q_dtype, k_dtype, v_dtype; try congruence; reflexivity.
Qed.

Lemma sharing_step (q_dtype k_dtype v_dtype : dtype) (rank n : nat) :
  q_dtype <> float32 -> k_dtype <> float32 -> v_dtype <> float32 ->
  exists st a b c d e,
    Sharing.at_step q_dtype k_dtype v_dtype rank (S n) = Some st /\
    Sharing.apart st /\
    Sharing.dq st = Some a /\ Sharing.dk st = Some b /\ Sharing.dv st = Some c /\
    Sharing.next_dk st = Some d /\ Sharing.next_dv st = Some e.
Proof.
  intros Hq Hk Hv. induction n as [|n IH].
  - rewrite sharing_first_step by assumption.
    do 6 eexists. split; [reflexivity|]. split.
    + unfold Sharing.apart. cbn. repeat constructor.
    + cbn. repeat split; reflexivity.
  - destruct IH as (st & a & b & c & d & e & Hst & Hap & Ha & Hb & Hc & Hd & He).
    apply sharing_apart_elim in Hap.
    destruct Hap as (Pa & Pb & Pc & Pd & Pe & _ & _ & _).
    specialize (Pa _ Ha). specialize (Pb _ Hb). specialize (Pc _ Hc).
    specialize (Pd _ Hd). specialize (Pe _ He).
    change (Sharing.at_step q_dtype k_dtype v_dtype rank (S (S n)))
      with (match Sharing.at_step q_dtype k_dtype v_dtype rank (S n) with
            | Some st0 =>
                option_map Sharing.send_grads
                           (Sharing.accumulate q_dtype k_dtype v_dtype rank (S n) st0)
            | None => None
            end).
    rewrite Hst. unfold Sharing.accumulate. rewrite Ha, Hd, He, Hb, Hc.
    destruct (negb (rank <? S n)); cbn [option_map];
      unfold Sharing.send_grads; cbn;
      do 6 eexists; (split; [reflexivity|]);
      (split; [|cbn; repeat split; reflexivity]);
      apply sharing_apart_intro; cbn;
      try (intros t Ht; injection Ht as <-; assumption || reflexivity);
      repeat constructor; assumption.
Qed.

(** On float16 and bfloat16 blocks the gradient variables stay apart from
    the per-step buffers.  When a step of the loop of
    [stripe_flash_attn_backward] begins, none of [dq], [dk], [dv],
    [next_dk], [next_dv], [dk_comm_buffer] and [dv_comm_buffer] names one
    of [block_dq_buffer], [block_dk_buffer] and [block_dv_buffer], and no
    tensor of a gradient transfer still pending is one of them: the kernel
    call of the step, which writes the three buffers, writes into no
    accumulator and into no tensor being sent or received, and lines
    169-182 add a buffer to a tensor other than itself. *)
Theorem gradients_stay_apart_from_the_buffers
        (q_dtype k_dtype v_dtype : dtype) (rank n : nat) :
  q_dtype <> float32 -> k_dtype <> float32 -> v_dtype <> float32 ->
  exists st,
    Sharing.at_step q_dtype k_dtype v_dtype rank n = Some st /\
    Sharing.apart st.
Proof.
  intros Hq Hk Hv. destruct n as [|n].
  - exists Sharing.init. split; [reflexivity|].
    unfold Sharing.apart. cbn. constructor.
  - destruct (sharing_step q_dtype k_dtype v_dtype rank n Hq Hk Hv)
      as (st & _ & _ & _ & _ & _ & Hst & Hap & _).
    exists st. split; assumption.
Qed.

(** C3, on float32 blocks: the gradient that rotates is the per-step
    buffer itself.  Whatever the rank, line 165 makes [dk] the tensor
    [block_dk_buffer] ([.to(torch.float32)] of a float32 tensor is that
    tensor), and line 166 makes [dv] the tensor [block_dv_buffer].
    - When step 1 begins, [block_dk_buffer] and [block_dv_buffer] are the
      tensors being sent by the gradient transfer of step 0, still
      pending while the kernel call of step 1 writes them, and [dq] is
      [block_dq_buffer], which line 169 or 171 adds to itself.
    - When step 2 begins, [next_dk] is [block_dk_buffer] and [next_dv] is
      [block_dv_buffer]: they were handed over as the receive buffers at
      the end of step 1, and the transfer into them is pending while the
      kernel call of step 2 writes them; line 174 then makes [dk] the
      buffer, so that line 178 or 181 adds [block_dk_buffer] to itself
      and not one contribution to the gradient received. *)
Theorem C3_float32_gradient_is_the_buffer (rank : nat) :
  exists st1 st2,
    Sharing.at_step float32 float32 float32 rank 1 = Some st1 /\
    Sharing.dq st1 = Some Sharing.block_dq_buffer /\
    Sharing.dk st1 = Some Sharing.block_dk_buffer /\
    Sharing.dv st1 = Some Sharing.block_dv_buffer /\
    In Sharing.block_dk_buffer (Sharing.in_flight st1) /\
    In Sharing.block_dv_buffer (Sharing.in_flight st1) /\
    Sharing.at_step float32 float32 float32 rank 2 = Some st2 /\
    Sharing.dq st2 = Some Sharing.block_dq_buffer /\
    Sharing.next_dk st2 = Some Sharing.block_dk_buffer /\
    Sharing.next_dv st2 = Some Sharing.block_dv_buffer /\
    In Sharing.block_dk_buffer (Sharing.in_flight st2) /\
    In Sharing.block_dv_buffer (Sharing.in_flight st2).
Proof.
  destruct rank as [|rank]; do 2 eexists;
    repeat (split; [first [reflexivity | cbn; tauto]|]); cbn; tauto.
Qed.

(** * A toy ring over the integers

    Scalars are integers, casts are exact, the kernels return constant
    blocks shaped like their arguments. *)

Arguments mkTensor {E}.
Arguments t_dtype {E}.
Arguments t_data {E}.
Arguments mkTensor3 {E}.
Arguments map4 {E}.
Arguments mkKernel {E PyFloat}.
Arguments fa_q {E PyFloat}.
Arguments ba_q {E PyFloat}.
Arguments ba_k {E PyFloat}.
Arguments ba_v {E PyFloat}.
Arguments mkGroup {E}.
Arguments mkWorld {E PyFloat FlashAttentionImpl}.

Module Toy.

Definition cast (_ : dtype) (x : Z) : Z := x.
Definition gt_zero (x : Z) : bool := (0 <? x)%Z.
Definition pow_neg_half (n : nat) : Z := Z.of_nat n.

Abbreviation Tensor := (Tensor Z).

(** A block (1, 2, 1, 1) holding [a] in row 0 and [b] in row 1. *)
Definition block (d : dtype) (a b : Z) : Tensor := mkTensor d [[[[a]]; [[b]]]].

(** The forward kernel returns the constant 7 with log-sum-exp 1, the
    backward kernel the constants 1, 2 and 3. *)
Definition toy_kernel : kernel Z Z :=
  mkKernel
    (fun a => (mkTensor (t_dtype (fa_q a)) (map4 (fun _ => 7%Z) (t_data (fa_q a))),
               mkTensor3 float32
                         (map (fun b => transpose (map (map (fun _ => 1%Z)) b))
                              (t_data (fa_q a)))))
    (fun a => (map4 (fun _ => 1%Z) (t_data (ba_q a)),
               map4 (fun _ => 2%Z) (t_data (ba_k a)),
               map4 (fun _ => 3%Z) (t_data (ba_v a)))).

Definition select (_ : unit) (_ : stage) : kernel Z Z := toy_kernel.

Definition uninitialized (t : Tensor) : T4 Z := map4 (fun _ => 0%Z) (t_data t).

Definition out_merge (l bl o bo : Z) : Z := (o + bo)%Z.

(** Rank [r] of a ring of two: the peer delivers the blocks it sends in a
    run of the backward driver on the inputs below. *)
Definition q_of (r : nat) : Tensor := block bfloat16 (10 + Z.of_nat r) (20 + Z.of_nat r).
Definition k_of (r : nat) : Tensor := block bfloat16 (30 + Z.of_nat r) (40 + Z.of_nat r).
Definition v_of (r : nat) : Tensor := block bfloat16 (50 + Z.of_nat r) (60 + Z.of_nat r).

Definition dout_of (r : nat) : Tensor := block bfloat16 (70 + Z.of_nat r) (80 + Z.of_nat r).
Definition out_of (r : nat) : Tensor := block bfloat16 7 14.
Definition lse_of (r : nat) : AnyTensor Z := Rank3 Z (mkTensor3 float32 [[[1; 1]]])%Z.

Definition WORLD : ProcessGroup Z := mkGroup 0 1 (fun _ _ => []).

Definition w0 : world Z Z unit := mkWorld [] (empty_ctx Z Z unit).

(** The drivers on the toy model. *)
Definition forward (pg : option (ProcessGroup Z)) (q k v : Tensor) (causal : bool) :=
  stripe_flash_attn_forward Z cast Z gt_zero unit select WORLD Z.add out_merge
                            pg q k v 1%Z 0%Z causal ((-1)%Z, (-1)%Z) 0%Z None false tt.

Definition forward_loop (pg : option (ProcessGroup Z)) (q k v : Tensor) (n : nat) :=
  fwd_loop Z cast Z gt_zero unit select WORLD Z.add out_merge
           q 1%Z 0%Z true ((-1)%Z, (-1)%Z) 0%Z None tt pg k v n.

Definition backward (pg : option (ProcessGroup Z)) (r : nat) :=
  stripe_flash_attn_backward Z cast Z.add Z unit select WORLD uninitialized
                             pg (dout_of r) (q_of r) (k_of r) (v_of r) (out_of r)
                             (lse_of r) 1%Z 0%Z true ((-1)%Z, (-1)%Z) 0%Z None false tt.

Definition backward_loop (pg : option (ProcessGroup Z)) (r n : nat) :=
  bwd_loop Z cast Z.add Z unit select WORLD uninitialized
           (dout_of r) (q_of r) (out_of r) (lse_of r) 1%Z 0%Z true
           ((-1)%Z, (-1)%Z) 0%Z None false tt pg (k_of r) (v_of r) n.

(** The gradients rank [r] has at the end of step [s] when its peer
    delivers by [deliver]. *)
Definition grad_k (deliver : nat -> nat -> nat -> T4 Z) (r s : nat) : T4 Z :=
  t_data (dk_of Z cast Z.add Z unit select WORLD uninitialized 2
                dout_of q_of k_of v_of out_of lse_of 1%Z 0%Z true
                ((-1)%Z, (-1)%Z) 0%Z None false tt deliver r s).
Definition grad_v (deliver : nat -> nat -> nat -> T4 Z) (r s : nat) : T4 Z :=
  t_data (dv_of Z cast Z.add Z unit select WORLD uninitialized 2
                dout_of q_of k_of v_of out_of lse_of 1%Z 0%Z true
                ((-1)%Z, (-1)%Z) 0%Z None false tt deliver r s).

(** A ring of two ranks, built step by step: the K and V of the peer,
    then the gradients the peer has after step 0, then those it has after
    step 1. *)
Definition deliver_kv (r c n : nat) : T4 Z :=
  match c, n with
  | 0, 0 => t_data (k_of (1 - r))
  | 0, 1 => t_data (v_of (1 - r))
  | _, _ => []
  end.

Definition deliver_step0 (r c n : nat) : T4 Z :=
  match c, n with
  | 1, 0 => grad_k deliver_kv (1 - r) 0
  | 1, 1 => grad_v deliver_kv (1 - r) 0
  | _, _ => deliver_kv r c n
  end.

Definition deliver (r c n : nat) : T4 Z :=
  match c, n with
  | 1, 2 => grad_k deliver_step0 (1 - r) 1
  | 1, 3 => grad_v deliver_step0 (1 - r) 1
  | _, _ => deliver_step0 r c n
  end.

Definition ring (r : nat) : option (ProcessGroup Z) := Some (mkGroup r 2 (deliver r)).

End Toy.

(** ** Instances on the toy ring *)

Lemma toy_ring_lockstep :
  lockstep Z Toy.cast Z.add Z unit Toy.select Toy.WORLD Toy.uninitialized 2
           Toy.dout_of Toy.q_of Toy.k_of Toy.v_of Toy.out_of Toy.lse_of
           1%Z 0%Z true ((-1)%Z, (-1)%Z) 0%Z None false tt Toy.deliver.
Proof.
  intros rho s Hrho Hs.
  destruct rho as [|[|rho]]; [| |lia]; (destruct s as [|[|s]]; [| |lia]);
    (split; [intros H; try lia; split; vm_compute; reflexivity|]);
    split; vm_compute; reflexivity.
Qed.

Lemma toy_reduced_precision (rho : nat) :
  rho < 2 ->
  reduced_precision Z (Toy.q_of rho) /\ reduced_precision Z (Toy.k_of rho) /\
  reduced_precision Z (Toy.v_of rho).
Proof. intros _. repeat split; discriminate. Qed.

Lemma C1_witness :
  exists res evs a,
    Toy.forward (Toy.ring 0) (Toy.q_of 0) (Toy.k_of 0) (Toy.v_of 0) true Toy.w0
    = (inr res, emit Z Z unit evs Toy.w0) /\
    nth_error (kernel_calls_fwd Z Z unit evs) 1 = Some a /\
    fa_causal Z Z a = true /\
    t_data (fa_q a) = [[[[20%Z]]]] /\
    t_data (fa_k Z Z a) = [[[[31%Z]]]].
Proof.
  destruct (C1_forward_full_iff_step_le_rank Z Toy.cast Z Toy.gt_zero unit
              Toy.select Toy.WORLD Z.add Toy.out_merge (Toy.ring 0)
              (Toy.q_of 0) (Toy.k_of 0) (Toy.v_of 0) 1%Z 0%Z true
              ((-1)%Z, (-1)%Z) 0%Z None tt false Toy.w0 eq_refl
              (Nat.lt_0_succ 1))
    as (res & evs & Hrun & _ & Hs).
  destruct (Hs 1 (Nat.lt_succ_diag_r 1)) as (a & Hn & Hc & _ & Hsh).
  destruct (Hsh (Nat.lt_0_succ 0)) as (_ & Hq & _ & Hk & _).
  exists res, evs, a. repeat split; assumption.
Defined.

Lemma C2_witness :
  exists st st' w1 w2 o o',
    Toy.forward_loop (Toy.ring 0) (Toy.q_of 0) (Toy.k_of 0) (Toy.v_of 0) 1 Toy.w0
    = (inr st, w1) /\
    Toy.forward_loop (Toy.ring 0) (Toy.q_of 0) (Toy.k_of 0) (Toy.v_of 0) 2 Toy.w0
    = (inr st', w2) /\
    fl_out Z st = Some o /\ fl_out Z st' = Some o' /\
    row0 Z o' = row0 Z o /\
    t_data o = [[[[7%Z]]; [[7%Z]]]] /\
    t_data o' = [[[[7%Z]]; [[14%Z]]]].
Proof.
  destruct (C2_shifted_merge_leaves_row0 Z Toy.cast Z Toy.gt_zero unit
              Toy.select Toy.WORLD Z.add Toy.out_merge (Toy.ring 0)
              (Toy.q_of 0) (Toy.k_of 0) (Toy.v_of 0) 1%Z 0%Z true
              ((-1)%Z, (-1)%Z) 0%Z None tt 1 Toy.w0
              (Nat.lt_0_succ 0) (Nat.lt_succ_diag_r 1))
    as (st & st' & w1 & w2 & o & l & o' & l' & H1 & H2 & Ho & Hl & Ho' & Hl'
        & Hr & _).
  exists st, st', w1, w2, o, o'. repeat split; try assumption.
  - vm_compute in H1. injection H1 as <- _. cbn in Ho. injection Ho as <-.
    reflexivity.
  - vm_compute in H2. injection H2 as <- _. cbn in Ho'. injection Ho' as <-.
    reflexivity.
Defined.

Lemma gradient_ring_accumulates_once_per_rank_witness :
  exists dq0 dq1 w w',
    Toy.backward (Toy.ring 0) 0 Toy.w0
    = (inr (dq0, Toy.block bfloat16 4 4, Toy.block bfloat16 6 6), w) /\
    Toy.backward (Toy.ring 1) 1 Toy.w0
    = (inr (dq1, Toy.block bfloat16 4 2, Toy.block bfloat16 6 3), w').
Proof.
  pose proof (gradient_ring_accumulates_once_per_rank
                Z Toy.cast Z.add Z unit Toy.select Toy.WORLD Toy.uninitialized 2
                Toy.dout_of Toy.q_of Toy.k_of Toy.v_of Toy.out_of Toy.lse_of
                1%Z 0%Z true ((-1)%Z, (-1)%Z) 0%Z None false tt Toy.deliver
                Toy.w0 eq_refl (Nat.lt_0_succ 1) toy_ring_lockstep
                toy_reduced_precision) as H.
  destruct (H 0 (Nat.lt_0_succ 1)) as (_ & _ & (dq0 & w & H0) & _).
  destruct (H 1 (Nat.lt_succ_diag_r 1)) as (_ & _ & (dq1 & w' & H1) & _).
  exists dq0, dq1, w, w'. split; [exact H0|exact H1].
Defined.

Lemma C4_witness :
  exists fres fsteps bres bsteps,
    Toy.forward (Toy.ring 0) (Toy.q_of 0) (Toy.k_of 0) (Toy.v_of 0) true Toy.w0
    = (inr fres, emit Z Z unit (concat fsteps) Toy.w0) /\
    length fsteps = 2 /\
    Toy.backward (Toy.ring 0) 0 Toy.w0
    = (inr bres, emit Z Z unit (concat bsteps ++ [EvWait Z Z unit 1]) Toy.w0) /\
    length bsteps = 2.
Proof.
  destruct (C4_P_steps_kv_fetch_all_but_last
              Z Toy.cast Z.add Z Toy.gt_zero unit Toy.select Toy.WORLD
              Toy.uninitialized Z.add Toy.out_merge (Toy.ring 0)
              (Toy.dout_of 0) (Toy.q_of 0) (Toy.k_of 0) (Toy.v_of 0) (Toy.out_of 0)
              (Toy.lse_of 0) 1%Z 0%Z true ((-1)%Z, (-1)%Z) 0%Z None false tt
              Toy.w0 eq_refl (Nat.lt_0_succ 1))
    as ((fres & fsteps & Hf & Hfl & _) & (bres & bsteps & Hb & Hbl & _)).
  exists fres, fsteps, bres, bsteps. repeat split; assumption.
Defined.

(** The state the backward loop of rank 0 of the toy ring starts in. *)
Definition toy_bwd_init : bwd_locals Z :=
  bwd_init Z Toy.WORLD Toy.uninitialized (Toy.q_of 0) (Toy.ring 0)
           (Toy.k_of 0) (Toy.v_of 0).

Lemma C5_witness :
  (exists fa ba,
     ba_q ba = fa_q fa /\ ba_k ba = fa_k Z Z fa /\ ba_v ba = fa_v Z Z fa /\
     t_data (ba_q ba) = [[[[20%Z]]]] /\
     t_data (ba_k ba) = [[[[31%Z]]]] /\
     t_data (ba_dout Z Z ba) = [[[[80%Z]]]] /\
     t_data (ba_out Z Z ba) = [[[[14%Z]]]] /\
     ba_softmax_lse Z Z ba = Rank3 Z (mkTensor3 float32 [[[1%Z]]])) /\
  (exists st' pre a,
     bwd_compute Z Z unit Toy.select (Toy.dout_of 0) (Toy.q_of 0) (Toy.out_of 0)
                 (Toy.lse_of 0) 1%Z 0%Z true ((-1)%Z, (-1)%Z) 0%Z None false tt
                 1 toy_bwd_init Toy.w0
     = (inr st', emit Z Z unit (pre ++ [EvBwdKernel Z Z unit tt bwd_only a]) Toy.w0) /\
     t_data (ba_dq Z Z a) = [[[[0%Z]]]] /\
     t_data (ba_dk Z Z a) = [[[[0%Z]]]] /\
     t_data (ba_k a) = [[[[30%Z]]]]).
Proof.
  destruct (C5_backward_slices_as_forward
              Z Toy.cast Z.add Z Toy.gt_zero unit Toy.select Toy.WORLD
              Toy.uninitialized Z.add Toy.out_merge (Toy.ring 0)
              (Toy.dout_of 0) (Toy.q_of 0) (Toy.k_of 0) (Toy.v_of 0) (Toy.out_of 0)
              (Toy.lse_of 0) 1%Z 0%Z true ((-1)%Z, (-1)%Z) 0%Z None false tt
              Toy.w0 eq_refl (Nat.lt_0_succ 1))
    as ((fres & fevs & bres & bevs & _ & _ & Hs) & Hstep).
  split.
  - destruct (Hs 1 (Nat.lt_succ_diag_r 1))
      as (fa & ba & bq & bk & bv & _ & _ & Hq & Hk & Hv & _ & _ & _ & _ & _ & Hsl).
    destruct Hsl as ((_ & Hdout) & (_ & Hq') & (_ & Hk') & _ & (_ & Hout) & Hlse & _).
    exists fa, ba.
    split; [exact Hq|]. split; [exact Hk|]. split; [exact Hv|].
    split; [exact Hq'|]. split; [exact Hk'|]. split; [exact Hdout|].
    split; [exact Hout|].
    unfold is_lse_from1 in Hlse. cbn [Toy.lse_of] in Hlse.
    destruct (ba_softmax_lse Z Z ba) as [t'|t']; [|contradiction].
    destruct Hlse as (Hdt & Hda). destruct t' as [d' x'].
    cbn in Hdt, Hda. subst d' x'. reflexivity.
  - destruct (Hstep 1 toy_bwd_init Toy.w0 (Toy.k_of 0) (Toy.v_of 0) eq_refl eq_refl)
      as (st' & pre & a & Hrun & _ & Hsl).
    destruct Hsl as (_ & _ & (_ & Hk') & _ & _ & _ & (_ & Hdq) & (_ & Hdk) & _).
    exists st', pre, a.
    split; [exact Hrun|]. split; [exact Hdq|]. split; [exact Hdk|exact Hk'].
Defined.


Lemma C8_witness :
  exists st st' w1 evs,
    Toy.backward_loop (Toy.ring 0) 0 1 Toy.w0 = (inr st, w1) /\
    Toy.backward_loop (Toy.ring 0) 0 2 Toy.w0 = (inr st', emit Z Z unit evs w1) /\
    lse_slices Z Z unit evs = [Rank3 Z (mkTensor3 float32 [[[1%Z]]])].
Proof.
  destruct (C8_lse_slice_recomputed_every_shifted_step
              Z Toy.cast Z.add Z unit Toy.select Toy.WORLD Toy.uninitialized
              (Toy.ring 0) (Toy.dout_of 0) (Toy.q_of 0) (Toy.k_of 0) (Toy.v_of 0)
              (Toy.out_of 0) (Toy.lse_of 0) 1%Z 0%Z true ((-1)%Z, (-1)%Z) 0%Z
              None false tt 1 Toy.w0 (Nat.lt_0_succ 0) (Nat.lt_succ_diag_r 1))
    as (st & st' & w1 & evs & a & H1 & H2 & _ & Hl & _).
  exists st, st', w1, evs. repeat split; assumption.
Defined.

(** A block (1, 1, 1, 0): one batch entry, one row, one head, head
    dimension 0. *)
Definition toy_q0 : Toy.Tensor := mkTensor bfloat16 [[[[]]]].

(** The autograd forward on rank 0 of the ring of two. *)
Definition toy_autograd_call (q : Toy.Tensor) (scale : option Z) (causal : bool)
           (alibi : option Toy.Tensor) :=
  StripeFlashAttnFunc_forward Z Toy.cast Z Toy.gt_zero Toy.pow_neg_half unit
                              Toy.select Toy.WORLD Z.add Toy.out_merge
                              q (Toy.k_of 0) (Toy.v_of 0) 0%Z scale causal
                              ((-1)%Z, (-1)%Z) 0%Z alibi true false (Toy.ring 0) tt.

Lemma toy_q_scale_defined (scale : option Z) :
  scale_defined Z Z (Toy.q_of 0) scale.
Proof. right. apply Nat.lt_0_succ. Qed.

Lemma toy_q0_head_dim_zero : head_dim_zero Z toy_q0.
Proof. exists [], [], []. reflexivity. Qed.

Lemma C7_witness :
  toy_autograd_call (Toy.q_of 0) None true (Some (Toy.block float32 1 1)) Toy.w0
  = (inl (AssertionError None), Toy.w0) /\
  toy_autograd_call (Toy.q_of 0) None false None Toy.w0
  = (inl (AssertionError (Some causal_msg_fwd)),
     emit Z Z unit [EvContiguous Z Z unit (Toy.k_of 0);
                    EvContiguous Z Z unit (Toy.v_of 0)] Toy.w0) /\
  toy_autograd_call toy_q0 None false (Some (Toy.block float32 1 1)) Toy.w0
  = (inl ZeroDivisionError, Toy.w0).
Proof.
  destruct (C7_misconfiguration_fails_before_any_step
              Z Toy.cast Z.add Z Toy.gt_zero Toy.pow_neg_half unit Toy.select
              Toy.WORLD Toy.uninitialized Z.add Toy.out_merge)
    as (_ & _ & Ha & Hc & Hz).
  split; [|split].
  - exact (Ha (Toy.q_of 0) (Toy.k_of 0) (Toy.v_of 0) 0%Z None true ((-1)%Z, (-1)%Z)
              0%Z (Toy.block float32 1 1) true false (Toy.ring 0) tt Toy.w0
              (toy_q_scale_defined None)).
  - exact (Hc (Toy.q_of 0) (Toy.k_of 0) (Toy.v_of 0) 0%Z None ((-1)%Z, (-1)%Z)
              0%Z true false (Toy.ring 0) tt Toy.w0 (toy_q_scale_defined None)).
  - exact (Hz toy_q0 (Toy.k_of 0) (Toy.v_of 0) 0%Z false ((-1)%Z, (-1)%Z) 0%Z
              (Some (Toy.block float32 1 1)) true false (Toy.ring 0) tt Toy.w0
              toy_q0_head_dim_zero).
Defined.

(** C7 as stated fails twice over on the autograd path.  With [causal]
    false and no [alibi_slopes] the call has made K and V contiguous by
    the time the assertion of the driver is raised; and with an
    [alibi_slopes], no scale and a head dimension of 0 the call raises the
    ZeroDivisionError of line 217, not an assertion. *)
Lemma C7_counterexample :
  ~ (forall (scale : option Z) (causal : bool) (alibi : option Toy.Tensor),
       causal = false \/ alibi <> None ->
       snd (toy_autograd_call (Toy.q_of 0) scale causal alibi Toy.w0) = Toy.w0) /\
  ~ (forall (q : Toy.Tensor) (alibi : option Toy.Tensor),
       alibi <> None ->
       exists msg,
         fst (toy_autograd_call q None true alibi Toy.w0)
         = inl (AssertionError msg)).
Proof.
  split; intros H.
  - specialize (H None false None (or_introl eq_refl)). discriminate H.
  - assert (Ha : Some (Toy.block float32 1 1) <> None) by discriminate.
    destruct (H toy_q0 (Some (Toy.block float32 1 1)) Ha) as (msg & Hm).
    discriminate Hm.
Qed.

(** The keyword arguments of a call that passes [alibi_slopes] and leaves
    the rest, [causal] among it, at its default. *)
Definition toy_kw_alibi : kwargs Z Z unit :=
  mkKwargs Z Z unit None None None None None
           (Some (Some (Toy.block float32 1 1))) None None None None.

Definition toy_func_at (q : Toy.Tensor) (kw : kwargs Z Z unit) :=
  stripe_flash_attn_func Z Toy.cast Z Toy.gt_zero Toy.pow_neg_half 0%Z unit tt
                         Toy.select Toy.WORLD Z.add Toy.out_merge
                         q (Toy.k_of 0) (Toy.v_of 0) kw.

Definition toy_func (kw : kwargs Z Z unit) := toy_func_at (Toy.q_of 0) kw.

Lemma C9_witness :
  toy_func (no_kwargs Z Z unit) Toy.w0
  = (inl (AssertionError (Some causal_msg_fwd)),
     emit Z Z unit [EvContiguous Z Z unit (Toy.k_of 0);
                    EvContiguous Z Z unit (Toy.v_of 0)] Toy.w0) /\
  toy_func_at toy_q0 (no_kwargs Z Z unit) Toy.w0 = (inl ZeroDivisionError, Toy.w0).
Proof.
  assert (Hc : kw_causal Z Z unit (no_kwargs Z Z unit) <> Some true)
    by discriminate.
  destruct (C9_default_causal_fails_an_assertion
              Z Toy.cast Z Toy.gt_zero Toy.pow_neg_half 0%Z unit tt Toy.select
              Toy.WORLD Z.add Toy.out_merge (no_kwargs Z Z unit) Hc)
    as (H & _).
  split.
  - destruct (H (Toy.q_of 0) (Toy.k_of 0) (Toy.v_of 0)) as (_ & Ha & _).
    exact (Ha (toy_q_scale_defined None) Toy.w0).
  - destruct (H toy_q0 (Toy.k_of 0) (Toy.v_of 0)) as (_ & _ & Hz).
    exact (Hz eq_refl toy_q0_head_dim_zero Toy.w0).
Defined.

(** C9 as stated fails: a call that leaves [causal] at its default does
    not reach the causal assertion when it passes [alibi_slopes], it
    raises the assertion of line 219; nor when it passes no scale and a Q
    block of head dimension 0, it raises the ZeroDivisionError of line
    217. *)
Lemma C9_counterexample :
  ~ (forall kw : kwargs Z Z unit,
       kw_causal Z Z unit kw <> Some true ->
       fst (toy_func kw Toy.w0) = inl (AssertionError (Some causal_msg_fwd))) /\
  ~ (forall q : Toy.Tensor,
       fst (toy_func_at q (no_kwargs Z Z unit) Toy.w0)
       = inl (AssertionError (Some causal_msg_fwd))).
Proof.
  split; intros H.
  - specialize (H toy_kw_alibi). cbn in H.
    assert (Hc : @None bool <> Some true) by discriminate.
    specialize (H Hc). discriminate H.
  - specialize (H toy_q0). discriminate H.
Qed.

(** ** Instances of the further properties *)

Lemma toy_blocks_reduced (rho : nat) :
  reduced_precision Z (Toy.q_of rho) /\ reduced_precision Z (Toy.k_of rho) /\
  reduced_precision Z (Toy.v_of rho).
Proof. repeat split; discriminate. Qed.

Lemma backward_lse_copies_count_witness :
  exists res evs,
    Toy.backward (Toy.ring 0) 0 Toy.w0 = (inr res, emit Z Z unit evs Toy.w0) /\
    lse_slices Z Z unit evs = [Rank3 Z (mkTensor3 float32 [[[1%Z]]])].
Proof.
  destruct (backward_lse_copies_count
              Z Toy.cast Z.add Z unit Toy.select Toy.WORLD Toy.uninitialized
              (Toy.ring 0) (Toy.dout_of 0) (Toy.q_of 0) (Toy.k_of 0) (Toy.v_of 0)
              (Toy.out_of 0) (Toy.lse_of 0) 1%Z 0%Z true ((-1)%Z, (-1)%Z) 0%Z
              None false tt Toy.w0 eq_refl (Nat.lt_0_succ 1))
    as (res & evs & Hrun & Hl & _).
  exists res, evs. split; [exact Hrun|exact Hl].
Defined.

Lemma ring_traffic_runs_in_rounds_witness :
  exists res evs dk dv,
    Toy.backward (Toy.ring 0) 0 Toy.w0 = (inr res, emit Z Z unit evs Toy.w0) /\
    filter (on_channel Z Z unit 0) evs
    = [EvSendRecv Z Z unit 0 (Toy.k_of 0) None;
       EvSendRecv Z Z unit 0 (Toy.v_of 0) None;
       EvCommit Z Z unit 0; EvWait Z Z unit 0] /\
    filter (on_channel Z Z unit 1) evs
    = [EvSendRecv Z Z unit 1 (dk 0) None; EvSendRecv Z Z unit 1 (dv 0) None;
       EvCommit Z Z unit 1; EvWait Z Z unit 1;
       EvSendRecv Z Z unit 1 (dk 1) (Some (dk 0));
       EvSendRecv Z Z unit 1 (dv 1) (Some (dv 0));
       EvCommit Z Z unit 1; EvWait Z Z unit 1] /\
    t_dtype (dk 1) = float32.
Proof.
  destruct (ring_traffic_runs_in_rounds
              Z Toy.cast Z.add Z Toy.gt_zero unit Toy.select Toy.WORLD
              Toy.uninitialized Z.add Toy.out_merge (Toy.ring 0)
              (Toy.dout_of 0) (Toy.q_of 0) (Toy.k_of 0) (Toy.v_of 0) (Toy.out_of 0)
              (Toy.lse_of 0) 1%Z 0%Z true ((-1)%Z, (-1)%Z) 0%Z None false tt
              Toy.w0 eq_refl (Nat.lt_0_succ 1)
              (proj1 (proj2 (toy_blocks_reduced 0)))
              (proj2 (proj2 (toy_blocks_reduced 0))))
    as (_ & (res & evs & dk & dv & Hrun & H0 & H1 & Hd) & _).
  exists res, evs, dk, dv.
  split; [exact Hrun|]. split; [exact H0|]. split; [exact H1|].
  exact (proj1 (Hd 1)).
Defined.


Lemma single_rank_run_witness :
  (exists res a,
     Toy.forward None (Toy.q_of 0) (Toy.k_of 0) (Toy.v_of 0) true Toy.w0
     = (inr res, emit Z Z unit [EvFwdKernel Z Z unit tt fwd_only a] Toy.w0) /\
     fa_q a = Toy.q_of 0) /\
  fst (Toy.backward None 0 Toy.w0)
  = inr (Toy.block bfloat16 1 1, mkTensor bfloat16 [], mkTensor bfloat16 []).
Proof.
  destruct (single_rank_run
              Z Toy.cast Z.add Z Toy.gt_zero unit Toy.select Toy.WORLD
              Toy.uninitialized Z.add Toy.out_merge None
              (Toy.dout_of 0) (Toy.q_of 0) (Toy.k_of 0) (Toy.v_of 0) (Toy.out_of 0)
              (Toy.lse_of 0) 1%Z 0%Z true ((-1)%Z, (-1)%Z) 0%Z None false tt
              Toy.w0 eq_refl eq_refl)
    as ((res & Hf) & Hb).
  split.
  - do 2 eexists. split; [exact Hf|reflexivity].
  - cbv zeta in Hb. exact (f_equal fst Hb).
Defined.

(** The autograd forward on rank 0 of the ring of two, the scale left to
    its default. *)
Definition toy_autograd_forward (causal rs : bool) :=
  StripeFlashAttnFunc_forward Z Toy.cast Z Toy.gt_zero Toy.pow_neg_half unit
                              Toy.select Toy.WORLD Z.add Toy.out_merge
                              (Toy.q_of 0) (Toy.k_of 0) (Toy.v_of 0) 0%Z None causal
                              ((-1)%Z, (-1)%Z) 0%Z None true rs (Toy.ring 0) tt.

Definition toy_autograd_backward :=
  StripeFlashAttnFunc_backward Z Toy.cast Z.add Z unit Toy.select Toy.WORLD
                               Toy.uninitialized (Toy.dout_of 0).

Lemma autograd_forward_saves_context_witness :
  exists out w1,
    toy_autograd_forward true false Toy.w0 = (inr (OutOnly Z out), w1) /\
    t_dtype out = bfloat16 /\
    ctx_softmax_scale Z Z unit (w_ctx Z Z unit w1) = Some 1%Z /\
    ctx_deterministic Z Z unit (w_ctx Z Z unit w1) = Some true /\
    length (kernel_calls_fwd Z Z unit (w_trace Z Z unit w1)) = 2.
Proof.
  destruct (autograd_forward_saves_context
              Z Toy.cast Z Toy.gt_zero Toy.pow_neg_half unit Toy.select Toy.WORLD
              Z.add Toy.out_merge (Toy.q_of 0) (Toy.k_of 0) (Toy.v_of 0) 0%Z None
              ((-1)%Z, (-1)%Z) 0%Z true false (Toy.ring 0) tt Toy.w0
              (toy_q_scale_defined None) (Nat.lt_0_succ 1))
    as (out & lse & evs & Hrun & Hd & Hn & _).
  do 2 eexists. split; [exact Hrun|]. split; [exact Hd|].
  split; [reflexivity|]. split; [reflexivity|]. exact Hn.
Defined.

Lemma autograd_forward_failure_keeps_context_witness :
  fst (toy_autograd_forward false false Toy.w0)
  = inl (AssertionError (Some causal_msg_fwd)) /\
  w_ctx Z Z unit (snd (toy_autograd_forward false false Toy.w0))
  = empty_ctx Z Z unit.
Proof.
  split; [reflexivity|].
  exact (autograd_forward_failure_keeps_context
           Z Toy.cast Z Toy.gt_zero Toy.pow_neg_half unit Toy.select Toy.WORLD
           Z.add Toy.out_merge (Toy.q_of 0) (Toy.k_of 0) (Toy.v_of 0) 0%Z None
           false ((-1)%Z, (-1)%Z) 0%Z None true false (Toy.ring 0) tt Toy.w0
           (AssertionError (Some causal_msg_fwd)) eq_refl).
Defined.

Lemma autograd_backward_after_forward_witness :
  exists res w1 dq dk dv evs,
    toy_autograd_forward true false Toy.w0 = (inr res, w1) /\
    toy_autograd_backward w1 = (inr (dq, dk, dv), emit Z Z unit evs w1) /\
    t_dtype dq = bfloat16 /\
    length (kernel_calls_bwd Z Z unit evs) = 2.
Proof.
  destruct (autograd_backward_after_forward
              Z Toy.cast Z.add Z Toy.gt_zero Toy.pow_neg_half unit Toy.select
              Toy.WORLD Toy.uninitialized Z.add Toy.out_merge
              (Toy.q_of 0) (Toy.k_of 0) (Toy.v_of 0) 0%Z None
              ((-1)%Z, (-1)%Z) 0%Z true false (Toy.ring 0) tt (Toy.dout_of 0) Toy.w0
              (toy_q_scale_defined None) (Nat.lt_0_succ 1))
    as (res & w1 & dq & dk & dv & evs & Hf & Hb & Hq & _ & _ & Hn & _).
  exists res, w1, dq, dk, dv, evs. repeat split; assumption.
Defined.

(** The keyword arguments of a call that passes [causal=True] and nothing
    else. *)
Definition toy_kw_causal : kwargs Z Z unit :=
  mkKwargs Z Z unit None None (Some true) None None None None None None None.

Lemma entry_points_run_with_causal_witness :
  exists out w1,
    toy_func toy_kw_causal Toy.w0 = (inr (OutOnly Z out), w1) /\
    t_dtype out = bfloat16 /\
    length (kernel_calls_fwd Z Z unit (w_trace Z Z unit w1)) = 1.
Proof.
  destruct (entry_points_run_with_causal
              Z Toy.cast Z Toy.gt_zero Toy.pow_neg_half 0%Z unit tt Toy.select
              Toy.WORLD Z.add Toy.out_merge toy_kw_causal eq_refl eq_refl
              (Nat.lt_0_succ 0))
    as (H & _).
  destruct (H (Toy.q_of 0) (Toy.k_of 0) (Toy.v_of 0) (toy_q_scale_defined None)
              Toy.w0)
    as (out & lse & evs & ctx & Hrun & Hd & _ & _ & Hn & _).
  do 2 eexists. split; [exact Hrun|]. split; [exact Hd|]. exact Hn.
Defined.

Lemma toy_ring_kv_lockstep :
  kv_lockstep Z Toy.WORLD 2 Toy.k_of Toy.v_of Toy.deliver.
Proof.
  intros rho s Hrho Hs.
  destruct rho as [|[|rho]]; [| |lia]; (destruct s as [|s]; [|lia]);
    split; vm_compute; reflexivity.
Qed.

Lemma forward_meets_every_shard_once_witness :
  exists res evs a,
    Toy.forward (Toy.ring 0) (Toy.q_of 0) (Toy.k_of 0) (Toy.v_of 0) true Toy.w0
    = (inr res, emit Z Z unit evs Toy.w0) /\
    nth_error (kernel_calls_fwd Z Z unit evs) 1 = Some a /\
    owner 2 0 1 = 1 /\
    fa_q a = rows Z slice_from1 (Toy.q_of 0) /\
    t_data (fa_k Z Z a) = [[[[31%Z]]]].
Proof.
  destruct (forward_meets_every_shard_once
              Z Toy.cast Z Toy.gt_zero unit Toy.select Toy.WORLD Z.add
              Toy.out_merge 2 Toy.q_of Toy.k_of Toy.v_of 1%Z 0%Z
              ((-1)%Z, (-1)%Z) 0%Z None false tt Toy.deliver Toy.w0
              (Nat.lt_0_succ 1) toy_ring_kv_lockstep 0 (Nat.lt_0_succ 1))
    as (res & evs & Hrun & Hs & _).
  destruct (Hs 1 (Nat.lt_succ_diag_r 1)) as (a & Hn & _ & _ & _ & Hsh).
  destruct (Hsh (Nat.lt_0_succ 0)) as (Hq & Hk & _).
  exists res, evs, a. split; [exact Hrun|]. split; [exact Hn|].
  split; [reflexivity|]. split; [exact Hq|exact Hk].
Defined.

(** Memory that holds 99 everywhere, where the toy ring found zeros. *)
Definition toy_stale (t : Toy.Tensor) : T4 Z := map4 (fun _ => 99%Z) (t_data t).

Lemma toy_kernel_overwrites : overwrites_buffers Z Z (Toy.select tt bwd_only).
Proof. intros a bq bk bv. reflexivity. Qed.

Lemma gradients_ignore_uninitialized_memory_witness :
  fst (stripe_flash_attn_backward
         Z Toy.cast Z.add Z unit Toy.select Toy.WORLD toy_stale (Toy.ring 0)
         (Toy.dout_of 0) (Toy.q_of 0) (Toy.k_of 0) (Toy.v_of 0) (Toy.out_of 0)
         (Toy.lse_of 0) 1%Z 0%Z true ((-1)%Z, (-1)%Z) 0%Z None false tt Toy.w0)
  = fst (Toy.backward (Toy.ring 0) 0 Toy.w0).
Proof.
  exact (proj1 (gradients_ignore_uninitialized_memory
                  Z Toy.cast Z.add Z unit Toy.select Toy.WORLD (Toy.ring 0)
                  (Toy.dout_of 0) (Toy.q_of 0) (Toy.k_of 0) (Toy.v_of 0)
                  (Toy.out_of 0) (Toy.lse_of 0) 1%Z 0%Z true ((-1)%Z, (-1)%Z) 0%Z
                  None false tt toy_stale Toy.uninitialized toy_kernel_overwrites
                  Toy.w0 (proj1 (toy_blocks_reduced 0))
                  (proj1 (proj2 (toy_blocks_reduced 0)))
                  (proj2 (proj2 (toy_blocks_reduced 0))))).
Defined.

Lemma last_row_of_dk_settles_before_wrap_witness :
  exists dq w',
    Toy.backward (Toy.ring 1) 1 Toy.w0
    = (inr (dq, Toy.block bfloat16 4 2, Toy.block bfloat16 6 3), w') /\
    holder 2 1 1 = 0 /\
    last_row Z (Toy.block bfloat16 4 2) = [[[[2%Z]]]].
Proof.
  destruct (last_row_of_dk_settles_before_wrap
              Z Toy.cast Z.add Z unit Toy.select Toy.WORLD Toy.uninitialized 2
              Toy.dout_of Toy.q_of Toy.k_of Toy.v_of Toy.out_of Toy.lse_of
              1%Z 0%Z true ((-1)%Z, (-1)%Z) 0%Z None false tt Toy.deliver
              Toy.w0 eq_refl (Nat.lt_0_succ 1) toy_ring_lockstep
              (fun rho _ => toy_blocks_reduced rho) 1 (Nat.lt_succ_diag_r 1))
    as ((dq & w' & Hrun) & _ & _).
  exists dq, w'. split; [exact Hrun|]. split; reflexivity.
Defined.

(** ** The model at work *)

Example getslice_from1_example : getslice slice_from1 [1; 2; 3] = [2; 3].
Proof. reflexivity. Qed.

Example getslice_to_m1_example : getslice slice_to_m1 [1; 2; 3] = [1; 2].
Proof. reflexivity. Qed.

Example setslice_from1_example : setslice slice_from1 [1; 2; 3] [7; 8] = [1; 7; 8].
Proof. reflexivity. Qed.

(** Rank 0 of the ring of two, forward: the second step is Shifted, row 0
    of the output keeps the 7 of the first step, row 1 gets the second 7. *)
Example toy_forward_rank0 :
  fst (Toy.forward (Toy.ring 0) (Toy.q_of 0) (Toy.k_of 0) (Toy.v_of 0) true Toy.w0)
  = inr (Toy.block bfloat16 7 14, Rank3 Z (mkTensor3 float32 [[[1; 2]]]))%Z.
Proof. vm_compute. reflexivity. Qed.

(** With [causal] false nothing runs. *)
Example toy_forward_not_causal :
  Toy.forward (Toy.ring 0) (Toy.q_of 0) (Toy.k_of 0) (Toy.v_of 0) false Toy.w0
  = (inl (AssertionError (Some causal_msg_fwd)), Toy.w0).
Proof. reflexivity. Qed.

(** Backward on the ring of two: the shard of rank 0 gets two full
    contributions, the shard of rank 1 a full one from rank 1 and a Shifted
    one, which leaves its last row alone, from rank 0. *)
Example toy_backward_rank0 :
  fst (Toy.backward (Toy.ring 0) 0 Toy.w0)
  = inr (Toy.block bfloat16 1 2, Toy.block bfloat16 4 4, Toy.block bfloat16 6 6).
Proof. vm_compute. reflexivity. Qed.

Example toy_backward_rank1 :
  fst (Toy.backward (Toy.ring 1) 1 Toy.w0)
  = inr (Toy.block bfloat16 2 2, Toy.block bfloat16 4 2, Toy.block bfloat16 6 3).
Proof. vm_compute. reflexivity. Qed.

(** A call of the public entry point with [alibi_slopes] and the default
    [causal] stops at the assertion of line 219. *)
Example toy_func_alibi :
  toy_func toy_kw_alibi Toy.w0 = (inl (AssertionError None), Toy.w0).
Proof. reflexivity. Qed.

Lemma gradients_stay_apart_from_the_buffers_witness :
  exists st,
    Sharing.at_step bfloat16 bfloat16 bfloat16 0 2 = Some st /\
    Sharing.apart st /\
    Sharing.next_dk st = Some (Sharing.made 1) /\
    Sharing.dk st = Some (Sharing.made 3).
Proof.
  destruct (gradients_stay_apart_from_the_buffers bfloat16 bfloat16 bfloat16 0 2)
    as (st & Hst & Hap); try discriminate.
  exists st. split; [exact Hst|]. split; [exact Hap|].
  vm_compute in Hst. injection Hst as <-. split; reflexivity.
Defined.
